(** * gothu: the chat / message data model and its server actions

    A shallow embedding of the server actions of the messenger
    (register, login, chats, messages, search, profile) over an explicit
    model of the four SQLite tables declared in [src/db/schema.ts], and the
    properties of the specification that hold (or fail) on it.

    Conventions of the embedding.
    - A JavaScript string is a sequence of UTF-16 code units; the model
      carries the code units below 256 (Latin-1) as [ascii].
    - A number that is an identifier or a timestamp is a [Z].
    - A nullable column is an [option]; SQL [NULL] and JavaScript
      [null]/[undefined] are both [None].
    - A table is the list of its rows in rowid order; a [select] with no
      [orderBy] returns the rows in that order.
    - Every action takes the result of [getCurrentUser()] (the claims of the
      verified session cookie, if any) and the reading of the clock
      ([new Date()], in seconds as the columns store it), and returns its
      reply together with the store it leaves behind.
    - [revalidatePath] only invalidates a render cache; it has no effect on
      the store and is left out. *)

From Stdlib Require Import List ZArith NArith String Ascii Bool Lia.
From Stdlib Require Import Permutation Sorted.
Import ListNotations.

Local Open Scope Z_scope.

(** ** JavaScript strings *)

Module Js.

(** ECMAScript [WhiteSpace] and [LineTerminator] code units below 256:
    TAB, LF, VT, FF, CR, SP and NBSP. *)
Definition isWhiteSpace (c : ascii) : bool :=
  let n := N_of_ascii c in
  ((9 <=? n) && (n <=? 13) || (n =? 32) || (n =? 160))%N.

Fixpoint trimStart (s : string) : string :=
  match s with
  | EmptyString => EmptyString
  | String c r => if isWhiteSpace c then trimStart r else s
  end.

Fixpoint trimEnd (s : string) : string :=
  match s with
  | EmptyString => EmptyString
  | String c r =>
      match trimEnd r with
      | EmptyString => if isWhiteSpace c then EmptyString else String c EmptyString
      | r' => String c r'
      end
  end.

(** [String.prototype.trim] *)
Definition trim (s : string) : string := trimEnd (trimStart s).

(** Upper-case letters of Latin-1: A-Z and U+00C0..U+00DE except the
    multiplication sign U+00D7; each lies 32 below its lower-case form. *)
Definition isUpper (c : ascii) : bool :=
  let n := N_of_ascii c in
  ((65 <=? n) && (n <=? 90) || (192 <=? n) && (n <=? 222) && negb (n =? 215))%N.

Definition lowerChar (c : ascii) : ascii :=
  if isUpper c then ascii_of_N (N_of_ascii c + 32) else c.

(** [String.prototype.toLowerCase] *)
Fixpoint toLowerCase (s : string) : string :=
  match s with
  | EmptyString => EmptyString
  | String c r => String (lowerChar c) (toLowerCase r)
  end.

(** The character class [[a-zA-Z0-9_]]. *)
Definition isWordChar (c : ascii) : bool :=
  let n := N_of_ascii c in
  ((97 <=? n) && (n <=? 122) || (65 <=? n) && (n <=? 90)
   || (48 <=? n) && (n <=? 57) || (n =? 95))%N.

Fixpoint allChars (p : ascii -> bool) (s : string) : bool :=
  match s with
  | EmptyString => true
  | String c r => p c && allChars p r
  end.

(** [/^[a-zA-Z0-9_]+$/.test(s)] *)
Definition isUsername (s : string) : bool :=
  match s with
  | EmptyString => false
  | _ => allChars isWordChar s
  end.

(** Truthiness of a value typed [string] that may be [null]:
    [null] and the empty string are falsy. *)
Definition truthy (v : option string) : bool :=
  match v with
  | Some (String _ _) => true
  | _ => false
  end.

(** [a || b] on such values. *)
Definition orElse (a : option string) (b : string) : string :=
  match a with
  | Some (String c r) => String c r
  | _ => b
  end.

(** [a || b] on numbers that may be [undefined]: [undefined] and [0] are
    falsy. *)
Definition orNum (a b : option Z) : option Z :=
  match a with
  | Some v => if v =? 0 then b else Some v
  | None => b
  end.

(** [Date.prototype.getTime] of a timestamp column: the column stores
    seconds, the [Date] read back counts milliseconds. *)
Definition getTime (seconds : Z) : Z := 1000 * seconds.

(** A stable sort by insertion: [before x y] says that [x] may stay in
    front of [y].  [Array.prototype.sort] is stable, so any comparator that
    is a total preorder gives this result. *)
Section Sort.
Context {A : Type} (before : A -> A -> bool).

Fixpoint insert (x : A) (l : list A) : list A :=
  match l with
  | [] => [x]
  | y :: r => if before x y then x :: l else y :: insert x r
  end.

Definition stableSort (l : list A) : list A := fold_right insert [] l.
End Sort.

(** [Array.prototype.sort(cmp)] for a comparator returning a number. *)
Definition sort {A : Type} (cmp : A -> A -> Z) (l : list A) : list A :=
  stableSort (fun a b => cmp a b <=? 0) l.

(** [FormData]: the submitted fields in order; [get] returns the first
    value of a name, [null] when the name is absent. *)
Definition FormData := list (string * string).

Fixpoint get (fd : FormData) (name : string) : option string :=
  match fd with
  | [] => None
  | (k, v) :: r => if String.eqb k name then Some v else get r name
  end.

End Js.

(** ** SQLite operators used by the queries *)

Module Sql.

Definition upperAscii (c : ascii) : ascii :=
  let n := N_of_ascii c in
  if ((97 <=? n) && (n <=? 122))%N then ascii_of_N (n - 32) else c.

(** [text LIKE pattern]: [%] matches any run of characters, [_] any one
    character, every other character itself, ASCII letters without regard
    to case. *)
Fixpoint likeMatch (pattern text : string) : bool :=
  match pattern with
  | EmptyString => match text with EmptyString => true | _ => false end
  | String c p' =>
      if Ascii.eqb c "%"%char then
        (fix anySuffix (t : string) : bool :=
           likeMatch p' t ||
           match t with
           | EmptyString => false
           | String _ t' => anySuffix t'
           end) text
      else
        match text with
        | EmptyString => false
        | String d t' =>
            (Ascii.eqb c "_"%char || Ascii.eqb (upperAscii c) (upperAscii d))
            && likeMatch p' t'
        end
  end.

Definition like (column pattern : string) : bool := likeMatch pattern column.

(** Ordering of a nullable integer column: [NULL] sorts before every
    value. *)
Definition nullLeb (a b : option Z) : bool :=
  match a, b with
  | None, _ => true
  | Some _, None => false
  | Some x, Some y => x <=? y
  end.

(** [ORDER BY key] and [ORDER BY key DESC]; rows with equal keys keep
    their rowid order. *)
Definition orderBy {A : Type} (key : A -> option Z) (rows : list A) : list A :=
  Js.stableSort (fun a b => nullLeb (key a) (key b)) rows.

Definition orderByDesc {A : Type} (key : A -> option Z) (rows : list A) : list A :=
  Js.stableSort (fun a b => nullLeb (key b) (key a)) rows.

Definition limit {A : Type} (n : nat) (rows : list A) : list A := firstn n rows.

(** [AUTOINCREMENT]: one more than the largest rowid the table holds or
    ever held. *)
Definition maxId (ids : list Z) : Z := fold_right Z.max 0 ids.

Definition nextRowid (seq : Z) (ids : list Z) : Z := Z.max seq (maxId ids) + 1.

End Sql.


(** ** The tables of [src/db/schema.ts] *)

Inductive ChatType := private | group | channel.

Inductive Role := owner | admin | member.

Definition ChatType_eqb (a b : ChatType) : bool :=
  match a, b with
  | private, private | group, group | channel, channel => true
  | _, _ => false
  end.

Module User.
Record row := mk {
  id : Z;
  username : string;
  phone : string;
  passwordHash : string;
  displayName : string;
  bio : option string;
  avatarUrl : option string;
  lastSeen : option Z;
  isOnline : option bool;
  createdAt : option Z
}.
End User.

Module Chat.
Record row := mk {
  id : Z;
  type : ChatType;
  name : option string;
  description : option string;
  avatarUrl : option string;
  createdBy : option Z;
  createdAt : option Z
}.
End Chat.

Module ChatMember.
Record row := mk {
  id : Z;
  chatId : Z;
  userId : Z;
  role : Role;
  joinedAt : option Z
}.
End ChatMember.

Module Message.
Record row := mk {
  id : Z;
  chatId : Z;
  senderId : Z;
  text : option string;
  replyToId : option Z;
  isEdited : option bool;
  isDeleted : option bool;
  createdAt : option Z
}.
End Message.

(** The database: the four tables and, for each, the [sqlite_sequence]
    entry that [AUTOINCREMENT] keeps. *)
Record Store := mkStore {
  users : list User.row;
  chats : list Chat.row;
  chatMembers : list ChatMember.row;
  messages : list Message.row;
  seqUsers : Z;
  seqChats : Z;
  seqChatMembers : Z;
  seqMessages : Z
}.


(** [interface AuthUser] of [src/lib/auth.ts]: the claims a session token
    carries.  [getCurrentUser()] yields them for a valid cookie and [null]
    otherwise. *)
Module AuthUser.
Record t := mk {
  id : Z;
  username : string;
  displayName : string;
  phone : string
}.
End AuthUser.

(** ** Statements on the store *)

(** [db.insert(users).values({phone, username, displayName, passwordHash})]:
    the columns left out take their defaults; the unique indexes on
    [username] and [phone] reject a row that repeats either. *)
Definition insertUser (phone username displayName passwordHash : string)
    (now : Z) (s : Store) : option (User.row * Store) :=
  if existsb (fun u => String.eqb (User.username u) username
                       || String.eqb (User.phone u) phone) (users s)
  then None
  else
    let rowid := Sql.nextRowid (seqUsers s) (map User.id (users s)) in
    let u := User.mk rowid username phone passwordHash displayName
               (Some EmptyString) None (Some now) (Some false) (Some now) in
    Some (u, mkStore (users s ++ [u]) (chats s) (chatMembers s) (messages s)
               rowid (seqChats s) (seqChatMembers s) (seqMessages s)).

(** [db.insert(chats).values({type, name?, createdBy}).returning()] *)
Definition insertChat (type : ChatType) (name : option string) (createdBy : Z)
    (now : Z) (s : Store) : Chat.row * Store :=
  let rowid := Sql.nextRowid (seqChats s) (map Chat.id (chats s)) in
  let c := Chat.mk rowid type name None None (Some createdBy) (Some now) in
  (c, mkStore (users s) (chats s ++ [c]) (chatMembers s) (messages s)
        (seqUsers s) rowid (seqChatMembers s) (seqMessages s)).

Definition insertChatMember (now : Z) (s : Store) (v : Z * Z * Role) : Store :=
  let '(chatId, userId, role) := v in
  let rowid := Sql.nextRowid (seqChatMembers s) (map ChatMember.id (chatMembers s)) in
  let m := ChatMember.mk rowid chatId userId role (Some now) in
  mkStore (users s) (chats s) (chatMembers s ++ [m]) (messages s)
    (seqUsers s) (seqChats s) rowid (seqMessages s).

(** [db.insert(chatMembers).values([...])]: the rows of the batch, in
    order. *)
Definition insertChatMembers (values : list (Z * Z * Role)) (now : Z)
    (s : Store) : Store :=
  fold_left (insertChatMember now) values s.

(** [db.insert(messages).values({chatId, senderId, text, replyToId}).returning()] *)
Definition insertMessage (chatId senderId : Z) (text : string)
    (replyToId : option Z) (now : Z) (s : Store) : Message.row * Store :=
  let rowid := Sql.nextRowid (seqMessages s) (map Message.id (messages s)) in
  let m := Message.mk rowid chatId senderId (Some text) replyToId
             (Some false) (Some false) (Some now) in
  (m, mkStore (users s) (chats s) (chatMembers s) (messages s ++ [m])
        (seqUsers s) (seqChats s) (seqChatMembers s) rowid).

(** [db.update(users).set({isOnline, lastSeen: new Date()}).where(eq(users.id, uid))] *)
Definition setPresence (uid : Z) (online : bool) (now : Z) (s : Store) : Store :=
  mkStore
    (map (fun u =>
            if User.id u =? uid
            then User.mk (User.id u) (User.username u) (User.phone u)
                   (User.passwordHash u) (User.displayName u) (User.bio u)
                   (User.avatarUrl u) (Some now) (Some online) (User.createdAt u)
            else u) (users s))
    (chats s) (chatMembers s) (messages s)
    (seqUsers s) (seqChats s) (seqChatMembers s) (seqMessages s).

(** [db.update(users).set({displayName, bio, username}).where(eq(users.id, uid))]:
    when a row is matched and another row already holds the new username, the
    unique index rejects the statement. *)
Definition setProfile (uid : Z) (displayName bio username : string)
    (s : Store) : option Store :=
  if existsb (fun u => User.id u =? uid) (users s)
     && existsb (fun v => negb (User.id v =? uid)
                          && String.eqb (User.username v) username) (users s)
  then None
  else
    Some (mkStore
      (map (fun u =>
              if User.id u =? uid
              then User.mk (User.id u) username (User.phone u)
                     (User.passwordHash u) displayName (Some bio)
                     (User.avatarUrl u) (User.lastSeen u) (User.isOnline u)
                     (User.createdAt u)
              else u) (users s))
      (chats s) (chatMembers s) (messages s)
      (seqUsers s) (seqChats s) (seqChatMembers s) (seqMessages s)).

(** [db.update(messages).set(...).where(and(eq(messages.id, messageId),
    eq(messages.senderId, uid)))] *)
Definition updateMessages (messageId uid : Z) (set : Message.row -> Message.row)
    (s : Store) : Store :=
  mkStore (users s) (chats s) (chatMembers s)
    (map (fun m =>
            if (Message.id m =? messageId) && (Message.senderId m =? uid)
            then set m else m) (messages s))
    (seqUsers s) (seqChats s) (seqChatMembers s) (seqMessages s).

Definition setEdited (newText : string) (m : Message.row) : Message.row :=
  Message.mk (Message.id m) (Message.chatId m) (Message.senderId m)
    (Some newText) (Message.replyToId m) (Some true) (Message.isDeleted m)
    (Message.createdAt m).

Definition setDeleted (m : Message.row) : Message.row :=
  Message.mk (Message.id m) (Message.chatId m) (Message.senderId m)
    (Message.text m) (Message.replyToId m) (Message.isEdited m) (Some true)
    (Message.createdAt m).

(** ** What the actions answer *)

Inductive Reply (A : Type) :=
| Payload (a : A)
    (* the object the action returns on success *)
| ErrorReply (error : string)
    (* the object [{ error }] *)
| Redirected (path : string) (cookie : option AuthUser.t)
    (* [redirect(path)], after the auth cookie was set to the claims or
       removed *)
| StoreException.
    (* the store rejected a statement and nothing caught it *)

Arguments Payload {A} a.
Arguments ErrorReply {A} error.
Arguments Redirected {A} path cookie.
Arguments StoreException {A}.

(** A joined member row of [getUserChats]. *)
Module MemberInfo.
Record t := mk {
  userId : Z;
  role : Role;
  username : string;
  displayName : string;
  avatarUrl : option string;
  isOnline : option bool;
  lastSeen : option Z
}.
End MemberInfo.

(** An element of the list [getUserChats] returns: the columns of the chat
    with [name] and [avatarUrl] replaced, and the three added fields. *)
Module ChatSummary.
Record t := mk {
  id : Z;
  type : ChatType;
  name : option string;
  description : option string;
  avatarUrl : option string;
  createdBy : option Z;
  createdAt : option Z;
  members : list MemberInfo.t;
  lastMessage : option Message.row;
  otherUserOnline : bool
}.
End ChatSummary.

(** A row of [getChatMessages]. *)
Module MessageView.
Record t := mk {
  id : Z;
  chatId : Z;
  senderId : Z;
  text : option string;
  replyToId : option Z;
  isEdited : option bool;
  isDeleted : option bool;
  createdAt : option Z;
  senderUsername : string;
  senderDisplayName : string;
  senderAvatar : option string
}.
End MessageView.

(** A row of [searchUsers]. *)
Module SearchUser.
Record t := mk {
  id : Z;
  username : string;
  displayName : string;
  avatarUrl : option string;
  isOnline : option bool
}.
End SearchUser.

(** What [getUserProfile] returns: the user row without [passwordHash]. *)
Module Profile.
Record t := mk {
  id : Z;
  username : string;
  phone : string;
  displayName : string;
  bio : option string;
  avatarUrl : option string;
  lastSeen : option Z;
  isOnline : option bool;
  createdAt : option Z
}.
End Profile.

(** ** The server actions *)

Definition isEmpty (s : string) : bool :=
  match s with EmptyString => true | _ => false end.

(** [members] of a chat: [select().from(chatMembers).where(eq(chatMembers.chatId, c))] *)
Definition membersOf (s : Store) (c : Z) : list ChatMember.row :=
  filter (fun m => ChatMember.chatId m =? c) (chatMembers s).

(** [select({chatId}).from(chatMembers).where(eq(chatMembers.userId, uid))] *)
Definition chatIdsOf (s : Store) (uid : Z) : list Z :=
  map ChatMember.chatId
    (filter (fun m => ChatMember.userId m =? uid) (chatMembers s)).

(** [select().from(chats).where(and(eq(chats.id, c), eq(chats.type, "private")))] *)
Definition privateChat (s : Store) (c : Z) : list Chat.row :=
  filter (fun ch => (Chat.id ch =? c) && ChatType_eqb (Chat.type ch) private)
    (chats s).

(** The test one turn of the loop of [createPrivateChat] makes on the chat
    [c]. *)
Definition isPrivateChatWith (s : Store) (targetUserId c : Z) : bool :=
  let members := membersOf s c in
  let chat := privateChat s c in
  (0 <? List.length chat)%nat && (List.length members =? 2)%nat
  && existsb (fun m => ChatMember.userId m =? targetUserId) members.

(** The loop [for (const ec of existingChats)]: the first chat that passes
    the test is returned. *)
Fixpoint findPrivateChat (s : Store) (targetUserId : Z) (existingChats : list Z)
    : option Z :=
  match existingChats with
  | [] => None
  | ec :: rest =>
      if isPrivateChatWith s targetUserId ec then Some ec
      else findPrivateChat s targetUserId rest
  end.

Definition createPrivateChat (currentUser : option AuthUser.t)
    (targetUserId : Z) (now : Z) (s : Store) : Reply Z * Store :=
  match currentUser with
  | None => (ErrorReply "Not authenticated", s)
  | Some cu =>
      let existingChats := chatIdsOf s (AuthUser.id cu) in
      match findPrivateChat s targetUserId existingChats with
      | Some chatId => (Payload chatId, s)
      | None =>
          let '(newChat, s1) := insertChat private None (AuthUser.id cu) now s in
          let s2 :=
            insertChatMembers
              [ (Chat.id newChat, AuthUser.id cu, member);
                (Chat.id newChat, targetUserId, member) ] now s1 in
          (Payload (Chat.id newChat), s2)
      end
  end.

(** [Array.prototype.map] with the index passed to the callback. *)
Fixpoint mapFrom {A B : Type} (i : nat) (f : A -> nat -> B) (l : list A) : list B :=
  match l with
  | [] => []
  | x :: r => f x i :: mapFrom (S i) f r
  end.

Definition createGroupChat (currentUser : option AuthUser.t) (name : string)
    (memberIds : list Z) (now : Z) (s : Store) : Reply Z * Store :=
  match currentUser with
  | None => (ErrorReply "Not authenticated", s)
  | Some cu =>
      let '(newChat, s1) := insertChat group (Some name) (AuthUser.id cu) now s in
      let allMembers := AuthUser.id cu :: memberIds in
      let s2 :=
        insertChatMembers
          (mapFrom 0
             (fun userId i =>
                (Chat.id newChat, userId, if (i =? 0)%nat then owner else member))
             allMembers) now s1 in
      (Payload (Chat.id newChat), s2)
  end.

(** [replyToId || null] *)
Definition orNull (replyToId : option Z) : option Z :=
  match replyToId with
  | Some r => if r =? 0 then None else Some r
  | None => None
  end.

Definition sendMessage (currentUser : option AuthUser.t) (chatId : Z)
    (text : string) (replyToId : option Z) (now : Z) (s : Store)
    : Reply Message.row * Store :=
  match currentUser with
  | None => (ErrorReply "Not authenticated", s)
  | Some cu =>
      if isEmpty (Js.trim text) then (ErrorReply "Message cannot be empty", s)
      else
        let '(m, s1) :=
          insertMessage chatId (AuthUser.id cu) (Js.trim text) (orNull replyToId)
            now s in
        (Payload m, s1)
  end.

Definition editMessage (currentUser : option AuthUser.t) (messageId : Z)
    (newText : string) (s : Store) : Reply bool * Store :=
  match currentUser with
  | None => (ErrorReply "Not authenticated", s)
  | Some cu =>
      (Payload true, updateMessages messageId (AuthUser.id cu) (setEdited newText) s)
  end.

Definition deleteMessage (currentUser : option AuthUser.t) (messageId : Z)
    (s : Store) : Reply bool * Store :=
  match currentUser with
  | None => (ErrorReply "Not authenticated", s)
  | Some cu =>
      (Payload true, updateMessages messageId (AuthUser.id cu) setDeleted s)
  end.

(** The joined member rows of a chat:
    [chatMembers innerJoin users on chatMembers.userId = users.id
     where chatMembers.chatId = c]. *)
Definition memberInfos (s : Store) (c : Z) : list MemberInfo.t :=
  flat_map
    (fun m =>
       map (fun u =>
              MemberInfo.mk (ChatMember.userId m) (ChatMember.role m)
                (User.username u) (User.displayName u) (User.avatarUrl u)
                (User.isOnline u) (User.lastSeen u))
         (filter (fun u => ChatMember.userId m =? User.id u) (users s)))
    (membersOf s c).

Definition isLive (c : Z) (m : Message.row) : bool :=
  (Message.chatId m =? c)
  && match Message.isDeleted m with Some false => true | _ => false end.

(** [select().from(messages).where(and(eq(chatId, c), eq(isDeleted, false)))
     .orderBy(desc(createdAt)).limit(1)] *)
Definition lastMsg (s : Store) (c : Z) : list Message.row :=
  Sql.limit 1 (Sql.orderByDesc Message.createdAt (filter (isLive c) (messages s))).

(** [otherUser.isOnline ?? false] *)
Definition orFalse (b : option bool) : bool :=
  match b with Some v => v | None => false end.

(** One turn of the loop of [getUserChats]: nothing for a chat id without a
    chat row ([continue]), otherwise the summary pushed on [chatList]. *)
Definition chatSummary (cu : AuthUser.t) (s : Store) (c : Z)
    : list ChatSummary.t :=
  match filter (fun ch => Chat.id ch =? c) (chats s) with
  | [] => []
  | chat0 :: _ =>
      let members := memberInfos s c in
      let otherUser :=
        match Chat.type chat0 with
        | private =>
            find (fun m => negb (MemberInfo.userId m =? AuthUser.id cu)) members
        | _ => None
        end in
      let chatName :=
        match otherUser with
        | Some o => Some (MemberInfo.displayName o)
        | None => Chat.name chat0
        end in
      let chatAvatar :=
        match otherUser with
        | Some o => MemberInfo.avatarUrl o
        | None => Chat.avatarUrl chat0
        end in
      let otherUserOnline :=
        match otherUser with
        | Some o => orFalse (MemberInfo.isOnline o)
        | None => false
        end in
      [ ChatSummary.mk (Chat.id chat0) (Chat.type chat0) chatName
          (Chat.description chat0) chatAvatar (Chat.createdBy chat0)
          (Chat.createdAt chat0) members (hd_error (lastMsg s c))
          otherUserOnline ]
  end.

(** [a.lastMessage?.createdAt?.getTime() || a.createdAt?.getTime() || 0] *)
Definition sortTime (a : ChatSummary.t) : Z :=
  let ofMessage :=
    match ChatSummary.lastMessage a with
    | Some m => option_map Js.getTime (Message.createdAt m)
    | None => None
    end in
  let ofChat := option_map Js.getTime (ChatSummary.createdAt a) in
  match Js.orNum (Js.orNum ofMessage ofChat) (Some 0) with
  | Some t => t
  | None => 0
  end.

(** [chatList] of [getUserChats] before it is sorted. *)
Definition chatList (cu : AuthUser.t) (s : Store) : list ChatSummary.t :=
  flat_map (chatSummary cu s) (chatIdsOf s (AuthUser.id cu)).

Definition getUserChats (currentUser : option AuthUser.t) (s : Store)
    : list ChatSummary.t :=
  match currentUser with
  | None => []
  | Some cu => Js.sort (fun a b => sortTime b - sortTime a) (chatList cu s)
  end.

Definition messageView (m : Message.row) (u : User.row) : MessageView.t :=
  MessageView.mk (Message.id m) (Message.chatId m) (Message.senderId m)
    (Message.text m) (Message.replyToId m) (Message.isEdited m)
    (Message.isDeleted m) (Message.createdAt m)
    (User.username u) (User.displayName u) (User.avatarUrl u).

(** [messages innerJoin users on messages.senderId = users.id]: one row
    for each message and each user row with the sender's id. *)
Definition joinSenders (s : Store) (ms : list Message.row) : list MessageView.t :=
  flat_map
    (fun m =>
       map (messageView m)
         (filter (fun u => Message.senderId m =? User.id u) (users s)))
    ms.

Definition getChatMessages (currentUser : option AuthUser.t) (chatId : Z)
    (s : Store) : list MessageView.t :=
  match currentUser with
  | None => []
  | Some _ =>
      Sql.orderBy MessageView.createdAt
        (filter (fun v => MessageView.chatId v =? chatId)
           (joinSenders s (messages s)))
  end.

Definition searchUser (u : User.row) : SearchUser.t :=
  SearchUser.mk (User.id u) (User.username u) (User.displayName u)
    (User.avatarUrl u) (User.isOnline u).

Definition searchUsers (currentUser : option AuthUser.t) (query : string)
    (s : Store) : list SearchUser.t :=
  match currentUser with
  | None => []
  | Some cu =>
      if isEmpty (Js.trim query) then []
      else
        let results :=
          Sql.limit 20
            (map searchUser
               (filter
                  (fun u =>
                     (Sql.like (User.username u)
                        ("%" ++ Js.toLowerCase query ++ "%")%string
                      || Sql.like (User.displayName u) ("%" ++ query ++ "%")%string)
                     && (User.id u =? User.id u))
                  (users s))) in
        filter (fun u => negb (SearchUser.id u =? AuthUser.id cu)) results
  end.

Definition profileOf (u : User.row) : Profile.t :=
  Profile.mk (User.id u) (User.username u) (User.phone u) (User.displayName u)
    (User.bio u) (User.avatarUrl u) (User.lastSeen u) (User.isOnline u)
    (User.createdAt u).

Definition getUserProfile (currentUser : option AuthUser.t) (s : Store)
    : option Profile.t :=
  match currentUser with
  | None => None
  | Some cu =>
      match filter (fun u => User.id u =? AuthUser.id cu) (users s) with
      | [] => None
      | u :: _ => Some (profileOf u)
      end
  end.

Definition updateProfile (currentUser : option AuthUser.t) (formData : Js.FormData)
    (s : Store) : Reply bool * Store :=
  match currentUser with
  | None => (ErrorReply "Not authenticated", s)
  | Some cu =>
      let displayName := Js.get formData "displayName" in
      let bio := Js.get formData "bio" in
      let username := Js.get formData "username" in
      if negb (Js.truthy displayName) then (ErrorReply "Display name is required", s)
      else
        match
          setProfile (AuthUser.id cu)
            (Js.orElse displayName "")
            (Js.orElse bio "")
            (Js.orElse (option_map Js.toLowerCase username) (AuthUser.username cu))
            s
        with
        | Some s1 => (Payload true, s1)
        | None => (StoreException, s)
        end
  end.

Definition logoutAction (currentUser : option AuthUser.t) (now : Z) (s : Store)
    : Reply unit * Store :=
  (Redirected "/" None,
   match currentUser with
   | Some cu => setPresence (AuthUser.id cu) false now s
   | None => s
   end).

Definition claimsOf (u : User.row) : AuthUser.t :=
  AuthUser.mk (User.id u) (User.username u) (User.displayName u) (User.phone u).

(** [bcryptjs] is taken as given: [bcrypt.hash(password, 10)] and
    [bcrypt.compare(password, hash)]. *)
Section Auth.
Variable bcryptHash : string -> string.
Variable bcryptCompare : string -> string -> bool.

Definition registerAction (formData : Js.FormData) (now : Z) (s : Store)
    : Reply unit * Store :=
  match Js.get formData "phone", Js.get formData "username",
        Js.get formData "displayName", Js.get formData "password" with
  | Some phone, Some username, Some displayName, Some password =>
      if isEmpty phone || isEmpty username || isEmpty displayName
         || isEmpty password
      then (ErrorReply "All fields are required", s)
      else if (String.length password <? 6)%nat
      then (ErrorReply "Password must be at least 6 characters", s)
      else if negb (Js.isUsername username)
      then (ErrorReply "Username can only contain letters, numbers, and underscores", s)
      else
        let existing :=
          filter (fun u => String.eqb (User.phone u) phone
                           || String.eqb (User.username u) username) (users s) in
        if (0 <? List.length existing)%nat
        then (ErrorReply "Phone number or username already registered", s)
        else
          match
            insertUser phone (Js.toLowerCase username) displayName
              (bcryptHash password) now s
          with
          | Some (user, s1) => (Redirected "/chat" (Some (claimsOf user)), s1)
          | None => (StoreException, s)
          end
  | _, _, _, _ => (ErrorReply "All fields are required", s)
  end.

Definition loginAction (formData : Js.FormData) (now : Z) (s : Store)
    : Reply unit * Store :=
  match Js.get formData "login", Js.get formData "password" with
  | Some login, Some password =>
      if isEmpty login || isEmpty password
      then (ErrorReply "All fields are required", s)
      else
        match
          filter (fun u => String.eqb (User.phone u) login
                           || String.eqb (User.username u) (Js.toLowerCase login))
            (users s)
        with
        | [] => (ErrorReply "User not found", s)
        | user :: _ =>
            if negb (bcryptCompare password (User.passwordHash user))
            then (ErrorReply "Invalid password", s)
            else (Redirected "/chat" (Some (claimsOf user)),
                  setPresence (User.id user) true now s)
        end
  | _, _ => (ErrorReply "All fields are required", s)
  end.

(** The operation surface: one request of a client. *)
Inductive Request :=
| Register (formData : Js.FormData)
| Login (formData : Js.FormData)
| Logout
| CreatePrivateChat (targetUserId : Z)
| CreateGroupChat (name : string) (memberIds : list Z)
| SendMessage (chatId : Z) (text : string) (replyToId : option Z)
| EditMessage (messageId : Z) (newText : string)
| DeleteMessage (messageId : Z)
| GetUserChats
| GetChatMessages (chatId : Z)
| SearchUsers (query : string)
| GetUserProfile
| UpdateProfile (formData : Js.FormData).

(** The store a request leaves behind; the four queries write nothing. *)
Definition perform (currentUser : option AuthUser.t) (now : Z) (r : Request)
    (s : Store) : Store :=
  match r with
  | Register fd => snd (registerAction fd now s)
  | Login fd => snd (loginAction fd now s)
  | Logout => snd (logoutAction currentUser now s)
  | CreatePrivateChat t => snd (createPrivateChat currentUser t now s)
  | CreateGroupChat n ms => snd (createGroupChat currentUser n ms now s)
  | SendMessage c t r => snd (sendMessage currentUser c t r now s)
  | EditMessage m t => snd (editMessage currentUser m t s)
  | DeleteMessage m => snd (deleteMessage currentUser m s)
  | UpdateProfile fd => snd (updateProfile currentUser fd s)
  | GetUserChats | GetChatMessages _ | SearchUsers _ | GetUserProfile => s
  end.

End Auth.

(** ** Invariants of the store and notions of the specification *)

(** The (chat, user) pairs of the membership relation, one per row. *)
Definition memberPairs (s : Store) : list (Z * Z) :=
  map (fun m => (ChatMember.chatId m, ChatMember.userId m)) (chatMembers s).

(** The foreign key [chat_members.chat_id -> chats.id] of the schema: every
    membership row names a chat that has a row. *)
Definition foreignKeysHold (s : Store) : bool :=
  forallb
    (fun m => existsb (fun c => Chat.id c =? ChatMember.chatId m) (chats s))
    (chatMembers s).

(** The unique index on [users.username], read on row identifiers. *)
Definition usernamesUnique (s : Store) : bool :=
  forallb
    (fun v =>
       forallb
         (fun w =>
            implb (String.eqb (User.username v) (User.username w))
              (User.id v =? User.id w))
         (users s))
    (users s).

(** The session still carries the username the store holds for its user. *)
Definition sessionCurrent (cu : AuthUser.t) (s : Store) : bool :=
  forallb
    (fun u =>
       implb (User.id u =? AuthUser.id cu)
         (String.eqb (User.username u) (AuthUser.username cu)))
    (users s).

(** Every message row carries its deleted flag and a creation time other
    than the epoch, as rows stamped by the defaults of the schema do at any
    time of the clock but 1970-01-01T00:00:00Z. *)
Definition messagesStamped (s : Store) : bool :=
  forallb
    (fun m =>
       match Message.isDeleted m, Message.createdAt m with
       | Some _, Some t => negb (t =? 0)
       | _, _ => false
       end)
    (messages s).

(** In the words of the specification: the creation times of the
    non-deleted messages of a chat, the most recent of them, and the
    timestamp a chat is ordered by (in milliseconds). *)
Definition nonDeleted (m : Message.row) : bool :=
  match Message.isDeleted m with
  | Some true => false
  | _ => true
  end.

Definition liveTimes (s : Store) (c : Z) : list Z :=
  flat_map
    (fun m => match Message.createdAt m with Some t => [t] | None => [] end)
    (filter (fun m => (Message.chatId m =? c) && nonDeleted m) (messages s)).

Definition latest (ts : list Z) : option Z :=
  match ts with
  | [] => None
  | t :: r => Some (fold_right Z.max t r)
  end.

Definition activityTime (s : Store) (c : Z) (created : option Z) : Z :=
  match latest (liveTimes s c) with
  | Some t => Js.getTime t
  | None =>
      match created with
      | Some t => Js.getTime t
      | None => 0
      end
  end.

Definition activity (s : Store) (a : ChatSummary.t) : Z :=
  activityTime s (ChatSummary.id a) (ChatSummary.createdAt a).

(** The chats of a user that have a row, one entry per membership row. *)
Definition chatsOf (s : Store) (uid : Z) : list Z :=
  filter (fun c => existsb (fun ch => Chat.id ch =? c) (chats s))
    (chatIdsOf s uid).

(** In the words of the specification: [c] is a chat of type private with
    exactly two members, one of whom is the target, among the memberships of
    the requester. *)
Definition SharedPrivateChat (s : Store) (requester target c : Z) : Prop :=
  In c (chatIdsOf s requester)
  /\ (exists ch, In ch (chats s) /\ Chat.id ch = c /\ Chat.type ch = private)
  /\ List.length (membersOf s c) = 2%nat
  /\ (exists m, In m (membersOf s c) /\ ChatMember.userId m = target).

(** The requests under which the membership relation stays free of
    repeated pairs: a private chat with somebody else, a group whose listed
    members are distinct and do not include the requester. *)
Definition admissible (currentUser : option AuthUser.t) (r : Request) : Prop :=
  match currentUser, r with
  | Some cu, CreatePrivateChat t => t <> AuthUser.id cu
  | Some cu, CreateGroupChat _ ms => NoDup ms /\ ~ In (AuthUser.id cu) ms
  | _, _ => True
  end.

(** The bio the store holds for a user. *)
Definition storedBio (s : Store) (uid : Z) : option (option string) :=
  option_map User.bio (find (fun u => User.id u =? uid) (users s)).

(** ** A small populated store *)

Module Demo.

Definition alice : AuthUser.t := AuthUser.mk 1 "alice" "Alice" "+100".
Definition bob : AuthUser.t := AuthUser.mk 2 "bob" "Bob" "+200".
Definition carol : AuthUser.t := AuthUser.mk 3 "carol" "Carol" "+300".
Definition dave : AuthUser.t := AuthUser.mk 4 "dave" "Dave" "+400".

Definition userRows : list User.row :=
  [ User.mk 1 "alice" "+100" "$2a$10$a" "Alice" (Some "I like tea") None
      (Some 10) (Some true) (Some 10);
    User.mk 2 "bob" "+200" "$2a$10$b" "Bob" (Some "") None
      (Some 11) (Some false) (Some 11);
    User.mk 3 "carol" "+300" "$2a$10$c" "Carol" (Some "") None
      (Some 12) (Some false) (Some 12);
    User.mk 4 "dave" "+400" "$2a$10$d" "Dave" (Some "") None
      (Some 13) (Some false) (Some 13) ]%string.

Definition chatRows : list Chat.row :=
  [ Chat.mk 1 private None None None (Some 1) (Some 100);
    Chat.mk 2 group (Some "team"%string) None None (Some 1) (Some 50);
    Chat.mk 3 private None None None (Some 1) (Some 200) ].

Definition memberRows : list ChatMember.row :=
  [ ChatMember.mk 1 1 1 member (Some 100);
    ChatMember.mk 2 1 2 member (Some 100);
    ChatMember.mk 3 2 1 owner (Some 50);
    ChatMember.mk 4 2 2 member (Some 50);
    ChatMember.mk 5 2 3 member (Some 50);
    ChatMember.mk 6 3 1 member (Some 200);
    ChatMember.mk 7 3 3 member (Some 200) ].

Definition hi : Message.row :=
  Message.mk 1 1 1 (Some "hi"%string) None (Some false) (Some false) (Some 110).

Definition messageRows : list Message.row :=
  [ hi;
    Message.mk 2 1 2 (Some "yo"%string) (Some 1) (Some false) (Some false) (Some 120);
    Message.mk 3 2 3 (Some "hello team"%string) None (Some false) (Some false) (Some 300);
    Message.mk 4 2 2 (Some "oops"%string) None (Some false) (Some true) (Some 400) ].

Definition store : Store :=
  mkStore userRows chatRows memberRows messageRows 4 3 7 4.

Definition registration (phone username displayName password : string)
    : Js.FormData :=
  [ ("phone", phone); ("username", username); ("displayName", displayName);
    ("password", password) ]%string.

Definition onlyDisplayName (displayName : string) : Js.FormData :=
  [ ("displayName"%string, displayName) ].

Definition hash (password : string) : string := ("$2a$10$" ++ password)%string.

Definition compare (password passwordHash : string) : bool :=
  String.eqb (hash password) passwordHash.

End Demo.

(** ** Further invariants of the store *)

(** The unique index on [users.phone], read on row identifiers. *)
Definition phonesUnique (s : Store) : bool :=
  forallb
    (fun v =>
       forallb
         (fun w =>
            implb (String.eqb (User.phone v) (User.phone w))
              (User.id v =? User.id w))
         (users s))
    (users s).

(** The primary keys: no identifier occurs twice in a table. *)
Definition primaryKeys (s : Store) : Prop :=
  NoDup (map User.id (users s))
  /\ NoDup (map Chat.id (chats s))
  /\ NoDup (map ChatMember.id (chatMembers s))
  /\ NoDup (map Message.id (messages s)).

(** Every stored username is in lower case. *)
Definition usernamesLower (s : Store) : bool :=
  forallb
    (fun u => String.eqb (Js.toLowerCase (User.username u)) (User.username u))
    (users s).

(** The clock reads later than every creation time the store holds for a
    chat or a message, and later than the epoch. *)
Definition allBefore (now : Z) (s : Store) : bool :=
  (0 <? now)
  && forallb
       (fun m => match Message.createdAt m with
                 | Some t => t <? now
                 | None => true
                 end) (messages s)
  && forallb
       (fun c => match Chat.createdAt c with
                 | Some t => t <? now
                 | None => true
                 end) (chats s).

(** ** Substrings without regard to ASCII case *)

Module Text.

Definition sameLetter (c d : ascii) : bool :=
  Ascii.eqb (Sql.upperAscii c) (Sql.upperAscii d).

(** [q] is a prefix of [t], letter case aside. *)
Fixpoint prefixCI (q t : string) : bool :=
  match q, t with
  | EmptyString, _ => true
  | String _ _, EmptyString => false
  | String c q', String d t' => sameLetter c d && prefixCI q' t'
  end.

(** [q] occurs in [t], letter case aside. *)
Fixpoint containsCI (q t : string) : bool :=
  prefixCI q t
  || match t with
     | EmptyString => false
     | String _ t' => containsCI q t'
     end.

(** A query without the two wildcards of LIKE. *)
Definition plain (q : string) : bool :=
  Js.allChars
    (fun c => negb (Ascii.eqb c "%"%char) && negb (Ascii.eqb c "_"%char)) q.

End Text.

(** ** The client: the pure parts of the chat component *)

Module Ui.

(** [Avatar]: the palette and the index the name selects in it,
    the sum of the character codes of [name], reduced from 0, modulo
    [colors.length]. *)
Definition colors : list string :=
  [ "#5288c1"; "#e17076"; "#7bc862"; "#e5c441";
    "#65aadd"; "#ee7aae"; "#6ec9cb"; "#faa774" ]%string.

Fixpoint charCodeSum (acc : Z) (name : string) : Z :=
  match name with
  | EmptyString => acc
  | String c r => charCodeSum (acc + Z.of_N (N_of_ascii c)) r
  end.

Definition colorIndex (name : string) : Z :=
  charCodeSum 0 name mod Z.of_nat (List.length colors).

(** [colors[colorIndex]] *)
Definition avatarColor (name : string) : option string :=
  nth_error colors (Z.to_nat (colorIndex name)).

(** [NewGroupModal.toggleUser]: the update it passes to
    [setSelectedUsers]. *)
Definition toggleUser (prev : list SearchUser.t) (user : SearchUser.t)
    : list SearchUser.t :=
  match find (fun u => SearchUser.id u =? SearchUser.id user) prev with
  | Some _ => filter (fun u => negb (SearchUser.id u =? SearchUser.id user)) prev
  | None => prev ++ [user]
  end.

(** [NewGroupModal.handleCreate]: the request it sends, if any. *)
Definition handleCreate (groupName : string) (selectedUsers : list SearchUser.t)
    : option Request :=
  if isEmpty (Js.trim groupName) || (List.length selectedUsers =? 0)%nat
  then None
  else Some (CreateGroupChat groupName (map SearchUser.id selectedUsers)).

(** [String.prototype.slice(0, n)] *)
Definition slice0 (n : nat) (s : string) : string := String.substring 0 n s.

(** The body shown for a message:
    [msg.isDeleted ? "Message deleted" : msg.text]; a [null] text shows
    nothing. *)
Definition messageBody (msg : MessageView.t) : string :=
  match MessageView.isDeleted msg with
  | Some true => "Message deleted"%string
  | _ => match MessageView.text msg with Some t => t | None => EmptyString end
  end.

(** The quotation shown above a reply:
    [messages.find(m => m.id === replyToId)?.text?.slice(0, 50) || "..."]. *)
Definition replyPreview (messages : list MessageView.t) (replyToId : Z) : string :=
  Js.orElse
    (match find (fun m => MessageView.id m =? replyToId) messages with
     | Some m => option_map (slice0 50) (MessageView.text m)
     | None => None
     end)
    "...".

(** The line under a chat in the list:
    [chat.lastMessage?.text || "No messages yet"]. *)
Definition listPreview (chat : ChatSummary.t) : string :=
  Js.orElse
    (match ChatSummary.lastMessage chat with
     | Some m => Message.text m
     | None => None
     end)
    "No messages yet".

(** [formatDate], with the two locale formatters taken as given; [now] and
    [date] are [getTime()] readings in milliseconds. *)
Definition formatDate (weekday monthDay : Z -> string) (now : Z)
    (date : option Z) : string :=
  match date with
  | None => EmptyString
  | Some d =>
      let diff := now - d in
      let days := diff / (1000 * 60 * 60 * 24) in
      if days =? 0 then "Today"%string
      else if days =? 1 then "Yesterday"%string
      else if days <? 7 then weekday d
      else monthDay d
  end.

End Ui.

(** ** The session cookie of [src/lib/auth.ts] and the two pages *)

Module Auth.

(** The cookie store of a request: the cookies by name.  The attributes
    [setAuthCookie] adds (http-only, same-site, path, 30 days of life) do not
    bear on what is read back and are left out. *)
Definition CookieStore := list (string * string).

Definition isAuthToken (cookie : string * string) : bool :=
  String.eqb (fst cookie) "auth-token".

(** [cookieStore.set("auth-token", token, ...)] replaces the cookie of that
    name. *)
Definition setAuthCookie (token : string) (cookies : CookieStore) : CookieStore :=
  ("auth-token"%string, token) :: filter (fun c => negb (isAuthToken c)) cookies.

(** [cookieStore.delete("auth-token")] *)
Definition removeAuthCookie (cookies : CookieStore) : CookieStore :=
  filter (fun c => negb (isAuthToken c)) cookies.

(** [jose] is taken as given: [sign] is the token [createToken] builds for
    the claims, [jwtVerify] the payload of a token whose signature and expiry
    check, nothing when the check throws. *)
Section Tokens.
Variable sign : AuthUser.t -> string.
Variable jwtVerify : string -> option AuthUser.t.

Definition createToken (user : AuthUser.t) : string := sign user.

Definition verifyToken (token : string) : option AuthUser.t := jwtVerify token.

Definition getCurrentUser (cookies : CookieStore) : option AuthUser.t :=
  match Js.get cookies "auth-token" with
  | Some token => if isEmpty token then None else verifyToken token
  | None => None
  end.

(** What a redirecting action did to the cookie store before it redirected:
    [setAuthCookie(await createToken(claims))] or [removeAuthCookie()]. *)
Definition afterAction (cookie : option AuthUser.t) (cookies : CookieStore)
    : CookieStore :=
  match cookie with
  | Some claims => setAuthCookie (createToken claims) cookies
  | None => removeAuthCookie cookies
  end.

End Tokens.

(** What a page does with the current user: it redirects or it renders a
    component. *)
Inductive Page :=
| RedirectTo (path : string)
| Render (component : string).

(** [Home] of [src/app/page.tsx] *)
Definition Home (user : option AuthUser.t) : Page :=
  match user with
  | Some _ => RedirectTo "/chat"
  | None => Render "AuthPage"
  end.

(** [ChatPage] of [src/app/chat/page.tsx] *)
Definition ChatPage (user : option AuthUser.t) : Page :=
  match user with
  | None => RedirectTo "/"
  | Some _ => Render "ChatApp"
  end.

(** A token-free stand-in for [jose], for examples: the token is the
    username after a fixed header. *)
Definition toySign (user : AuthUser.t) : string :=
  ("jwt." ++ AuthUser.username user)%string.

Definition toyVerify (token : string) : option AuthUser.t :=
  if String.eqb token (toySign Demo.alice) then Some Demo.alice
  else if String.eqb token (toySign Demo.bob) then Some Demo.bob
  else None.

End Auth.

(** ** Proof steps that recur *)

(** Case analysis on the scrutinee of a [match] of the goal. *)
Ltac break_match :=
  match goal with
  | |- context [match ?x with _ => _ end] => destruct x eqn:?
  end.

(** The same on the scrutinee of a [match] of a hypothesis. *)
Ltac break_match_in H :=
  match type of H with
  | context [match ?x with _ => _ end] => destruct x eqn:?
  end.

(** A list of distinct closed pairs or numbers has no repetition. *)
Ltac nodup_concrete :=
  repeat (constructor; [simpl; intuition discriminate|]); constructor.


(** * Properties of the actions *)

(** ** The stable sort *)

Section SortFacts.
Context {A : Type} (before : A -> A -> bool).
Hypothesis before_total : forall a b, before a b = true \/ before b a = true.
Hypothesis before_trans :
  forall a b c, before a b = true -> before b c = true -> before a c = true.

Lemma insert_perm (x : A) (l : list A) :
  Permutation (Js.insert before x l) (x :: l).
Proof.
  induction l as [|y r IH]; simpl.
  - apply Permutation_refl.
  - destruct (before x y).
    + apply Permutation_refl.
    + eapply perm_trans; [apply perm_skip, IH | apply perm_swap].
Qed.

Lemma stableSort_perm (l : list A) : Permutation (Js.stableSort before l) l.
Proof.
  induction l as [|x r IH]; simpl.
  - constructor.
  - eapply perm_trans; [apply insert_perm | apply perm_skip, IH].
Qed.

Lemma insert_sorted (x : A) (l : list A) :
  StronglySorted (fun a b => before a b = true) l ->
  StronglySorted (fun a b => before a b = true) (Js.insert before x l).
Proof.
  induction l as [|y r IH]; simpl; intros Hs.
  - constructor; constructor.
  - apply StronglySorted_inv in Hs. destruct Hs as [Hr Hy].
    destruct (before x y) eqn:Hxy.
    + constructor.
      * constructor; assumption.
      * constructor; [assumption|].
        rewrite Forall_forall in Hy |- *.
        intros z Hz. eapply before_trans; [exact Hxy | apply Hy, Hz].
    + constructor.
      * apply IH, Hr.
      * assert (Hyx : before y x = true).
        { destruct (before_total x y) as [H|H]; [congruence | exact H]. }
        rewrite Forall_forall in Hy |- *.
        intros z Hz.
        apply (Permutation_in _ (insert_perm x r)) in Hz.
        destruct Hz as [<-|Hz]; [exact Hyx | apply Hy, Hz].
Qed.

Lemma stableSort_sorted (l : list A) :
  StronglySorted (fun a b => before a b = true) (Js.stableSort before l).
Proof.
  induction l as [|x r IH]; simpl.
  - constructor.
  - apply insert_sorted, IH.
Qed.

End SortFacts.

Lemma nullLeb_total (a b : option Z) :
  Sql.nullLeb a b = true \/ Sql.nullLeb b a = true.
Proof.
  destruct a as [x|], b as [y|]; simpl; auto.
  destruct (Z.leb_spec x y); [left; reflexivity | right; apply Z.leb_le; lia].
Qed.

Lemma nullLeb_trans (a b c : option Z) :
  Sql.nullLeb a b = true -> Sql.nullLeb b c = true -> Sql.nullLeb a c = true.
Proof.
  destruct a as [x|], b as [y|], c as [z|]; simpl; try congruence.
  rewrite !Z.leb_le. lia.
Qed.

Lemma orderBy_perm {A : Type} (key : A -> option Z) (rows : list A) :
  Permutation (Sql.orderBy key rows) rows.
Proof. apply stableSort_perm. Qed.

Lemma orderByDesc_perm {A : Type} (key : A -> option Z) (rows : list A) :
  Permutation (Sql.orderByDesc key rows) rows.
Proof. apply stableSort_perm. Qed.

Lemma orderByDesc_sorted {A : Type} (key : A -> option Z) (rows : list A) :
  StronglySorted (fun a b => Sql.nullLeb (key b) (key a) = true)
    (Sql.orderByDesc key rows).
Proof.
  unfold Sql.orderByDesc.
  apply (stableSort_sorted (fun a b => Sql.nullLeb (key b) (key a))).
  - intros a b. destruct (nullLeb_total (key a) (key b)); auto.
  - intros a b c H1 H2. eapply nullLeb_trans; eassumption.
Qed.

(** ** Lists *)

Lemma filter_flat_map {A B : Type} (p : B -> bool) (f : A -> list B)
    (l : list A) :
  filter p (flat_map f l) = flat_map (fun x => filter p (f x)) l.
Proof.
  induction l as [|x r IH]; simpl; [reflexivity|].
  rewrite filter_app, IH. reflexivity.
Qed.

Lemma filter_map_comm {A B : Type} (p : B -> bool) (f : A -> B) (l : list A) :
  filter p (map f l) = map f (filter (fun x => p (f x)) l).
Proof.
  induction l as [|x r IH]; simpl; [reflexivity|].
  destruct (p (f x)); simpl; rewrite IH; reflexivity.
Qed.

Lemma flat_map_filter {A B : Type} (p : A -> bool) (f : A -> list B)
    (l : list A) :
  flat_map f (filter p l) = flat_map (fun x => if p x then f x else []) l.
Proof.
  induction l as [|x r IH]; simpl; [reflexivity|].
  destruct (p x); simpl; rewrite IH; reflexivity.
Qed.

Lemma flat_map_agree {A B : Type} (f g : A -> list B) (l : list A) :
  (forall x, In x l -> f x = g x) -> flat_map f l = flat_map g l.
Proof.
  induction l as [|x r IH]; simpl; intros H; [reflexivity|].
  rewrite (H x) by (left; reflexivity).
  rewrite IH by (intros y Hy; apply H; right; exact Hy). reflexivity.
Qed.

Lemma filter_all_false {A : Type} (p : A -> bool) (l : list A) :
  (forall x, In x l -> p x = false) -> filter p l = [].
Proof.
  induction l as [|x r IH]; simpl; intros H; [reflexivity|].
  rewrite (H x) by (left; reflexivity).
  apply IH. intros y Hy. apply H. right. exact Hy.
Qed.

Lemma maxId_ge (ids : list Z) (x : Z) : In x ids -> x <= Sql.maxId ids.
Proof.
  induction ids as [|y r IH]; simpl; intros H; [contradiction|].
  destruct H as [->|H]; [lia|]. specialize (IH H). lia.
Qed.

Lemma nextRowid_fresh (seq : Z) (ids : list Z) :
  ~ In (Sql.nextRowid seq ids) ids.
Proof.
  intros H. apply maxId_ge in H. unfold Sql.nextRowid in H. lia.
Qed.

(** ** Search *)

(** C7. For every authenticated requester, every query and every store, the
    list [searchUsers] returns has at most 20 rows and none of them carries
    the requester's own identifier. *)
Theorem searchUsers_excludes_requester_and_caps :
  forall (cu : AuthUser.t) (query : string) (s : Store),
    (List.length (searchUsers (Some cu) query s) <= 20)%nat
    /\ ~ In (AuthUser.id cu) (map SearchUser.id (searchUsers (Some cu) query s)).
Proof.
  intros cu query s. unfold searchUsers.
  destruct (isEmpty (Js.trim query)).
  - simpl. split; [lia | tauto].
  - split.
    + eapply Nat.le_trans; [apply filter_length_le|].
      unfold Sql.limit. apply firstn_le_length.
    + rewrite in_map_iff. intros (u & Hid & Hu).
      apply filter_In in Hu. destruct Hu as [_ Hne].
      rewrite Hid, Z.eqb_refl in Hne. discriminate.
Qed.

(** ** Reading the messages of a chat *)

Lemma getChatMessages_perm (u : AuthUser.t) (c : Z) (s : Store) :
  Permutation (getChatMessages (Some u) c s)
    (joinSenders s (filter (fun m => Message.chatId m =? c) (messages s))).
Proof.
  unfold getChatMessages.
  eapply perm_trans; [apply orderBy_perm|].
  unfold joinSenders.
  rewrite filter_flat_map, flat_map_filter.
  erewrite flat_map_agree; [apply Permutation_refl|].
  intros m _. simpl.
  rewrite filter_map_comm. simpl.
  destruct (Message.chatId m =? c).
  - f_equal. clear. induction (filter _ (users s)) as [|x r IH]; simpl; congruence.
  - rewrite filter_all_false; [reflexivity | reflexivity].
Qed.

Lemma getChatMessages_In (u : AuthUser.t) (c : Z) (s : Store)
    (m : Message.row) (usr : User.row) :
  In m (messages s) -> Message.chatId m = c ->
  In usr (users s) -> User.id usr = Message.senderId m ->
  In (messageView m usr) (getChatMessages (Some u) c s).
Proof.
  intros Hm Hc Hu Hid.
  eapply Permutation_in; [apply Permutation_sym, getChatMessages_perm|].
  unfold joinSenders. apply in_flat_map. exists m. split.
  - apply filter_In. split; [exact Hm | apply Z.eqb_eq, Hc].
  - apply in_map, filter_In. split; [exact Hu|].
    apply Z.eqb_eq. symmetry. exact Hid.
Qed.

(** C10. For every two authenticated callers, member of the chat or not,
    [getChatMessages] returns the same list: the messages of the chat, each
    joined with its sender's row, in the order of creation.  Every message
    of the chat whose sender has a row is in it, whoever asks. *)
Theorem getChatMessages_ignores_membership :
  forall (u u' : AuthUser.t) (c : Z) (s : Store),
    getChatMessages (Some u) c s = getChatMessages (Some u') c s
    /\ Permutation (getChatMessages (Some u) c s)
         (joinSenders s (filter (fun m => Message.chatId m =? c) (messages s)))
    /\ (forall m usr,
           In m (messages s) -> Message.chatId m = c ->
           In usr (users s) -> User.id usr = Message.senderId m ->
           In (messageView m usr) (getChatMessages (Some u) c s)).
Proof.
  intros u u' c s. split; [reflexivity|]. split.
  - apply getChatMessages_perm.
  - intros m usr. apply getChatMessages_In.
Qed.

(** ** Editing and deleting a message *)

Lemma updateMessages_other_sender (messageId uid : Z)
    (set : Message.row -> Message.row) (s : Store) (i : nat) (M : Message.row) :
  nth_error (messages s) i = Some M ->
  Message.senderId M <> uid ->
  nth_error (messages (updateMessages messageId uid set s)) i = Some M.
Proof.
  intros Hi Hne. simpl.
  rewrite nth_error_map, Hi. simpl.
  apply Z.eqb_neq in Hne. rewrite Hne, andb_false_r. reflexivity.
Qed.

Lemma updateMessages_own (uid : Z) (set : Message.row -> Message.row)
    (s : Store) (i : nat) (M : Message.row) :
  nth_error (messages s) i = Some M ->
  Message.senderId M = uid ->
  nth_error (messages (updateMessages (Message.id M) uid set s)) i
  = Some (set M).
Proof.
  intros Hi He. simpl.
  rewrite nth_error_map, Hi. simpl.
  rewrite He, !Z.eqb_refl. reflexivity.
Qed.

(** C3. When an authenticated user who is not the sender of a message [M]
    edits it (or any message), the action answers success, not an error, and
    [M] stays in its place with every field as it was; the other tables are
    untouched. *)
Theorem editMessage_by_other_user_is_silent_noop :
  forall (e : AuthUser.t) (messageId : Z) (newText : string) (s : Store)
         (i : nat) (M : Message.row),
    nth_error (messages s) i = Some M ->
    Message.senderId M <> AuthUser.id e ->
    fst (editMessage (Some e) messageId newText s) = Payload true
    /\ nth_error (messages (snd (editMessage (Some e) messageId newText s))) i
       = Some M
    /\ users (snd (editMessage (Some e) messageId newText s)) = users s
    /\ chats (snd (editMessage (Some e) messageId newText s)) = chats s
    /\ chatMembers (snd (editMessage (Some e) messageId newText s))
       = chatMembers s.
Proof.
  intros e messageId newText s i M Hi Hne. simpl.
  split; [reflexivity|]. split; [|auto].
  apply (updateMessages_other_sender messageId (AuthUser.id e) _ s i M Hi Hne).
Qed.

Lemma editMessage_by_other_user_witness :
  nth_error (messages Demo.store) 0 = Some Demo.hi
  /\ nth_error
       (messages (snd (editMessage (Some Demo.bob) 1 "hacked" Demo.store))) 0
     = Some Demo.hi.
Proof.
  split; [reflexivity|].
  apply (editMessage_by_other_user_is_silent_noop Demo.bob 1 "hacked"
           Demo.store 0 Demo.hi).
  - reflexivity.
  - simpl. lia.
Defined.

(** ** Sending a message *)



Lemma getChatMessages_ignores_membership_witness :
  ~ In (AuthUser.id Demo.dave) (map ChatMember.userId (membersOf Demo.store 1))
  /\ In (messageView Demo.hi
           (User.mk 1 "alice" "+100" "$2a$10$a" "Alice" (Some "I like tea"%string)
              None (Some 10) (Some true) (Some 10)))
       (getChatMessages (Some Demo.dave) 1 Demo.store).
Proof.
  split.
  - simpl. intros [H|[H|[]]]; discriminate H.
  - apply (getChatMessages_ignores_membership Demo.dave Demo.alice 1 Demo.store).
    + left. reflexivity.
    + reflexivity.
    + left. reflexivity.
    + reflexivity.
Defined.



(** ** Private chats: find or create *)

Lemma isPrivateChatWith_spec (s : Store) (target c : Z) :
  isPrivateChatWith s target c = true <->
  (exists ch, In ch (chats s) /\ Chat.id ch = c /\ Chat.type ch = private)
  /\ List.length (membersOf s c) = 2%nat
  /\ (exists m, In m (membersOf s c) /\ ChatMember.userId m = target).
Proof.
  unfold isPrivateChatWith. rewrite !andb_true_iff, Nat.eqb_eq, existsb_exists.
  split.
  - intros [[Hc Hl] (m & Hm & Ht)]. split; [|split].
    + unfold privateChat in Hc.
      destruct (filter _ (chats s)) as [|ch r] eqn:Hf; [discriminate|].
      assert (Hin : In ch (filter
                (fun ch => (Chat.id ch =? c) && ChatType_eqb (Chat.type ch) private)
                (chats s))) by (rewrite Hf; left; reflexivity).
      apply filter_In in Hin. destruct Hin as [Hin Hp].
      apply andb_true_iff in Hp. destruct Hp as [Hid Hty].
      exists ch. split; [exact Hin|]. split; [apply Z.eqb_eq, Hid|].
      destruct (Chat.type ch); simpl in Hty; congruence.
    + exact Hl.
    + exists m. split; [exact Hm | apply Z.eqb_eq, Ht].
  - intros [(ch & Hin & Hid & Hty) [Hl (m & Hm & Ht)]]. split; [split|].
    + assert (Hf : In ch (privateChat s c)).
      { apply filter_In. split; [exact Hin|].
        rewrite Hid, Hty, Z.eqb_refl. reflexivity. }
      destruct (privateChat s c); [contradiction | reflexivity].
    + exact Hl.
    + exists m. split; [exact Hm | apply Z.eqb_eq, Ht].
Qed.


Lemma findPrivateChat_None (s : Store) (target : Z) (l : list Z) :
  findPrivateChat s target l = None <->
  forall c, In c l -> isPrivateChatWith s target c = false.
Proof.
  induction l as [|x r IH]; simpl.
  - split; [intros _ c [] | reflexivity].
  - destruct (isPrivateChatWith s target x) eqn:Hx.
    + split; [discriminate|]. intros H.
      rewrite (H x) in Hx by (left; reflexivity). discriminate.
    + rewrite IH. split.
      * intros H c [<-|Hc]; [exact Hx | apply H, Hc].
      * intros H c Hc. apply H. right. exact Hc.
Qed.

Lemma findPrivateChat_app (s : Store) (target : Z) (l1 l2 : list Z) :
  findPrivateChat s target l1 = None ->
  findPrivateChat s target (l1 ++ l2) = findPrivateChat s target l2.
Proof.
  induction l1 as [|x r IH]; simpl; [reflexivity|].
  destruct (isPrivateChatWith s target x); [discriminate | exact IH].
Qed.

(** Under the foreign key, the identifier [AUTOINCREMENT] gives the next
    chat is the chat of no membership row. *)
Lemma nextChat_fresh (s : Store) (m : ChatMember.row) :
  foreignKeysHold s = true ->
  In m (chatMembers s) ->
  ChatMember.chatId m <> Sql.nextRowid (seqChats s) (map Chat.id (chats s)).
Proof.
  intros Hfk Hm Heq. unfold foreignKeysHold in Hfk.
  rewrite forallb_forall in Hfk. specialize (Hfk m Hm).
  apply existsb_exists in Hfk. destruct Hfk as (ch & Hch & Hid).
  apply Z.eqb_eq in Hid.
  apply (nextRowid_fresh (seqChats s) (map Chat.id (chats s))).
  rewrite <- Heq, <- Hid. apply in_map, Hch.
Qed.

Section NewPrivateChat.
Variables (s s1 : Store) (nc : Chat.row) (m1 m2 : ChatMember.row).
Hypothesis chats_s1 : chats s1 = chats s ++ [nc].
Hypothesis members_s1 : chatMembers s1 = chatMembers s ++ [m1; m2].
Hypothesis chat_m1 : ChatMember.chatId m1 = Chat.id nc.
Hypothesis chat_m2 : ChatMember.chatId m2 = Chat.id nc.

Lemma isPrivateChatWith_old (target c : Z) :
  c <> Chat.id nc ->
  isPrivateChatWith s1 target c = isPrivateChatWith s target c.
Proof.
  intros Hc. unfold isPrivateChatWith, membersOf, privateChat.
  rewrite chats_s1, members_s1, !filter_app. simpl.
  rewrite chat_m1, chat_m2.
  assert (Hne : (Chat.id nc =? c) = false) by (apply Z.eqb_neq; congruence).
  rewrite Hne. simpl. rewrite !app_nil_r. reflexivity.
Qed.


Lemma findPrivateChat_old (target : Z) (l : list Z) :
  (forall c, In c l -> c <> Chat.id nc) ->
  findPrivateChat s1 target l = findPrivateChat s target l.
Proof.
  induction l as [|x r IH]; simpl; intros Hl; [reflexivity|].
  rewrite isPrivateChatWith_old by (apply Hl; left; reflexivity).
  rewrite IH by (intros c Hc; apply Hl; right; exact Hc). reflexivity.
Qed.

End NewPrivateChat.

Lemma chatIdsOf_In (s : Store) (uid c : Z) :
  In c (chatIdsOf s uid) ->
  exists m, In m (chatMembers s) /\ ChatMember.chatId m = c.
Proof.
  unfold chatIdsOf. rewrite in_map_iff. intros (m & Hc & Hm).
  apply filter_In in Hm. exists m. tauto.
Qed.




(** ** The membership relation *)

Lemma insertChatMembers_frame (values : list (Z * Z * Role)) (now : Z)
    (s : Store) :
  users (insertChatMembers values now s) = users s
  /\ chats (insertChatMembers values now s) = chats s
  /\ messages (insertChatMembers values now s) = messages s
  /\ memberPairs (insertChatMembers values now s)
     = memberPairs s ++ map (fun v => (fst (fst v), snd (fst v))) values.
Proof.
  unfold insertChatMembers. revert s.
  induction values as [|[[c u] r] rest IH]; intros s; cbn [fold_left map].
  - rewrite app_nil_r. auto.
  - destruct (IH (insertChatMember now s (c, u, r))) as (Hu & Hc & Hm & Hp).
    rewrite Hu, Hc, Hm, Hp. repeat split.
    unfold memberPairs. simpl. rewrite map_app, <- app_assoc. reflexivity.
Qed.

Lemma mapFrom_pairs (c : Z) (role : nat -> Role) (i : nat) (l : list Z) :
  map (fun v : Z * Z * Role => (fst (fst v), snd (fst v)))
    (mapFrom i (fun userId j => (c, userId, role j)) l)
  = map (pair c) l.
Proof.
  revert i. induction l as [|x r IH]; intros i; simpl; [reflexivity|].
  rewrite IH. reflexivity.
Qed.

Lemma foreignKeysHold_pairs (s : Store) :
  foreignKeysHold s = true <->
  forall p, In p (memberPairs s) -> In (fst p) (map Chat.id (chats s)).
Proof.
  unfold foreignKeysHold, memberPairs. rewrite forallb_forall. split.
  - intros H p Hp. apply in_map_iff in Hp. destruct Hp as (m & <- & Hm).
    specialize (H m Hm). apply existsb_exists in H.
    destruct H as (ch & Hch & Hid). apply Z.eqb_eq in Hid. simpl.
    rewrite <- Hid. apply in_map, Hch.
  - intros H m Hm. apply existsb_exists.
    assert (Hp : In (ChatMember.chatId m, ChatMember.userId m)
                   (map (fun m => (ChatMember.chatId m, ChatMember.userId m))
                      (chatMembers s))).
    { apply in_map_iff. exists m. split; [reflexivity | exact Hm]. }
    apply H in Hp. simpl in Hp. apply in_map_iff in Hp.
    destruct Hp as (ch & Hid & Hch).
    exists ch. split; [exact Hch | apply Z.eqb_eq, Hid].
Qed.

(** A request that writes neither [chats] nor [chat_members] keeps both
    invariants. *)
Lemma invariants_frame (s s' : Store) :
  chats s' = chats s -> chatMembers s' = chatMembers s ->
  foreignKeysHold s = true -> NoDup (memberPairs s) ->
  NoDup (memberPairs s') /\ foreignKeysHold s' = true.
Proof.
  intros Hc Hm Hfk Hnd. unfold foreignKeysHold, memberPairs in *.
  rewrite Hc, Hm. split; assumption.
Qed.

Lemma NoDup_map_pair (c : Z) (l : list Z) : NoDup l -> NoDup (map (pair c) l).
Proof.
  induction 1 as [|x r Hx Hr IH]; simpl; constructor; [|exact IH].
  rewrite in_map_iff. intros (y & [= ->] & Hy). exact (Hx Hy).
Qed.

(** A new chat with one membership row per listed user keeps both
    invariants when the listed users are distinct. *)
Lemma invariants_new_chat (s s' : Store) (nc : Chat.row) (l : list Z) :
  chats s' = chats s ++ [nc] ->
  memberPairs s' = memberPairs s ++ map (pair (Chat.id nc)) l ->
  Chat.id nc = Sql.nextRowid (seqChats s) (map Chat.id (chats s)) ->
  NoDup l ->
  foreignKeysHold s = true -> NoDup (memberPairs s) ->
  NoDup (memberPairs s') /\ foreignKeysHold s' = true.
Proof.
  intros Hc Hp Hid Hl Hfk Hnd. split.
  - rewrite Hp. apply NoDup_app.
    + exact Hnd.
    + apply NoDup_map_pair, Hl.
    + intros p Hold Hnew. apply in_map_iff in Hnew.
      destruct Hnew as (u & <- & _).
      rewrite foreignKeysHold_pairs in Hfk. specialize (Hfk _ Hold).
      simpl in Hfk. rewrite Hid in Hfk.
      exact (nextRowid_fresh _ _ Hfk).
  - apply foreignKeysHold_pairs. intros p Hin. rewrite Hc, map_app.
    apply in_or_app. rewrite Hp in Hin. apply in_app_or in Hin.
    destruct Hin as [Hold|Hnew].
    + left. rewrite foreignKeysHold_pairs in Hfk. apply Hfk, Hold.
    + right. apply in_map_iff in Hnew. destruct Hnew as (u & <- & _).
      left. reflexivity.
Qed.

Lemma createGroupChat_rows (u : AuthUser.t) (name : string) (ms : list Z)
    (now : Z) (s : Store) :
  let c := Sql.nextRowid (seqChats s) (map Chat.id (chats s)) in
  fst (createGroupChat (Some u) name ms now s) = Payload c
  /\ chats (snd (createGroupChat (Some u) name ms now s))
     = chats s ++ [Chat.mk c group (Some name) None None (Some (AuthUser.id u))
                     (Some now)]
  /\ memberPairs (snd (createGroupChat (Some u) name ms now s))
     = memberPairs s ++ map (pair c) (AuthUser.id u :: ms).
Proof.
  intros c. unfold createGroupChat.
  cbn [insertChat fst snd Chat.id]. fold c.
  match goal with
  | |- context [insertChatMembers ?v now ?s0] =>
      destruct (insertChatMembers_frame v now s0) as (_ & Hc & _ & Hp);
      rewrite Hc, Hp
  end.
  split; [reflexivity|]. split; [reflexivity|].
  rewrite (mapFrom_pairs c (fun i => if (i =? 0)%nat then owner else member)).
  reflexivity.
Qed.

Lemma createPrivateChat_rows (u : AuthUser.t) (target now : Z) (s : Store) :
  let c := Sql.nextRowid (seqChats s) (map Chat.id (chats s)) in
  snd (createPrivateChat (Some u) target now s) = s
  \/ chats (snd (createPrivateChat (Some u) target now s))
     = chats s ++ [Chat.mk c private None None None (Some (AuthUser.id u))
                     (Some now)]
     /\ memberPairs (snd (createPrivateChat (Some u) target now s))
        = memberPairs s ++ map (pair c) [AuthUser.id u; target].
Proof.
  intros c. unfold createPrivateChat.
  destruct (findPrivateChat s target (chatIdsOf s (AuthUser.id u))).
  - left. reflexivity.
  - right. cbn [insertChat fst snd Chat.id]. fold c.
    match goal with
    | |- context [insertChatMembers ?v now ?s0] =>
        destruct (insertChatMembers_frame v now s0) as (_ & Hc & _ & Hp);
        rewrite Hc, Hp
    end.
    split; reflexivity.
Qed.

Lemma insertUser_frame (phone username displayName passwordHash : string)
    (now : Z) (s s1 : Store) (u : User.row) :
  insertUser phone username displayName passwordHash now s = Some (u, s1) ->
  chats s1 = chats s /\ chatMembers s1 = chatMembers s.
Proof.
  unfold insertUser. destruct (existsb _ (users s)); [discriminate|].
  intros [= _ <-]. split; reflexivity.
Qed.

Lemma setProfile_frame (uid : Z) (displayName bio username : string)
    (s s1 : Store) :
  setProfile uid displayName bio username s = Some s1 ->
  chats s1 = chats s /\ chatMembers s1 = chatMembers s.
Proof.
  unfold setProfile. destruct (_ && _); [discriminate|].
  intros [= <-]. split; reflexivity.
Qed.

Lemma registerAction_frame (bcryptHash : string -> string)
    (formData : Js.FormData) (now : Z) (s : Store) :
  chats (snd (registerAction bcryptHash formData now s)) = chats s
  /\ chatMembers (snd (registerAction bcryptHash formData now s)) = chatMembers s.
Proof.
  unfold registerAction. repeat break_match; simpl; auto.
  eapply insertUser_frame; eassumption.
Qed.

Lemma loginAction_frame (bcryptCompare : string -> string -> bool)
    (formData : Js.FormData) (now : Z) (s : Store) :
  chats (snd (loginAction bcryptCompare formData now s)) = chats s
  /\ chatMembers (snd (loginAction bcryptCompare formData now s)) = chatMembers s.
Proof.
  unfold loginAction. repeat break_match; simpl; auto.
Qed.

Lemma updateProfile_frame (currentUser : option AuthUser.t)
    (formData : Js.FormData) (s : Store) :
  chats (snd (updateProfile currentUser formData s)) = chats s
  /\ chatMembers (snd (updateProfile currentUser formData s)) = chatMembers s.
Proof.
  unfold updateProfile. repeat break_match; simpl; auto.
  eapply setProfile_frame; eassumption.
Qed.

Lemma perform_frame (bcryptHash : string -> string)
    (bcryptCompare : string -> string -> bool)
    (currentUser : option AuthUser.t) (now : Z) (r : Request) (s : Store) :
  match r with
  | CreatePrivateChat _ | CreateGroupChat _ _ => False
  | _ => True
  end ->
  chats (perform bcryptHash bcryptCompare currentUser now r s) = chats s
  /\ chatMembers (perform bcryptHash bcryptCompare currentUser now r s)
     = chatMembers s.
Proof.
  destruct r; intros Hr; try contradiction; cbn [perform]; auto.
  - apply registerAction_frame.
  - apply loginAction_frame.
  - destruct currentUser; simpl; auto.
  - unfold sendMessage, insertMessage. repeat break_match; simpl; auto.
  - destruct currentUser; simpl; auto.
  - destruct currentUser; simpl; auto.
  - apply updateProfile_frame.
Qed.

Lemma perform_invariants (bcryptHash : string -> string)
    (bcryptCompare : string -> string -> bool)
    (currentUser : option AuthUser.t) (now : Z) (r : Request) (s : Store) :
  foreignKeysHold s = true ->
  NoDup (memberPairs s) ->
  admissible currentUser r ->
  NoDup (memberPairs (perform bcryptHash bcryptCompare currentUser now r s))
  /\ foreignKeysHold (perform bcryptHash bcryptCompare currentUser now r s) = true.
Proof.
  intros Hfk Hnd Hadm.
  destruct r as [fd|fd| |targetUserId|name memberIds|c t rp|mid t|mid| |c|q| |fd];
    try (match goal with
         | |- context [perform _ _ _ _ ?r _] =>
             destruct (perform_frame bcryptHash bcryptCompare currentUser now
                         r s I) as [Hc Hm]
         end;
         apply (invariants_frame s _ Hc Hm Hfk Hnd)).
  - (* createPrivateChat *)
    cbn [perform]. destruct currentUser as [u|].
    + destruct (createPrivateChat_rows u targetUserId now s) as [Hs|[Hc Hp]].
      * rewrite Hs. split; assumption.
      * eapply invariants_new_chat; try eassumption; try reflexivity.
        simpl in Hadm. constructor.
        -- intros [H|[]]. apply Hadm. exact H.
        -- constructor; [intros [] | constructor].
    + simpl. split; assumption.
  - (* createGroupChat *)
    cbn [perform]. destruct currentUser as [u|].
    + destruct (createGroupChat_rows u name memberIds now s) as (_ & Hc & Hp).
      eapply invariants_new_chat; try eassumption; try reflexivity.
      simpl in Hadm. destruct Hadm as [Hms Hu].
      constructor; assumption.
    + simpl. split; assumption.
Qed.

(** The foreign key is kept by every request, whatever its arguments. *)
Lemma perform_keeps_foreign_keys (bcryptHash : string -> string)
    (bcryptCompare : string -> string -> bool)
    (currentUser : option AuthUser.t) (now : Z) (r : Request) (s : Store) :
  foreignKeysHold s = true ->
  foreignKeysHold (perform bcryptHash bcryptCompare currentUser now r s) = true.
Proof.
  intros Hfk.
  assert (Hnew : forall s' nc l,
             chats s' = chats s ++ [nc] ->
             memberPairs s' = memberPairs s ++ map (pair (Chat.id nc)) l ->
             foreignKeysHold s' = true).
  { intros s' nc l Hc Hp. apply foreignKeysHold_pairs. intros p Hin.
    rewrite Hc, map_app. apply in_or_app. rewrite Hp in Hin.
    apply in_app_or in Hin. destruct Hin as [Hold|Hin].
    - left. rewrite foreignKeysHold_pairs in Hfk. apply Hfk, Hold.
    - right. apply in_map_iff in Hin. destruct Hin as (u & <- & _).
      left. reflexivity. }
  destruct r as [fd|fd| |targetUserId|name memberIds|c t rp|mid t|mid| |c|q| |fd];
    try (match goal with
         | |- context [perform _ _ _ _ ?r _] =>
             destruct (perform_frame bcryptHash bcryptCompare currentUser now
                         r s I) as [Hc Hm]
         end;
         unfold foreignKeysHold in *; rewrite Hc, Hm; exact Hfk).
  - cbn [perform]. destruct currentUser as [u|]; [|exact Hfk].
    destruct (createPrivateChat_rows u targetUserId now s) as [Hs|[Hc Hp]].
    + rewrite Hs. exact Hfk.
    + eapply Hnew; eassumption.
  - cbn [perform]. destruct currentUser as [u|]; [|exact Hfk].
    destruct (createGroupChat_rows u name memberIds now s) as (_ & Hc & Hp).
    eapply Hnew; eassumption.
Qed.




(** ** Profile *)

(** C8 as stated fails: an update that supplies only a display name does
    not leave the stored bio as it was, it replaces it by the empty
    string. *)
Lemma updateProfile_omitted_bio_is_cleared :
  Js.get (Demo.onlyDisplayName "Al") "bio" = None
  /\ fst (updateProfile (Some Demo.alice) (Demo.onlyDisplayName "Al") Demo.store)
     = Payload true
  /\ storedBio Demo.store 1 = Some (Some "I like tea"%string)
  /\ storedBio
       (snd (updateProfile (Some Demo.alice) (Demo.onlyDisplayName "Al")
               Demo.store)) 1
     = Some (Some EmptyString)
  /\ storedBio
       (snd (updateProfile (Some Demo.alice) (Demo.onlyDisplayName "Al")
               Demo.store)) 1
     <> storedBio Demo.store 1.
Proof.
  repeat split; try reflexivity. discriminate.
Qed.

Lemma setProfile_no_conflict (cu : AuthUser.t) (s : Store) :
  usernamesUnique s = true ->
  sessionCurrent cu s = true ->
  existsb (fun u => User.id u =? AuthUser.id cu) (users s)
  && existsb (fun v => negb (User.id v =? AuthUser.id cu)
                       && String.eqb (User.username v) (AuthUser.username cu))
       (users s)
  = false.
Proof.
  intros Huniq Hcur. apply not_true_is_false. intros H.
  apply andb_true_iff in H. destruct H as [Hu Hv].
  apply existsb_exists in Hu. destruct Hu as (u & Hu & Hid).
  apply existsb_exists in Hv. destruct Hv as (v & Hv & Hc).
  apply andb_true_iff in Hc. destruct Hc as [Hne Hname].
  unfold sessionCurrent in Hcur. rewrite forallb_forall in Hcur.
  specialize (Hcur u Hu). rewrite Hid in Hcur. simpl in Hcur.
  apply String.eqb_eq in Hcur, Hname.
  unfold usernamesUnique in Huniq. rewrite forallb_forall in Huniq.
  specialize (Huniq v Hv). rewrite forallb_forall in Huniq.
  specialize (Huniq u Hu).
  rewrite Hname, Hcur, String.eqb_refl in Huniq. simpl in Huniq.
  apply Z.eqb_eq in Huniq, Hid. rewrite Huniq, Hid, Z.eqb_refl in Hne.
  discriminate.
Qed.

(** C8, as the code has it.  [updateProfile] answers the validation error
    and writes nothing when the display name is missing or empty.  An update
    that supplies only a display name, made with a session that carries the
    stored username, succeeds: the row of the user keeps its username, takes
    the new display name, and its bio becomes the empty string; every other
    column, every other row and every other table stays as it was. *)
Theorem updateProfile_requires_display_name_and_resets_bio :
  forall (cu : AuthUser.t) (formData : Js.FormData) (s : Store),
    (Js.truthy (Js.get formData "displayName") = false ->
     updateProfile (Some cu) formData s
     = (ErrorReply "Display name is required", s))
    /\ (forall d,
           Js.get formData "displayName" = Some d ->
           d <> EmptyString ->
           Js.get formData "bio" = None ->
           Js.get formData "username" = None ->
           usernamesUnique s = true ->
           sessionCurrent cu s = true ->
           exists s',
             updateProfile (Some cu) formData s = (Payload true, s')
             /\ users s'
                = map (fun u =>
                         if User.id u =? AuthUser.id cu
                         then User.mk (User.id u) (User.username u) (User.phone u)
                                (User.passwordHash u) d (Some EmptyString)
                                (User.avatarUrl u) (User.lastSeen u)
                                (User.isOnline u) (User.createdAt u)
                         else u) (users s)
             /\ chats s' = chats s
             /\ chatMembers s' = chatMembers s
             /\ messages s' = messages s).
Proof.
  intros cu formData s. split.
  - intros Hd. unfold updateProfile. rewrite Hd. reflexivity.
  - intros d Hd Hne Hbio Hname Huniq Hcur.
    unfold updateProfile. rewrite Hd, Hbio, Hname.
    destruct d as [|ch d']; [congruence|].
    cbn [Js.truthy negb option_map Js.orElse].
    unfold setProfile. rewrite (setProfile_no_conflict cu s Huniq Hcur).
    eexists. split; [reflexivity|]. cbn [users chats chatMembers messages].
    split; [|auto].
    apply map_ext_in. intros u Hu.
    destruct (User.id u =? AuthUser.id cu) eqn:Hid; [|reflexivity].
    unfold sessionCurrent in Hcur. rewrite forallb_forall in Hcur.
    specialize (Hcur u Hu). rewrite Hid in Hcur. simpl in Hcur.
    apply String.eqb_eq in Hcur. rewrite Hcur. reflexivity.
Qed.

Lemma updateProfile_requires_display_name_and_resets_bio_witness :
  exists s',
    updateProfile (Some Demo.alice) (Demo.onlyDisplayName "Al") Demo.store
    = (Payload true, s')
    /\ storedBio s' 1 = Some (Some EmptyString)
    /\ option_map User.username (find (fun u => User.id u =? 1) (users s'))
       = Some "alice"%string.
Proof.
  destruct (proj2 (updateProfile_requires_display_name_and_resets_bio
                     Demo.alice (Demo.onlyDisplayName "Al") Demo.store)
              "Al"%string)
    as (s' & Hr & Hu & _).
  - reflexivity.
  - discriminate.
  - reflexivity.
  - reflexivity.
  - reflexivity.
  - reflexivity.
  - exists s'. split; [exact Hr|]. unfold storedBio. rewrite Hu.
    split; reflexivity.
Defined.

(** A session issued before a change of username still carries the old
    name; an update without the username field then writes that old name
    back. *)
Lemma updateProfile_stale_session_username :
  sessionCurrent Demo.alice
    (snd (updateProfile (Some Demo.alice)
            [("displayName", "Alice"); ("username", "alice_w")]%string
            Demo.store))
  = false
  /\ option_map User.username
       (find (fun u => User.id u =? 1)
          (users
             (snd (updateProfile (Some Demo.alice) (Demo.onlyDisplayName "Al")
                     (snd (updateProfile (Some Demo.alice)
                             [("displayName", "Alice"); ("username", "alice_w")]%string
                             Demo.store))))))
     = Some "alice"%string.
Proof. split; reflexivity. Qed.

(** ** Registration *)

Lemma registerAction_rejects_present (bcryptHash : string -> string)
    (phone username displayName password : string) (now : Z) (s : Store)
    (u : User.row) :
  phone <> EmptyString -> username <> EmptyString ->
  displayName <> EmptyString ->
  (6 <= String.length password)%nat ->
  Js.isUsername username = true ->
  In u (users s) ->
  User.phone u = phone \/ User.username u = username ->
  registerAction bcryptHash
    (Demo.registration phone username displayName password) now s
  = (ErrorReply "Phone number or username already registered", s).
Proof.
  intros Hp Hn Hd Hpw Hvalid Hu Hdup.
  unfold registerAction, Demo.registration. cbn [Js.get String.eqb Ascii.eqb Bool.eqb].
  destruct phone; [congruence|]. destruct username as [|c0 un]; [congruence|].
  destruct displayName; [congruence|].
  destruct password as [|p0 pw]; [simpl in Hpw; lia|].
  cbn [isEmpty orb].
  apply Nat.ltb_ge in Hpw. rewrite Hpw, Hvalid. cbn [negb].
  match goal with
  | |- context [filter ?f (users s)] =>
      assert (Hin : In u (filter f (users s)))
  end.
  { apply filter_In. split; [exact Hu|].
    destruct Hdup as [->| ->]; rewrite String.eqb_refl;
      [reflexivity | apply orb_true_r]. }
  destruct (filter _ (users s)); [contradiction | reflexivity].
Qed.

(** C2 on the code.  The store holds the user ["alice"]; a registration with
    the username ["Alice"] and a phone nobody has passes the lookup, which
    compares the username as typed, and is then refused by the unique index
    when the lower-cased name is inserted: the action ends in the store's
    exception, not in the duplicate error it answers for the name as stored
    or for a phone already present. *)
Theorem registerAction_case_variant_escapes_duplicate_check :
  forall (bcryptHash : string -> string) (now : Z),
    registerAction bcryptHash
      (Demo.registration "+500" "Alice" "Alice II" "secret1") now Demo.store
    = (StoreException, Demo.store)
    /\ registerAction bcryptHash
         (Demo.registration "+500" "alice" "Alice II" "secret1") now Demo.store
       = (ErrorReply "Phone number or username already registered", Demo.store)
    /\ registerAction bcryptHash
         (Demo.registration "+100" "alicia" "Alice II" "secret1") now Demo.store
       = (ErrorReply "Phone number or username already registered", Demo.store).
Proof.
  intros bcryptHash now. repeat split; reflexivity.
Qed.

(** ** The chat list *)

Lemma fold_max_In (a : Z) (r : list Z) : In (fold_right Z.max a r) (a :: r).
Proof.
  induction r as [|x r IH]; simpl; [left; reflexivity|].
  destruct (Z.max_spec x (fold_right Z.max a r)) as [[_ ->]|[_ ->]].
  - destruct IH as [H|H]; [left; exact H | right; right; exact H].
  - right. left. reflexivity.
Qed.

Lemma fold_max_ge (a : Z) (r : list Z) (x : Z) :
  In x (a :: r) -> x <= fold_right Z.max a r.
Proof.
  induction r as [|y r IH]; simpl.
  - intros [->|[]]. lia.
  - intros [->|[->|H]].
    + specialize (IH (or_introl eq_refl)). lia.
    + lia.
    + specialize (IH (or_intror H)). lia.
Qed.

Lemma latest_is_max (ts : list Z) (t : Z) :
  In t ts -> (forall x, In x ts -> x <= t) -> latest ts = Some t.
Proof.
  destruct ts as [|a r]; [intros []|]. intros Hin Hmax. simpl. f_equal.
  pose proof (fold_max_In a r) as H1.
  pose proof (fold_max_ge a r t Hin) as H2.
  specialize (Hmax _ H1). lia.
Qed.

Lemma StronglySorted_impl_in {A : Type} (R R' : A -> A -> Prop) (l : list A) :
  (forall a b, In a l -> In b l -> R a b -> R' a b) ->
  StronglySorted R l -> StronglySorted R' l.
Proof.
  induction l as [|x r IH]; intros Himp Hs; [constructor|].
  apply StronglySorted_inv in Hs. destruct Hs as [Hr Hx].
  constructor.
  - apply IH; [|exact Hr]. intros a b Ha Hb. apply Himp; right; assumption.
  - rewrite Forall_forall in Hx |- *. intros y Hy.
    apply Himp; [left; reflexivity | right; exact Hy | apply Hx, Hy].
Qed.

Section Stamped.
Variable s : Store.
Hypothesis stamped : messagesStamped s = true.

Lemma stamped_message (m : Message.row) :
  In m (messages s) ->
  exists d t,
    Message.isDeleted m = Some d /\ Message.createdAt m = Some t /\ t <> 0.
Proof.
  intros Hm. unfold messagesStamped in stamped.
  rewrite forallb_forall in stamped. specialize (stamped m Hm).
  destruct (Message.isDeleted m) as [d|]; [|discriminate].
  destruct (Message.createdAt m) as [t|]; [|discriminate].
  exists d, t. repeat split. apply Z.eqb_neq.
  destruct (t =? 0); [discriminate | reflexivity].
Qed.

(** On stamped rows the filter of the query is the filter of the
    specification. *)
Lemma live_filter (c : Z) :
  filter (isLive c) (messages s)
  = filter (fun m => (Message.chatId m =? c) && nonDeleted m) (messages s).
Proof.
  apply filter_ext_in. intros m Hm.
  destruct (stamped_message m Hm) as (d & t & Hd & _ & _).
  unfold isLive, nonDeleted. rewrite Hd. destruct d; reflexivity.
Qed.

Lemma liveTimes_In (c t : Z) :
  In t (liveTimes s c) <->
  exists m, In m (filter (isLive c) (messages s)) /\ Message.createdAt m = Some t.
Proof.
  unfold liveTimes. rewrite <- live_filter, in_flat_map. split.
  - intros (m & Hm & Ht). exists m. split; [exact Hm|].
    destruct (Message.createdAt m) as [t'|]; [|contradiction].
    destruct Ht as [->|[]]. reflexivity.
  - intros (m & Hm & Ht). exists m. split; [exact Hm|].
    rewrite Ht. left. reflexivity.
Qed.

(** What [lastMsg] finds: nothing when the chat has no non-deleted message,
    otherwise a message that carries the latest of their creation times. *)
Lemma lastMsg_latest (c : Z) :
  match hd_error (lastMsg s c) with
  | None => latest (liveTimes s c) = None
  | Some m =>
      exists t,
        Message.createdAt m = Some t /\ t <> 0
        /\ latest (liveTimes s c) = Some t
  end.
Proof.
  unfold lastMsg, Sql.limit.
  pose proof (orderByDesc_perm Message.createdAt (filter (isLive c) (messages s)))
    as Hperm.
  pose proof (orderByDesc_sorted Message.createdAt (filter (isLive c) (messages s)))
    as Hsorted.
  destruct (Sql.orderByDesc Message.createdAt (filter (isLive c) (messages s)))
    as [|h r] eqn:Hsort.
  - simpl. apply Permutation_nil in Hperm.
    unfold liveTimes. rewrite <- live_filter, Hperm. reflexivity.
  - simpl.
    assert (Hh : In h (filter (isLive c) (messages s))).
    { eapply Permutation_in; [exact Hperm | left; reflexivity]. }
    assert (Hhm : In h (messages s)) by (apply filter_In in Hh; tauto).
    destruct (stamped_message h Hhm) as (_ & t & _ & Ht & Ht0).
    exists t. split; [exact Ht|]. split; [exact Ht0|].
    apply latest_is_max.
    + apply liveTimes_In. exists h. split; assumption.
    + intros x Hx. apply liveTimes_In in Hx. destruct Hx as (m & Hm & Hmx).
      apply (Permutation_in _ (Permutation_sym Hperm)) in Hm.
      destruct Hm as [<-|Hm]; [rewrite Ht in Hmx; injection Hmx; lia|].
      apply StronglySorted_inv in Hsorted. destruct Hsorted as [_ Hall].
      rewrite Forall_forall in Hall. specialize (Hall m Hm).
      rewrite Hmx, Ht in Hall. simpl in Hall. apply Z.leb_le, Hall.
Qed.

(** The summary pushed for a chat id carries that id, the creation time of
    a chat row with that id, and the timestamp of the specification as its
    sort key. *)
Lemma chatSummary_fields (cu : AuthUser.t) (c : Z) (a : ChatSummary.t) :
  In a (chatSummary cu s c) ->
  ChatSummary.id a = c
  /\ (exists ch,
         In ch (chats s) /\ Chat.id ch = ChatSummary.id a
         /\ Chat.createdAt ch = ChatSummary.createdAt a)
  /\ sortTime a = activity s a.
Proof.
  unfold chatSummary.
  destruct (filter (fun ch => Chat.id ch =? c) (chats s)) as [|chat0 rest] eqn:Hf;
    [intros []|].
  assert (Hin : In chat0 (filter (fun ch => Chat.id ch =? c) (chats s)))
    by (rewrite Hf; left; reflexivity).
  apply filter_In in Hin. destruct Hin as [Hin Hid]. apply Z.eqb_eq in Hid.
  intros [<-|[]]. cbn [ChatSummary.id ChatSummary.createdAt].
  split; [exact Hid|]. split; [exists chat0; auto|].
  unfold sortTime, activity, activityTime.
  cbn [ChatSummary.id ChatSummary.createdAt ChatSummary.lastMessage].
  rewrite Hid. pose proof (lastMsg_latest c) as Hl.
  destruct (hd_error (lastMsg s c)) as [m|].
  - destruct Hl as (t & Ht & Ht0 & Hlate). rewrite Hlate, Ht.
    cbn [option_map Js.orNum]. unfold Js.getTime.
    destruct (1000 * t =? 0) eqn:Hz; [apply Z.eqb_eq in Hz; lia|].
    cbn [Js.orNum]. rewrite Hz. reflexivity.
  - rewrite Hl. cbn [Js.orNum].
    destruct (Chat.createdAt chat0) as [t|]; cbn [option_map Js.orNum];
      [|reflexivity].
    destruct (Js.getTime t =? 0) eqn:Hz; [|reflexivity].
    apply Z.eqb_eq in Hz. rewrite Hz. reflexivity.
Qed.

Lemma chatList_fields (cu : AuthUser.t) (a : ChatSummary.t) :
  In a (chatList cu s) ->
  (exists ch,
      In ch (chats s) /\ Chat.id ch = ChatSummary.id a
      /\ Chat.createdAt ch = ChatSummary.createdAt a)
  /\ sortTime a = activity s a.
Proof.
  unfold chatList. rewrite in_flat_map. intros (c & _ & Ha).
  apply chatSummary_fields in Ha. tauto.
Qed.

End Stamped.

Lemma chatList_ids (cu : AuthUser.t) (s : Store) :
  map ChatSummary.id (chatList cu s) = chatsOf s (AuthUser.id cu).
Proof.
  unfold chatList, chatsOf.
  induction (chatIdsOf s (AuthUser.id cu)) as [|c r IH]; [reflexivity|].
  cbn [flat_map filter]. rewrite map_app, IH. unfold chatSummary.
  destruct (filter (fun ch => Chat.id ch =? c) (chats s)) as [|chat0 rest] eqn:Hf.
  - assert (Hex : existsb (fun ch => Chat.id ch =? c) (chats s) = false).
    { apply not_true_is_false. intros Hex. apply existsb_exists in Hex.
      destruct Hex as (ch & Hch & Hid).
      assert (Hin : In ch (filter (fun ch => Chat.id ch =? c) (chats s)))
        by (apply filter_In; split; assumption).
      rewrite Hf in Hin. exact Hin. }
    rewrite Hex. reflexivity.
  - assert (Hin : In chat0 (filter (fun ch => Chat.id ch =? c) (chats s)))
      by (rewrite Hf; left; reflexivity).
    apply filter_In in Hin. destruct Hin as [Hin Hid].
    assert (Hex : existsb (fun ch => Chat.id ch =? c) (chats s) = true)
      by (apply existsb_exists; exists chat0; split; assumption).
    rewrite Hex. apply Z.eqb_eq in Hid. cbn [map app ChatSummary.id].
    rewrite Hid. reflexivity.
Qed.

Lemma getUserChats_perm (cu : AuthUser.t) (s : Store) :
  Permutation (getUserChats (Some cu) s) (chatList cu s).
Proof. unfold getUserChats, Js.sort. apply stableSort_perm. Qed.

Lemma getUserChats_sorted_by_sortTime (cu : AuthUser.t) (s : Store) :
  StronglySorted (fun a b => sortTime b <= sortTime a) (getUserChats (Some cu) s).
Proof.
  unfold getUserChats, Js.sort.
  eapply StronglySorted_impl_in;
    [|apply (stableSort_sorted (fun a b => sortTime b - sortTime a <=? 0))].
  - intros a b _ _ H. apply Z.leb_le in H. lia.
  - intros a b.
    destruct (Z.leb_spec (sortTime b - sortTime a) 0); [left; reflexivity|].
    right. apply Z.leb_le. lia.
  - intros a b c H1 H2. apply Z.leb_le in H1, H2. apply Z.leb_le. lia.
Qed.

(** C6. In a store whose message rows are stamped, the list [getUserChats]
    returns for an authenticated user holds one summary for each membership
    of the user in a chat that has a row, and is ordered descending by the
    timestamp of the specification: the creation time of the most recent
    non-deleted message of the chat when there is one, the creation time of
    the chat itself otherwise, both read in milliseconds on one axis. *)
Theorem getUserChats_sorted_by_activity :
  forall (cu : AuthUser.t) (s : Store),
    messagesStamped s = true ->
    Permutation (map ChatSummary.id (getUserChats (Some cu) s))
      (chatsOf s (AuthUser.id cu))
    /\ StronglySorted (fun a b => activity s b <= activity s a)
         (getUserChats (Some cu) s)
    /\ (forall a,
           In a (getUserChats (Some cu) s) ->
           (exists ch,
               In ch (chats s) /\ Chat.id ch = ChatSummary.id a
               /\ Chat.createdAt ch = ChatSummary.createdAt a)
           /\ (liveTimes s (ChatSummary.id a) = [] ->
               activity s a
               = match ChatSummary.createdAt a with
                 | Some t => Js.getTime t
                 | None => 0
                 end)).
Proof.
  intros cu s Hst.
  pose proof (getUserChats_perm cu s) as Hperm.
  split; [|split].
  - rewrite <- chatList_ids. apply Permutation_map, Hperm.
  - eapply StronglySorted_impl_in; [|apply getUserChats_sorted_by_sortTime].
    intros a b Ha Hb H.
    apply (Permutation_in _ Hperm) in Ha, Hb.
    destruct (chatList_fields s Hst cu a Ha) as [_ <-].
    destruct (chatList_fields s Hst cu b Hb) as [_ <-]. exact H.
  - intros a Ha. apply (Permutation_in _ Hperm) in Ha.
    split; [apply (chatList_fields s Hst cu a Ha)|].
    intros Hnone. unfold activity, activityTime. rewrite Hnone. reflexivity.
Qed.

Lemma getUserChats_sorted_by_activity_witness :
  messagesStamped Demo.store = true
  /\ map ChatSummary.id (getUserChats (Some Demo.alice) Demo.store) = [2; 3; 1]
  /\ map (activity Demo.store) (getUserChats (Some Demo.alice) Demo.store)
     = [300000; 200000; 120000]
  /\ StronglySorted (fun a b => activity Demo.store b <= activity Demo.store a)
       (getUserChats (Some Demo.alice) Demo.store).
Proof.
  split; [reflexivity|]. split; [reflexivity|]. split; [reflexivity|].
  apply (getUserChats_sorted_by_activity Demo.alice Demo.store).
  reflexivity.
Defined.

(** * Further properties of the code *)

(** ** Accounts: registration, login, logout *)

Lemma lowerChar_idem (c : ascii) : Js.lowerChar (Js.lowerChar c) = Js.lowerChar c.
Proof. destruct c as [[] [] [] [] [] [] [] []]; reflexivity. Qed.

Lemma toLowerCase_idem (s : string) :
  Js.toLowerCase (Js.toLowerCase s) = Js.toLowerCase s.
Proof.
  induction s as [|c r IH]; simpl; [reflexivity|].
  rewrite lowerChar_idem, IH. reflexivity.
Qed.

Lemma lowerChar_word (c : ascii) :
  Js.isWordChar c = true ->
  Js.isWordChar (Js.lowerChar c) = true /\ Js.isUpper (Js.lowerChar c) = false.
Proof.
  destruct c as [[] [] [] [] [] [] [] []]; intros H;
    solve [discriminate H | split; reflexivity].
Qed.

Lemma toLowerCase_word (s : string) :
  Js.allChars Js.isWordChar s = true ->
  Js.allChars Js.isWordChar (Js.toLowerCase s) = true
  /\ Js.allChars (fun c => negb (Js.isUpper c)) (Js.toLowerCase s) = true.
Proof.
  induction s as [|c r IH]; simpl; [auto|].
  rewrite andb_true_iff. intros [Hc Hr].
  destruct (lowerChar_word c Hc) as [Hw Hu]. destruct (IH Hr) as [H1 H2].
  rewrite Hw, Hu, H1, H2. auto.
Qed.

Lemma toLowerCase_username (s : string) :
  Js.isUsername s = true ->
  Js.isUsername (Js.toLowerCase s) = true
  /\ Js.allChars (fun c => negb (Js.isUpper c)) (Js.toLowerCase s) = true.
Proof.
  destruct s as [|c r]; [discriminate|].
  unfold Js.isUsername. intros H. apply toLowerCase_word in H.
  exact H.
Qed.

Lemma insertUser_Some (phone username displayName passwordHash : string)
    (now : Z) (s s1 : Store) (u : User.row) :
  insertUser phone username displayName passwordHash now s = Some (u, s1) ->
  existsb (fun v => String.eqb (User.username v) username
                    || String.eqb (User.phone v) phone) (users s) = false
  /\ u = User.mk (Sql.nextRowid (seqUsers s) (map User.id (users s)))
           username phone passwordHash displayName (Some EmptyString) None
           (Some now) (Some false) (Some now)
  /\ s1 = mkStore (users s ++ [u]) (chats s) (chatMembers s) (messages s)
            (User.id u) (seqChats s) (seqChatMembers s) (seqMessages s).
Proof.
  unfold insertUser.
  destruct (existsb _ (users s)) eqn:Hex; [discriminate|].
  intros [= <- <-]. repeat split.
Qed.

(** What a registration that redirects went through. *)
Lemma registerAction_redirected (bcryptHash : string -> string)
    (formData : Js.FormData) (now : Z) (s s1 : Store) (path : string)
    (cookie : option AuthUser.t) :
  registerAction bcryptHash formData now s = (Redirected path cookie, s1) ->
  exists phone username displayName password u,
    Js.get formData "phone" = Some phone
    /\ Js.get formData "username" = Some username
    /\ Js.get formData "displayName" = Some displayName
    /\ Js.get formData "password" = Some password
    /\ isEmpty username = false /\ isEmpty password = false
    /\ (6 <= String.length password)%nat
    /\ Js.isUsername username = true
    /\ insertUser phone (Js.toLowerCase username) displayName
         (bcryptHash password) now s = Some (u, s1)
    /\ path = "/chat"%string /\ cookie = Some (claimsOf u).
Proof.
  unfold registerAction.
  destruct (Js.get formData "phone") as [phone|]; [|discriminate].
  destruct (Js.get formData "username") as [username|]; [|discriminate].
  destruct (Js.get formData "displayName") as [displayName|]; [|discriminate].
  destruct (Js.get formData "password") as [password|]; [|discriminate].
  destruct (isEmpty phone || isEmpty username || isEmpty displayName
            || isEmpty password) eqn:He; [discriminate|].
  destruct (String.length password <? 6)%nat eqn:Hlen; [discriminate|].
  destruct (Js.isUsername username) eqn:Hu; [|discriminate]. cbn [negb].
  destruct (0 <? List.length _)%nat; [discriminate|].
  destruct (insertUser phone (Js.toLowerCase username) displayName
              (bcryptHash password) now s) as [[u s1']|] eqn:Hins;
    [|discriminate].
  intros [= <- <- <-].
  apply orb_false_iff in He. destruct He as [He Hpw].
  apply orb_false_iff in He. destruct He as [He _].
  apply orb_false_iff in He. destruct He as [_ Hn].
  apply Nat.ltb_ge in Hlen.
  exists phone, username, displayName, password, u. repeat split; assumption.
Qed.

(** X1. A registration writes only when it redirects, and then it appends
    one user row: a fresh identifier, the username in lower case and made of
    [a-z0-9_] only, the phone and display name as typed, the hash of the
    password, an empty bio, offline; the session gets the claims of that row.
    The other tables are untouched. *)
Theorem registerAction_writes_one_normalised_row :
  forall (bcryptHash : string -> string) (formData : Js.FormData) (now : Z)
         (s : Store),
    match registerAction bcryptHash formData now s with
    | (Redirected path cookie, s1) =>
        exists phone username displayName password u,
          Js.get formData "phone" = Some phone
          /\ Js.get formData "username" = Some username
          /\ Js.get formData "displayName" = Some displayName
          /\ Js.get formData "password" = Some password
          /\ u = User.mk (Sql.nextRowid (seqUsers s) (map User.id (users s)))
                   (Js.toLowerCase username) phone (bcryptHash password)
                   displayName (Some EmptyString) None (Some now) (Some false)
                   (Some now)
          /\ users s1 = users s ++ [u]
          /\ ~ In (User.id u) (map User.id (users s))
          /\ Js.isUsername (User.username u) = true
          /\ Js.allChars (fun c => negb (Js.isUpper c)) (User.username u) = true
          /\ cookie = Some (claimsOf u)
          /\ chats s1 = chats s /\ chatMembers s1 = chatMembers s
          /\ messages s1 = messages s
    | (_, s1) => s1 = s
    end.
Proof.
  intros bcryptHash formData now s.
  destruct (registerAction bcryptHash formData now s) as [r s1] eqn:Hr.
  destruct r as [a|e|path cookie|].
  - unfold registerAction in Hr. repeat break_match_in Hr; congruence.
  - unfold registerAction in Hr. repeat break_match_in Hr; congruence.
  - apply registerAction_redirected in Hr.
    destruct Hr as (phone & username & displayName & password & u & Hp & Hn & Hd
                    & Hpw & _ & _ & _ & Hvalid & Hins & _ & Hc).
    apply insertUser_Some in Hins. destruct Hins as (_ & Hu & Hs1).
    destruct (toLowerCase_username username Hvalid) as [Hw Hl].
    exists phone, username, displayName, password, u.
    rewrite Hs1. cbn [users chats chatMembers messages].
    repeat split; try assumption.
    + rewrite Hu. cbn [User.id]. apply nextRowid_fresh.
    + rewrite Hu. exact Hw.
    + rewrite Hu. exact Hl.
  - unfold registerAction in Hr. repeat break_match_in Hr; congruence.
Qed.

(** X2. [loginAction] redirects only for a stored user found by the exact
    phone or by the lower-cased username and whose hash verifies the
    password; the session then carries the claims of that row and the only
    write marks it online.  Every other outcome writes nothing. *)
Theorem loginAction_signs_in_only_verified_users :
  forall (bcryptCompare : string -> string -> bool) (formData : Js.FormData)
         (now : Z) (s : Store),
    match loginAction bcryptCompare formData now s with
    | (Redirected path cookie, s1) =>
        exists login password u,
          Js.get formData "login" = Some login
          /\ Js.get formData "password" = Some password
          /\ In u (users s)
          /\ (User.phone u = login \/ User.username u = Js.toLowerCase login)
          /\ bcryptCompare password (User.passwordHash u) = true
          /\ path = "/chat"%string
          /\ cookie = Some (claimsOf u)
          /\ s1 = setPresence (User.id u) true now s
    | (_, s1) => s1 = s
    end.
Proof.
  intros bcryptCompare formData now s. unfold loginAction.
  destruct (Js.get formData "login") as [login|]; [|reflexivity].
  destruct (Js.get formData "password") as [password|]; [|reflexivity].
  destruct (isEmpty login || isEmpty password); [reflexivity|].
  destruct (filter _ (users s)) as [|user rest] eqn:Hf; [reflexivity|].
  destruct (bcryptCompare password (User.passwordHash user)) eqn:Hpw;
    [|reflexivity].
  cbn [negb].
  assert (Hin : In user (filter
            (fun u => String.eqb (User.phone u) login
                      || String.eqb (User.username u) (Js.toLowerCase login))
            (users s))) by (rewrite Hf; left; reflexivity).
  apply filter_In in Hin. destruct Hin as [Hin Hm].
  exists login, password, user. repeat split; try assumption.
  apply orb_true_iff in Hm.
  destruct Hm as [Hm|Hm]; apply String.eqb_eq in Hm; auto.
Qed.

Lemma loginAction_redirected
    (bcryptCompare : string -> string -> bool) (formData : Js.FormData)
    (now : Z) (s s1 : Store) (claims : AuthUser.t) :
  loginAction bcryptCompare formData now s
  = (Redirected "/chat" (Some claims), s1) ->
  exists u,
    In u (users s) /\ claims = claimsOf u
    /\ s1 = setPresence (User.id u) true now s.
Proof.
  unfold loginAction. intros H.
  repeat break_match_in H; try discriminate.
  injection H as <- <-.
  match goal with
  | Hf : filter ?f (users s) = ?u :: ?r |- _ =>
      exists u; split; [|split; reflexivity];
      assert (Hin : In u (filter f (users s))) by (rewrite Hf; left; reflexivity);
      apply filter_In in Hin; tauto
  end.
Qed.

(** X3. The account a registration created can log in at once with the
    username as it was typed, upper-case letters included, provided [bcrypt]
    verifies the password against its own hash and no stored phone number is
    that very string: the login answers the same claims as the registration
    and marks the user online. *)
Theorem register_then_login_by_typed_username :
  forall (bcryptHash : string -> string)
         (bcryptCompare : string -> string -> bool)
         (phone username displayName password : string) (now1 now2 : Z)
         (s s1 : Store) (claims : AuthUser.t),
    bcryptCompare password (bcryptHash password) = true ->
    (forall v, In v (users s) -> User.phone v <> username) ->
    registerAction bcryptHash
      [ ("phone", phone); ("username", username);
        ("displayName", displayName); ("password", password) ]%string now1 s
    = (Redirected "/chat" (Some claims), s1) ->
    loginAction bcryptCompare
      [ ("login", username); ("password", password) ]%string now2 s1
    = (Redirected "/chat" (Some claims),
       setPresence (AuthUser.id claims) true now2 s1).
Proof.
  intros bcryptHash bcryptCompare phone username displayName password now1 now2
         s s1 claims Hbc Hphone Hreg.
  apply registerAction_redirected in Hreg.
  destruct Hreg as (phone' & username' & displayName' & password' & u & Hp & Hn
                    & Hd & Hpw & Hne & Hpe & _ & _ & Hins & _ & Hc).
  cbn [Js.get String.eqb Ascii.eqb Bool.eqb] in Hp, Hn, Hd, Hpw.
  injection Hp as <-. injection Hn as <-. injection Hd as <-.
  injection Hpw as <-. injection Hc as ->.
  apply insertUser_Some in Hins. destruct Hins as (Hex & Hu & Hs1).
  unfold loginAction. cbn [Js.get String.eqb Ascii.eqb Bool.eqb].
  rewrite Hne, Hpe. cbn [orb].
  assert (Hfilter :
            filter (fun v => String.eqb (User.phone v) username
                             || String.eqb (User.username v)
                                  (Js.toLowerCase username)) (users s1)
            = [u]).
  { rewrite Hs1. cbn [users]. rewrite filter_app.
    rewrite (filter_all_false _ (users s)).
    - cbn [filter app]. rewrite Hu at 1 2. cbn [User.phone User.username].
      rewrite String.eqb_refl, orb_true_r. reflexivity.
    - intros v Hv. apply orb_false_iff. split.
      + apply String.eqb_neq, Hphone, Hv.
      + apply not_true_is_false. intros Heq.
        assert (Hcontra : existsb
                  (fun v => String.eqb (User.username v) (Js.toLowerCase username)
                            || String.eqb (User.phone v) phone) (users s) = true).
        { apply existsb_exists. exists v. split; [exact Hv|].
          rewrite Heq. reflexivity. }
        congruence. }
  rewrite Hfilter.
  assert (Hhash : User.passwordHash u = bcryptHash password)
    by (rewrite Hu; reflexivity).
  rewrite Hhash, Hbc. reflexivity.
Qed.

Lemma register_then_login_by_typed_username_witness :
  exists claims s1,
    registerAction Demo.hash
      [ ("phone", "+500"); ("username", "Eve_9");
        ("displayName", "Eve"); ("password", "secret9") ]%string 600 Demo.store
    = (Redirected "/chat" (Some claims), s1)
    /\ AuthUser.username claims = "eve_9"%string
    /\ loginAction Demo.compare
         [ ("login", "Eve_9"); ("password", "secret9") ]%string 601 s1
       = (Redirected "/chat" (Some claims),
          setPresence (AuthUser.id claims) true 601 s1).
Proof.
  eexists. eexists. split; [reflexivity|]. split; [reflexivity|].
  apply (register_then_login_by_typed_username Demo.hash Demo.compare
           "+500" "Eve_9" "Eve" "secret9" 600 601 Demo.store).
  - reflexivity.
  - simpl. intros v [<-|[<-|[<-|[<-|[]]]]]; discriminate.
  - reflexivity.
Defined.

(** X4. Logging in and logging out change nothing but the presence of the
    user: in every row of [users] all columns other than [lastSeen] and
    [isOnline] stay as they were, no row is added or removed, and the other
    tables are untouched. *)
Theorem login_logout_only_touch_presence :
  forall (bcryptCompare : string -> string -> bool)
         (currentUser : option AuthUser.t) (formData : Js.FormData) (now : Z)
         (s : Store),
    let kept (u : User.row) :=
      (User.id u, User.username u, User.phone u, User.passwordHash u,
       User.displayName u, User.bio u, User.avatarUrl u, User.createdAt u) in
    let unchanged (s1 : Store) :=
      map kept (users s1) = map kept (users s)
      /\ chats s1 = chats s /\ chatMembers s1 = chatMembers s
      /\ messages s1 = messages s in
    unchanged (snd (loginAction bcryptCompare formData now s))
    /\ unchanged (snd (logoutAction currentUser now s))
    /\ fst (logoutAction currentUser now s) = Redirected "/" None.
Proof.
  intros bcryptCompare currentUser formData now s kept unchanged.
  assert (Hpres : forall uid online, unchanged (setPresence uid online now s)).
  { intros uid online. unfold unchanged. cbn [setPresence users chats chatMembers
                                                messages].
    split; [|auto]. rewrite map_map. apply map_ext. intros u.
    destruct (User.id u =? uid); reflexivity. }
  assert (Hsame : unchanged s) by (unfold unchanged; auto).
  split; [|split].
  - unfold loginAction. repeat break_match; cbn [snd]; auto.
  - unfold logoutAction. destruct currentUser; cbn [snd]; auto.
  - reflexivity.
Qed.

(** X5. A login followed by the logout of the session it issued leaves the
    rows of that user offline, with [lastSeen] at the time of the logout, and
    every row of every other user exactly as it was before the login. *)
Theorem login_then_logout_leaves_user_offline :
  forall (bcryptCompare : string -> string -> bool) (formData : Js.FormData)
         (now1 now2 : Z) (s s1 : Store) (claims : AuthUser.t),
    loginAction bcryptCompare formData now1 s
    = (Redirected "/chat" (Some claims), s1) ->
    (exists u, In u (users s) /\ User.id u = AuthUser.id claims)
    /\ (forall u,
           In u (users (snd (logoutAction (Some claims) now2 s1))) ->
           User.id u = AuthUser.id claims ->
           User.isOnline u = Some false /\ User.lastSeen u = Some now2)
    /\ (forall i u,
           nth_error (users s) i = Some u ->
           User.id u <> AuthUser.id claims ->
           nth_error (users (snd (logoutAction (Some claims) now2 s1))) i
           = Some u).
Proof.
  intros bcryptCompare formData now1 now2 s s1 claims Hlogin.
  pose proof (loginAction_redirected bcryptCompare formData
                now1 s s1 claims Hlogin) as (u & Hu & Hc & Hs1).
  subst claims s1. cbn [claimsOf AuthUser.id].
  split; [exists u; auto|]. split.
  - intros v Hin Hid.
    cbn [logoutAction snd setPresence users claimsOf AuthUser.id] in Hin.
    apply in_map_iff in Hin. destruct Hin as (w & Hw & _).
    destruct (User.id w =? User.id u) eqn:He.
    + rewrite <- Hw. split; reflexivity.
    + subst w. apply Z.eqb_neq in He. contradiction.
  - intros i v Hi Hne.
    cbn [logoutAction snd setPresence users claimsOf AuthUser.id] in Hne |- *.
    rewrite !nth_error_map, Hi. cbn [option_map].
    apply Z.eqb_neq in Hne. rewrite Hne, Hne. reflexivity.
Qed.

Lemma login_then_logout_leaves_user_offline_witness :
  exists claims s1,
    loginAction Demo.compare [ ("login", "ALICE"); ("password", "a") ]%string
      700 Demo.store
    = (Redirected "/chat" (Some claims), s1)
    /\ nth_error (users (snd (logoutAction (Some claims) 701 s1))) 1
       = nth_error (users Demo.store) 1.
Proof.
  eexists. eexists. split; [reflexivity|].
  refine (proj2 (proj2 (login_then_logout_leaves_user_offline Demo.compare
                          [ ("login", "ALICE"); ("password", "a") ]%string
                          700 701 Demo.store _ _ eq_refl)) 1%nat _ eq_refl _).
  simpl. discriminate.
Defined.

(** ** What a request can do to the [users] table *)

Lemma registerAction_store (bcryptHash : string -> string)
    (formData : Js.FormData) (now : Z) (s : Store) :
  snd (registerAction bcryptHash formData now s) = s
  \/ exists phone username displayName password u,
       insertUser phone (Js.toLowerCase username) displayName
         (bcryptHash password) now s
       = Some (u, snd (registerAction bcryptHash formData now s)).
Proof.
  unfold registerAction. repeat break_match; cbn [snd]; auto.
  right. do 5 eexists. eassumption.
Qed.

Lemma loginAction_store (bcryptCompare : string -> string -> bool)
    (formData : Js.FormData) (now : Z) (s : Store) :
  snd (loginAction bcryptCompare formData now s) = s
  \/ exists uid,
       snd (loginAction bcryptCompare formData now s)
       = setPresence uid true now s.
Proof.
  unfold loginAction. repeat break_match; cbn [snd]; eauto.
Qed.

Lemma updateProfile_store (cu : AuthUser.t) (formData : Js.FormData)
    (s : Store) :
  snd (updateProfile (Some cu) formData s) = s
  \/ exists displayName bio,
       setProfile (AuthUser.id cu) displayName bio
         (Js.orElse (option_map Js.toLowerCase (Js.get formData "username"))
            (AuthUser.username cu)) s
       = Some (snd (updateProfile (Some cu) formData s)).
Proof.
  unfold updateProfile. repeat break_match; cbn [snd]; auto.
  right. do 2 eexists. eassumption.
Qed.

(** The four ways a request leaves the [users] table: as it was, with one
    row inserted, with the presence of a user set, with the profile of the
    session's user set. *)
Lemma perform_users (bcryptHash : string -> string)
    (bcryptCompare : string -> string -> bool)
    (currentUser : option AuthUser.t) (now : Z) (r : Request) (s : Store) :
  users (perform bcryptHash bcryptCompare currentUser now r s) = users s
  \/ (exists phone username displayName passwordHash u s1,
         insertUser phone (Js.toLowerCase username) displayName passwordHash
           now s = Some (u, s1)
         /\ users (perform bcryptHash bcryptCompare currentUser now r s)
            = users s1)
  \/ (exists uid online,
         users (perform bcryptHash bcryptCompare currentUser now r s)
         = users (setPresence uid online now s))
  \/ (exists cu formData displayName bio s1,
         currentUser = Some cu
         /\ setProfile (AuthUser.id cu) displayName bio
              (Js.orElse (option_map Js.toLowerCase (Js.get formData "username"))
                 (AuthUser.username cu)) s = Some s1
         /\ users (perform bcryptHash bcryptCompare currentUser now r s)
            = users s1).
Proof.
  destruct r as [fd|fd| |targetUserId|name memberIds|c t rp|mid t|mid| |c|q| |fd];
    cbn [perform]; auto.
  - destruct (registerAction_store bcryptHash fd now s)
      as [->|(p & n & d & pw & u & H)]; [auto|].
    right. left. exists p, n, d, (bcryptHash pw), u. eauto.
  - destruct (loginAction_store bcryptCompare fd now s) as [->|(uid & ->)];
      [auto|]. right. right. left. eauto.
  - destruct currentUser as [cu|]; cbn [logoutAction snd]; [|auto].
    right. right. left. eauto.
  - destruct currentUser as [cu|]; [|auto].
    destruct (createPrivateChat_rows cu targetUserId now s) as [->|_]; [auto|].
    left. unfold createPrivateChat.
    destruct (findPrivateChat s targetUserId (chatIdsOf s (AuthUser.id cu)));
      [reflexivity|].
    cbn [insertChat snd].
    match goal with
    | |- context [insertChatMembers ?v now ?s0] =>
        destruct (insertChatMembers_frame v now s0) as (Hu & _); rewrite Hu
    end.
    reflexivity.
  - destruct currentUser as [cu|]; [|auto].
    left. unfold createGroupChat. cbn [insertChat snd].
    match goal with
    | |- context [insertChatMembers ?v now ?s0] =>
        destruct (insertChatMembers_frame v now s0) as (Hu & _); rewrite Hu
    end.
    reflexivity.
  - left. unfold sendMessage, insertMessage. repeat break_match; reflexivity.
  - left. destruct currentUser; reflexivity.
  - left. destruct currentUser; reflexivity.
  - destruct currentUser as [cu|]; [|auto].
    destruct (updateProfile_store cu fd s) as [->|(d & b & H)]; [auto|].
    right. right. right. exists cu, fd, d, b. eauto.
Qed.

Lemma usernamesUnique_spec (s : Store) :
  usernamesUnique s = true <->
  forall v w, In v (users s) -> In w (users s) ->
              User.username v = User.username w -> User.id v = User.id w.
Proof.
  unfold usernamesUnique. rewrite forallb_forall. split.
  - intros H v w Hv Hw He. specialize (H v Hv).
    rewrite forallb_forall in H. specialize (H w Hw).
    rewrite He, String.eqb_refl in H. apply Z.eqb_eq, H.
  - intros H v Hv. apply forallb_forall. intros w Hw.
    destruct (String.eqb (User.username v) (User.username w)) eqn:He;
      [|reflexivity].
    apply String.eqb_eq in He. cbn [implb]. apply Z.eqb_eq. auto.
Qed.

Lemma phonesUnique_spec (s : Store) :
  phonesUnique s = true <->
  forall v w, In v (users s) -> In w (users s) ->
              User.phone v = User.phone w -> User.id v = User.id w.
Proof.
  unfold phonesUnique. rewrite forallb_forall. split.
  - intros H v w Hv Hw He. specialize (H v Hv).
    rewrite forallb_forall in H. specialize (H w Hw).
    rewrite He, String.eqb_refl in H. apply Z.eqb_eq, H.
  - intros H v Hv. apply forallb_forall. intros w Hw.
    destruct (String.eqb (User.phone v) (User.phone w)) eqn:He; [|reflexivity].
    apply String.eqb_eq in He. cbn [implb]. apply Z.eqb_eq. auto.
Qed.

(** X6. The two unique indexes of [users] are invariants of the surface:
    whatever the request, its arguments and the session, if no two users
    shared a username and no two shared a phone before, none do after. *)
Theorem unique_indexes_are_invariant :
  forall (bcryptHash : string -> string)
         (bcryptCompare : string -> string -> bool)
         (currentUser : option AuthUser.t) (now : Z) (r : Request) (s : Store),
    usernamesUnique s = true ->
    phonesUnique s = true ->
    usernamesUnique (perform bcryptHash bcryptCompare currentUser now r s) = true
    /\ phonesUnique (perform bcryptHash bcryptCompare currentUser now r s) = true.
Proof.
  intros bcryptHash bcryptCompare currentUser now r s Hun Hph.
  rewrite usernamesUnique_spec in Hun. rewrite phonesUnique_spec in Hph.
  rewrite usernamesUnique_spec, phonesUnique_spec.
  destruct (perform_users bcryptHash bcryptCompare currentUser now r s)
    as [->|[(p & n & d & h & u & s1 & Hins & ->)
           |[(uid & online & ->)|(cu & fd & d & b & s1 & _ & Hset & ->)]]].
  - split; assumption.
  - apply insertUser_Some in Hins. destruct Hins as (Hex & Hu & ->).
    cbn [users].
    assert (Hnew : forall v, In v (users s) ->
                     User.username v <> User.username u
                     /\ User.phone v <> User.phone u).
    { intros v Hv. rewrite Hu. cbn [User.username User.phone].
      assert (Hf : String.eqb (User.username v) (Js.toLowerCase n)
                   || String.eqb (User.phone v) p = false).
      { apply not_true_is_false. intros Ht.
        assert (existsb (fun v => String.eqb (User.username v) (Js.toLowerCase n)
                                  || String.eqb (User.phone v) p) (users s) = true)
          by (apply existsb_exists; exists v; auto).
        congruence. }
      apply orb_false_iff in Hf. destruct Hf as [H1 H2].
      split; apply String.eqb_neq; assumption. }
    split; intros v w Hv Hw He; apply in_app_or in Hv, Hw;
      destruct Hv as [Hv|[<-|[]]], Hw as [Hw|[<-|[]]]; auto;
      exfalso;
      first [ apply (proj1 (Hnew _ Hv)); exact He
            | apply (proj1 (Hnew _ Hw)); symmetry; exact He
            | apply (proj2 (Hnew _ Hv)); exact He
            | apply (proj2 (Hnew _ Hw)); symmetry; exact He ].
  - cbn [setPresence users].
    split; intros v w Hv Hw He; apply in_map_iff in Hv, Hw;
      destruct Hv as (v0 & <- & Hv), Hw as (w0 & <- & Hw);
      destruct (User.id v0 =? uid), (User.id w0 =? uid); cbn in He |- *; auto.
  - unfold setProfile in Hset.
    destruct (existsb (fun u => User.id u =? AuthUser.id cu) (users s)
              && existsb _ (users s)) eqn:Hconf; [discriminate|].
    injection Hset as <-. cbn [users]. split.
    + intros v w Hv Hw He. apply in_map_iff in Hv, Hw.
      destruct Hv as (v0 & <- & Hv), Hw as (w0 & <- & Hw).
      destruct (User.id v0 =? AuthUser.id cu) eqn:Ev,
               (User.id w0 =? AuthUser.id cu) eqn:Ew; cbn in He |- *.
      * apply Z.eqb_eq in Ev, Ew. congruence.
      * exfalso. apply andb_false_iff in Hconf. destruct Hconf as [Hc|Hc].
        -- assert (existsb (fun u => User.id u =? AuthUser.id cu) (users s) = true)
             by (apply existsb_exists; exists v0; auto). congruence.
        -- rewrite <- not_true_iff_false in Hc. apply Hc.
           apply existsb_exists. exists w0. split; [exact Hw|].
           rewrite Ew, <- He, String.eqb_refl. reflexivity.
      * exfalso. apply andb_false_iff in Hconf. destruct Hconf as [Hc|Hc].
        -- assert (existsb (fun u => User.id u =? AuthUser.id cu) (users s) = true)
             by (apply existsb_exists; exists w0; auto). congruence.
        -- rewrite <- not_true_iff_false in Hc. apply Hc.
           apply existsb_exists. exists v0. split; [exact Hv|].
           rewrite Ev, He, String.eqb_refl. reflexivity.
      * auto.
    + intros v w Hv Hw He. apply in_map_iff in Hv, Hw.
      destruct Hv as (v0 & <- & Hv), Hw as (w0 & <- & Hw).
      destruct (User.id v0 =? AuthUser.id cu), (User.id w0 =? AuthUser.id cu);
        cbn in He |- *; auto.
Qed.

Lemma unique_indexes_are_invariant_witness :
  usernamesUnique
    (perform Demo.hash Demo.compare (Some Demo.alice) 800
       (UpdateProfile [ ("displayName", "Alice"); ("username", "Alice_W") ]%string)
       Demo.store)
  = true.
Proof.
  apply (proj1 (unique_indexes_are_invariant Demo.hash Demo.compare
                  (Some Demo.alice) 800
                  (UpdateProfile
                     [ ("displayName", "Alice"); ("username", "Alice_W") ]%string)
                  Demo.store eq_refl eq_refl)).
Defined.

Lemma orElse_cases (a : option string) (b : string) :
  Js.orElse a b = b \/ a = Some (Js.orElse a b).
Proof. destruct a as [[|c r]|]; simpl; auto. Qed.

(** X7. Stored usernames are always in lower case: every request keeps
    that, provided the session, if there is one, carries a lower-case
    username (as every session issued from such a store does). *)
Theorem usernames_stay_lower_case :
  forall (bcryptHash : string -> string)
         (bcryptCompare : string -> string -> bool)
         (currentUser : option AuthUser.t) (now : Z) (r : Request) (s : Store),
    usernamesLower s = true ->
    match currentUser with
    | Some cu => Js.toLowerCase (AuthUser.username cu) = AuthUser.username cu
    | None => True
    end ->
    usernamesLower (perform bcryptHash bcryptCompare currentUser now r s) = true.
Proof.
  intros bcryptHash bcryptCompare currentUser now r s Hlow Hsess.
  unfold usernamesLower in *. rewrite forallb_forall in Hlow |- *.
  destruct (perform_users bcryptHash bcryptCompare currentUser now r s)
    as [->|[(p & n & d & h & u & s1 & Hins & ->)
           |[(uid & online & ->)|(cu & fd & d & b & s1 & Hcu & Hset & ->)]]].
  - exact Hlow.
  - apply insertUser_Some in Hins. destruct Hins as (_ & Hu & ->).
    cbn [users]. intros v Hv. apply in_app_or in Hv.
    destruct Hv as [Hv|[<-|[]]]; [auto|].
    rewrite Hu. cbn [User.username]. rewrite toLowerCase_idem.
    apply String.eqb_refl.
  - cbn [setPresence users]. intros v Hv. apply in_map_iff in Hv.
    destruct Hv as (v0 & <- & Hv). specialize (Hlow v0 Hv).
    destruct (User.id v0 =? uid); exact Hlow.
  - subst currentUser. unfold setProfile in Hset.
    destruct (_ && _); [discriminate|]. injection Hset as <-. cbn [users].
    intros v Hv. apply in_map_iff in Hv. destruct Hv as (v0 & <- & Hv).
    destruct (User.id v0 =? AuthUser.id cu); [|auto]. cbn [User.username].
    apply String.eqb_eq.
    destruct (orElse_cases (option_map Js.toLowerCase (Js.get fd "username"))
                (AuthUser.username cu)) as [->|He]; [exact Hsess|].
    destruct (Js.get fd "username") as [x|]; [|discriminate].
    cbn [option_map] in He |- *. injection He as He.
    rewrite <- He at 1. rewrite toLowerCase_idem. exact He.
Qed.

Lemma usernames_stay_lower_case_witness :
  usernamesLower
    (perform Demo.hash Demo.compare (Some Demo.alice) 800
       (UpdateProfile [ ("displayName", "Alice"); ("username", "Alice_W") ]%string)
       Demo.store)
  = true.
Proof.
  apply (usernames_stay_lower_case Demo.hash Demo.compare (Some Demo.alice) 800
           (UpdateProfile
              [ ("displayName", "Alice"); ("username", "Alice_W") ]%string)
           Demo.store eq_refl eq_refl).
Defined.

(** ** Primary keys *)

Lemma NoDup_snoc_fresh (seq : Z) (ids : list Z) :
  NoDup ids -> NoDup (ids ++ [Sql.nextRowid seq ids]).
Proof.
  intros H. apply NoDup_app.
  - exact H.
  - constructor; [intros [] | constructor].
  - intros a Ha [<-|[]]. exact (nextRowid_fresh seq ids Ha).
Qed.

Lemma insertChatMembers_ids (values : list (Z * Z * Role)) (now : Z) (s : Store) :
  NoDup (map ChatMember.id (chatMembers s)) ->
  NoDup (map ChatMember.id (chatMembers (insertChatMembers values now s))).
Proof.
  unfold insertChatMembers. revert s.
  induction values as [|[[c u] r] rest IH]; intros s H; cbn [fold_left];
    [exact H|].
  apply IH. cbn [insertChatMember chatMembers]. rewrite map_app.
  cbn [map ChatMember.id]. apply NoDup_snoc_fresh, H.
Qed.

Lemma perform_messages (bcryptHash : string -> string)
    (bcryptCompare : string -> string -> bool)
    (currentUser : option AuthUser.t) (now : Z) (r : Request) (s : Store) :
  messages (perform bcryptHash bcryptCompare currentUser now r s) = messages s
  \/ (exists m,
         messages (perform bcryptHash bcryptCompare currentUser now r s)
         = messages s ++ [m]
         /\ Message.id m
            = Sql.nextRowid (seqMessages s) (map Message.id (messages s)))
  \/ (exists messageId uid set,
         messages (perform bcryptHash bcryptCompare currentUser now r s)
         = messages (updateMessages messageId uid set s)
         /\ forall m, Message.id (set m) = Message.id m).
Proof.
  destruct r as [fd|fd| |targetUserId|name memberIds|c t rp|mid t|mid| |c|q| |fd];
    cbn [perform]; auto.
  - left. destruct (registerAction_store bcryptHash fd now s)
      as [->|(p & n & d & pw & u & H)]; [reflexivity|].
    apply insertUser_Some in H. destruct H as (_ & _ & ->). reflexivity.
  - left. destruct (loginAction_store bcryptCompare fd now s) as [->|(uid & ->)];
      reflexivity.
  - left. destruct currentUser; reflexivity.
  - left. destruct currentUser as [cu|]; [|reflexivity].
    unfold createPrivateChat.
    destruct (findPrivateChat s targetUserId (chatIdsOf s (AuthUser.id cu)));
      [reflexivity|].
    cbn [insertChat snd].
    match goal with
    | |- context [insertChatMembers ?v now ?s0] =>
        destruct (insertChatMembers_frame v now s0) as (_ & _ & Hm & _);
        rewrite Hm
    end.
    reflexivity.
  - left. destruct currentUser as [cu|]; [|reflexivity].
    unfold createGroupChat. cbn [insertChat snd].
    match goal with
    | |- context [insertChatMembers ?v now ?s0] =>
        destruct (insertChatMembers_frame v now s0) as (_ & _ & Hm & _);
        rewrite Hm
    end.
    reflexivity.
  - unfold sendMessage, insertMessage.
    destruct currentUser as [cu|]; [|auto].
    destruct (isEmpty (Js.trim t)); [auto|].
    right. left. eexists. split; reflexivity.
  - destruct currentUser as [cu|]; [|auto]. right. right.
    exists mid, (AuthUser.id cu), (setEdited t). split; reflexivity.
  - destruct currentUser as [cu|]; [|auto]. right. right.
    exists mid, (AuthUser.id cu), setDeleted. split; reflexivity.
  - left. destruct currentUser as [cu|]; [|reflexivity].
    destruct (updateProfile_store cu fd s) as [->|(d & b & H)]; [reflexivity|].
    remember (snd (updateProfile (Some cu) fd s)) as s1 eqn:Hs1. clear Hs1.
    unfold setProfile in H. destruct (_ && _); [discriminate|].
    injection H as <-. reflexivity.
Qed.

(** X8. Identifiers stay unique: every request keeps the primary keys of
    the four tables, so an identifier handed out once is never given to a
    second row. *)
Theorem primary_keys_are_invariant :
  forall (bcryptHash : string -> string)
         (bcryptCompare : string -> string -> bool)
         (currentUser : option AuthUser.t) (now : Z) (r : Request) (s : Store),
    primaryKeys s ->
    primaryKeys (perform bcryptHash bcryptCompare currentUser now r s).
Proof.
  intros bcryptHash bcryptCompare currentUser now r s (Hu & Hc & Hm & Hg).
  unfold primaryKeys. split; [|split; [|split]].
  - destruct (perform_users bcryptHash bcryptCompare currentUser now r s)
      as [->|[(p & n & d & h & u & s1 & Hins & ->)
             |[(uid & online & ->)|(cu & fd & d & b & s1 & _ & Hset & ->)]]].
    + exact Hu.
    + apply insertUser_Some in Hins. destruct Hins as (_ & Hrow & ->).
      cbn [users]. rewrite map_app, Hrow. cbn [map User.id].
      apply NoDup_snoc_fresh, Hu.
    + cbn [setPresence users]. rewrite map_map.
      erewrite map_ext; [exact Hu|].
      intros v. destruct (User.id v =? uid); reflexivity.
    + unfold setProfile in Hset. destruct (_ && _); [discriminate|].
      injection Hset as <-. cbn [users]. rewrite map_map.
      erewrite map_ext; [exact Hu|].
      intros v. destruct (User.id v =? AuthUser.id cu); reflexivity.
  - destruct r as [fd|fd| |targetUserId|name memberIds|c t rp|mid t|mid| |c|q| |fd];
      try (match goal with
           | |- context [perform _ _ _ _ ?r _] =>
               destruct (perform_frame bcryptHash bcryptCompare currentUser now
                           r s I) as [-> _]
           end; exact Hc);
      cbn [perform]; (destruct currentUser as [cu|]; [|exact Hc]).
    + destruct (createPrivateChat_rows cu targetUserId now s) as [->|[-> _]];
        [exact Hc|].
      rewrite map_app. cbn [map Chat.id]. apply NoDup_snoc_fresh, Hc.
    + destruct (createGroupChat_rows cu name memberIds now s) as (_ & -> & _).
      rewrite map_app. cbn [map Chat.id]. apply NoDup_snoc_fresh, Hc.
  - destruct r as [fd|fd| |targetUserId|name memberIds|c t rp|mid t|mid| |c|q| |fd];
      try (match goal with
           | |- context [perform _ _ _ _ ?r _] =>
               destruct (perform_frame bcryptHash bcryptCompare currentUser now
                           r s I) as [_ ->]
           end; exact Hm);
      cbn [perform]; (destruct currentUser as [cu|]; [|exact Hm]).
    + unfold createPrivateChat.
      destruct (findPrivateChat s targetUserId (chatIdsOf s (AuthUser.id cu)));
        [exact Hm|].
      cbn [insertChat snd]. apply insertChatMembers_ids. exact Hm.
    + unfold createGroupChat. cbn [insertChat snd].
      apply insertChatMembers_ids. exact Hm.
  - destruct (perform_messages bcryptHash bcryptCompare currentUser now r s)
      as [->|[(m & -> & Hid)|(mid & uid & set & -> & Hset)]].
    + exact Hg.
    + rewrite map_app. cbn [map]. rewrite Hid. apply NoDup_snoc_fresh, Hg.
    + cbn [updateMessages messages]. rewrite map_map.
      erewrite map_ext; [exact Hg|].
      intros m. destruct (_ && _); [apply Hset | reflexivity].
Qed.

Lemma primary_keys_are_invariant_witness :
  primaryKeys Demo.store
  /\ primaryKeys
       (perform Demo.hash Demo.compare (Some Demo.alice) 800
          (CreateGroupChat "g" [1; 2; 2]) Demo.store).
Proof.
  assert (H : primaryKeys Demo.store).
  { unfold primaryKeys. cbn. repeat split; nodup_concrete. }
  split; [exact H|].
  apply (primary_keys_are_invariant Demo.hash Demo.compare (Some Demo.alice) 800
           (CreateGroupChat "g" [1; 2; 2]) Demo.store H).
Defined.

(** ** More on the stable sort *)

Section SortAppend.
Context {A : Type} (before : A -> A -> bool).

Lemma insert_app (x : A) (l ys : list A) :
  (forall y, In y ys -> before x y = true) ->
  Js.insert before x (l ++ ys) = Js.insert before x l ++ ys.
Proof.
  intros H. induction l as [|z r IH]; cbn [app Js.insert].
  - destruct ys as [|y ys']; [reflexivity|].
    cbn [Js.insert]. rewrite (H y) by (left; reflexivity). reflexivity.
  - destruct (before x z); [reflexivity|]. rewrite IH. reflexivity.
Qed.

Lemma stableSort_fixed (ys : list A) :
  (forall a b, In a ys -> In b ys -> before a b = true) ->
  Js.stableSort before ys = ys.
Proof.
  induction ys as [|y r IH]; intros H; [reflexivity|].
  cbn [Js.stableSort fold_right]. fold (Js.stableSort before r).
  rewrite IH by (intros a b Ha Hb; apply H; right; assumption).
  destruct r as [|z r']; [reflexivity|]. cbn [Js.insert].
  rewrite (H y z) by (simpl; auto). reflexivity.
Qed.

Lemma stableSort_app (l ys : list A) :
  (forall x y, In x l -> In y ys -> before x y = true) ->
  Js.stableSort before (l ++ ys)
  = Js.stableSort before l ++ Js.stableSort before ys.
Proof.
  intros H. induction l as [|x r IH]; [reflexivity|].
  cbn [app Js.stableSort fold_right].
  fold (Js.stableSort before (r ++ ys)). fold (Js.stableSort before r).
  rewrite IH by (intros a b Ha Hb; apply H; [right|]; assumption).
  apply insert_app. intros y Hy.
  apply H; [left; reflexivity|].
  eapply Permutation_in; [apply stableSort_perm | exact Hy].
Qed.

(** An element that goes before every other one, and that no other one may
    stay in front of, comes first. *)
Lemma stableSort_snoc_first (l : list A) (y : A) :
  (forall x, In x l -> before x y = false) ->
  Js.stableSort before (l ++ [y]) = y :: Js.stableSort before l.
Proof.
  intros H. induction l as [|x r IH]; [reflexivity|].
  cbn [app Js.stableSort fold_right].
  fold (Js.stableSort before (r ++ [y])). fold (Js.stableSort before r).
  rewrite IH by (intros a Ha; apply H; right; assumption).
  cbn [Js.insert]. rewrite (H x) by (left; reflexivity). reflexivity.
Qed.

End SortAppend.

Lemma orderBy_sorted {A : Type} (key : A -> option Z) (rows : list A) :
  StronglySorted (fun a b => Sql.nullLeb (key a) (key b) = true)
    (Sql.orderBy key rows).
Proof.
  unfold Sql.orderBy.
  apply (stableSort_sorted (fun a b => Sql.nullLeb (key a) (key b))).
  - intros a b. apply nullLeb_total.
  - intros a b c. apply nullLeb_trans.
Qed.

(** ** Messages *)

(** X9. The list [getChatMessages] returns is in ascending order of
    creation time (rows without one first), holds rows of the asked chat
    only, and is empty without a session. *)
Theorem getChatMessages_ascending :
  forall (cu : option AuthUser.t) (c : Z) (s : Store),
    StronglySorted
      (fun a b =>
         Sql.nullLeb (MessageView.createdAt a) (MessageView.createdAt b) = true)
      (getChatMessages cu c s)
    /\ (forall v, In v (getChatMessages cu c s) -> MessageView.chatId v = c)
    /\ getChatMessages None c s = [].
Proof.
  intros cu c s. split; [|split].
  - destruct cu; [apply orderBy_sorted | constructor].
  - destruct cu as [u|]; [|intros v []].
    intros v Hv. unfold getChatMessages in Hv.
    apply (Permutation_in _ (orderBy_perm _ _)) in Hv.
    apply filter_In in Hv. apply Z.eqb_eq. tauto.
  - reflexivity.
Qed.

(** X10. A message that is sent shows at the end of the conversation: when
    the clock is not behind the creation times of the chat's messages,
    [getChatMessages] after a successful [sendMessage] is the list before it
    followed by the new message joined with the sender's row (by nothing if
    the sender has no row in [users]); the body is the trimmed text. *)
Theorem sendMessage_appends_to_conversation :
  forall (cu viewer : AuthUser.t) (c : Z) (text : string)
         (replyToId : option Z) (now : Z) (s s1 : Store) (m : Message.row),
    sendMessage (Some cu) c text replyToId now s = (Payload m, s1) ->
    (forall m0 t, In m0 (messages s) -> Message.chatId m0 = c ->
                  Message.createdAt m0 = Some t -> t <= now) ->
    Message.text m = Some (Js.trim text)
    /\ getChatMessages (Some viewer) c s1
       = getChatMessages (Some viewer) c s
         ++ map (messageView m)
              (filter (fun u => AuthUser.id cu =? User.id u) (users s)).
Proof.
  intros cu viewer c text replyToId now s s1 m Hsend Hclock.
  unfold sendMessage, insertMessage in Hsend.
  destruct (isEmpty (Js.trim text)); [discriminate|].
  injection Hsend as <- <-. split; [reflexivity|].
  unfold getChatMessages, joinSenders, Sql.orderBy.
  cbn [messages users]. rewrite flat_map_app, filter_app.
  set (m := Message.mk _ c (AuthUser.id cu) (Some (Js.trim text)) _ _ _ (Some now)).
  assert (Hnew : filter (fun v => MessageView.chatId v =? c)
                   (flat_map
                      (fun m0 => map (messageView m0)
                         (filter (fun u => Message.senderId m0 =? User.id u)
                            (users s))) [m])
                 = map (messageView m)
                     (filter (fun u => AuthUser.id cu =? User.id u) (users s))).
  { cbn [flat_map]. rewrite app_nil_r, filter_map_comm.
    cbn [messageView MessageView.chatId Message.chatId Message.senderId m].
    rewrite Z.eqb_refl.
    f_equal. induction (filter _ (users s)) as [|x r IH]; simpl; congruence. }
  rewrite Hnew. rewrite stableSort_app.
  - f_equal. apply stableSort_fixed. intros a b Ha Hb.
    apply in_map_iff in Ha, Hb.
    destruct Ha as (ua & <- & _), Hb as (ub & <- & _).
    cbn. apply Z.leb_refl.
  - intros x y Hx Hy. apply in_map_iff in Hy. destruct Hy as (u & <- & _).
    apply filter_In in Hx. destruct Hx as [Hx Hc]. apply Z.eqb_eq in Hc.
    apply in_flat_map in Hx. destruct Hx as (m0 & Hm0 & Hx).
    apply in_map_iff in Hx. destruct Hx as (u0 & <- & _).
    cbn [messageView MessageView.createdAt MessageView.chatId Message.createdAt m]
      in Hc |- *.
    destruct (Message.createdAt m0) as [t|] eqn:Ht; [|reflexivity].
    cbn [Sql.nullLeb]. apply Z.leb_le. eapply Hclock; eassumption.
Qed.

Lemma sendMessage_appends_to_conversation_witness :
  exists m s1,
    sendMessage (Some Demo.bob) 1 " see you " None 500 Demo.store = (Payload m, s1)
    /\ map MessageView.text (getChatMessages (Some Demo.alice) 1 s1)
       = [Some "hi"; Some "yo"; Some "see you"]%string.
Proof.
  eexists. eexists. split; [reflexivity|].
  rewrite (proj2 (sendMessage_appends_to_conversation Demo.bob Demo.alice 1
                    " see you " None 500 Demo.store _ _ eq_refl
                    ltac:(simpl; intros m0 t [<-|[<-|[<-|[<-|[]]]]] Hc [= <-];
                          solve [lia | discriminate Hc]))).
  reflexivity.
Defined.

(** X11. The sender's edit stores the new text exactly as given: it is not
    trimmed and not checked for being blank (unlike [sendMessage]), the edited
    flag becomes true, and every other field, the deleted flag included, stays;
    the action answers success. *)
Theorem editMessage_by_sender_stores_text_verbatim :
  forall (cu : AuthUser.t) (newText : string) (s : Store) (i : nat)
         (M : Message.row),
    nth_error (messages s) i = Some M ->
    Message.senderId M = AuthUser.id cu ->
    fst (editMessage (Some cu) (Message.id M) newText s) = Payload true
    /\ nth_error
         (messages (snd (editMessage (Some cu) (Message.id M) newText s))) i
       = Some (Message.mk (Message.id M) (Message.chatId M) (Message.senderId M)
                 (Some newText) (Message.replyToId M) (Some true)
                 (Message.isDeleted M) (Message.createdAt M))
    /\ List.length (messages (snd (editMessage (Some cu) (Message.id M) newText s)))
       = List.length (messages s).
Proof.
  intros cu newText s i M Hi Hs. split; [reflexivity|]. split.
  - apply (updateMessages_own (AuthUser.id cu) (setEdited newText) s i M Hi Hs).
  - cbn [editMessage snd updateMessages messages]. apply length_map.
Qed.

Lemma editMessage_by_sender_stores_text_verbatim_witness :
  nth_error
    (messages (snd (editMessage (Some Demo.alice) 1 "  " Demo.store))) 0
  = Some (Message.mk 1 1 1 (Some "  "%string) None (Some true) (Some false)
            (Some 110)).
Proof.
  apply (editMessage_by_sender_stores_text_verbatim Demo.alice "  " Demo.store
           0 Demo.hi eq_refl eq_refl).
Defined.

Lemma updateMessages_idem (messageId uid : Z) (set : Message.row -> Message.row)
    (s : Store) :
  (forall m, set (set m) = set m) ->
  (forall m, Message.id (set m) = Message.id m
             /\ Message.senderId (set m) = Message.senderId m) ->
  updateMessages messageId uid set (updateMessages messageId uid set s)
  = updateMessages messageId uid set s.
Proof.
  intros Hidem Hkeep. unfold updateMessages.
  cbn [users chats chatMembers messages seqUsers seqChats seqChatMembers
       seqMessages].
  f_equal. rewrite map_map. apply map_ext. intros m.
  destruct ((Message.id m =? messageId) && (Message.senderId m =? uid)) eqn:He.
  - destruct (Hkeep m) as [-> ->]. rewrite He. apply Hidem.
  - rewrite He. reflexivity.
Qed.

(** X12. Deleting is idempotent and owner-only: a second [deleteMessage] of
    the same message by the same user leaves the store as the first left it,
    and a [deleteMessage] by a user who is not the sender of a message leaves
    that message as it was while still answering success. *)
Theorem deleteMessage_idempotent_and_owner_only :
  forall (cu : AuthUser.t) (messageId : Z) (s : Store),
    deleteMessage (Some cu) messageId (snd (deleteMessage (Some cu) messageId s))
    = deleteMessage (Some cu) messageId s
    /\ (forall i M,
           nth_error (messages s) i = Some M ->
           Message.senderId M <> AuthUser.id cu ->
           nth_error (messages (snd (deleteMessage (Some cu) messageId s))) i
           = Some M).
Proof.
  intros cu messageId s. split.
  - cbn [deleteMessage snd]. f_equal.
    apply updateMessages_idem; intros m; [reflexivity | split; reflexivity].
  - intros i M Hi Hne.
    apply (updateMessages_other_sender messageId (AuthUser.id cu) _ s i M Hi Hne).
Qed.

Lemma deleteMessage_idempotent_and_owner_only_witness :
  nth_error (messages (snd (deleteMessage (Some Demo.bob) 1 Demo.store))) 0
  = Some Demo.hi.
Proof.
  apply (proj2 (deleteMessage_idempotent_and_owner_only Demo.bob 1 Demo.store)
           0%nat Demo.hi eq_refl).
  simpl. discriminate.
Defined.

(** ** Without a session *)


(** ** Chats *)






Section NewPrivateChatFirst.
Variables (s s1 : Store) (nc : Chat.row) (m1 m2 : ChatMember.row).
Hypothesis chats_s1 : chats s1 = chats s ++ [nc].
Hypothesis members_s1 : chatMembers s1 = chatMembers s ++ [m1; m2].
Hypothesis chat_m1 : ChatMember.chatId m1 = Chat.id nc.
Hypothesis chat_m2 : ChatMember.chatId m2 = Chat.id nc.

Lemma isPrivateChatWith_new_first :
  Chat.type nc = private ->
  (forall m, In m (chatMembers s) -> ChatMember.chatId m <> Chat.id nc) ->
  isPrivateChatWith s1 (ChatMember.userId m1) (Chat.id nc) = true.
Proof.
  intros Hty Hfresh. apply isPrivateChatWith_spec.
  assert (Hm : membersOf s1 (Chat.id nc) = [m1; m2]).
  { unfold membersOf. rewrite members_s1, filter_app. simpl.
    rewrite chat_m1, chat_m2, Z.eqb_refl.
    rewrite (filter_all_false _ (chatMembers s)); [reflexivity|].
    intros m Hin. apply Z.eqb_neq, Hfresh, Hin. }
  split; [|split].
  - exists nc. split; [|split; [reflexivity | exact Hty]].
    rewrite chats_s1. apply in_or_app. right. left. reflexivity.
  - rewrite Hm. reflexivity.
  - exists m1. split; [|reflexivity]. rewrite Hm. left. reflexivity.
Qed.

End NewPrivateChatFirst.

(** X15. The private chat is shared by the pair, whoever asks first: in a
    store that keeps the foreign key, when [a] had no private two-member chat
    with [b] and [createPrivateChat] by [a] for [b] created one, a following
    [createPrivateChat] by [b] for [a] answers that same chat and writes
    nothing. *)
Theorem createPrivateChat_is_symmetric :
  forall (a b : AuthUser.t) (now1 now2 : Z) (s : Store),
    foreignKeysHold s = true ->
    (forall c, ~ SharedPrivateChat s (AuthUser.id a) (AuthUser.id b) c) ->
    let c := Sql.nextRowid (seqChats s) (map Chat.id (chats s)) in
    let s1 := snd (createPrivateChat (Some a) (AuthUser.id b) now1 s) in
    fst (createPrivateChat (Some a) (AuthUser.id b) now1 s) = Payload c
    /\ createPrivateChat (Some b) (AuthUser.id a) now2 s1 = (Payload c, s1).
Proof.
  intros a b now1 now2 s Hfk Hnone c s1.
  assert (Hfind : findPrivateChat s (AuthUser.id b) (chatIdsOf s (AuthUser.id a))
                  = None).
  { apply findPrivateChat_None. intros c0 Hc0.
    apply not_true_is_false. intros Ht. apply (Hnone c0).
    split; [exact Hc0 | apply isPrivateChatWith_spec, Ht]. }
  unfold s1, createPrivateChat at 1 3 4. rewrite Hfind.
  cbn [insertChat insertChatMembers insertChatMember fold_left snd fst
       Chat.id chatMembers users chats messages seqUsers seqChats
       seqChatMembers seqMessages].
  fold c. split; [reflexivity|].
  match goal with |- createPrivateChat _ _ _ ?x = _ => set (s2 := x) end.
  set (nc := Chat.mk c private None None None (Some (AuthUser.id a)) (Some now1)).
  set (m1 := ChatMember.mk
               (Sql.nextRowid (seqChatMembers s) (map ChatMember.id (chatMembers s)))
               c (AuthUser.id a) member (Some now1)) in *.
  assert (Hmem : exists m2,
             chatMembers s2 = chatMembers s ++ [m1; m2]
             /\ ChatMember.chatId m2 = c /\ ChatMember.userId m2 = AuthUser.id b).
  { eexists. unfold s2. cbn [chatMembers]. rewrite <- app_assoc.
    split; [reflexivity|]. split; reflexivity. }
  destruct Hmem as (m2 & Hmem & Hc2 & Hu2).
  assert (Hchats : chats s2 = chats s ++ [nc]) by reflexivity.
  assert (Hfresh : forall m, In m (chatMembers s) ->
                             ChatMember.chatId m <> Chat.id nc).
  { intros m Hm. apply (nextChat_fresh s m Hfk Hm). }
  assert (Hold : forall c0, In c0 (chatIdsOf s (AuthUser.id b)) ->
                            c0 <> Chat.id nc).
  { intros c0 Hc0. destruct (chatIdsOf_In _ _ _ Hc0) as (m & Hm & <-).
    apply Hfresh, Hm. }
  assert (Hids : exists rest,
             chatIdsOf s2 (AuthUser.id b)
             = chatIdsOf s (AuthUser.id b) ++ rest
             /\ rest <> [] /\ forall x, In x rest -> x = c).
  { unfold chatIdsOf. rewrite Hmem, filter_app, map_app.
    eexists. split; [reflexivity|]. cbn [filter]. rewrite Hu2, Z.eqb_refl.
    destruct (ChatMember.userId m1 =? AuthUser.id b); cbn [map]; split;
      try discriminate.
    - intros x [<-|[<-|[]]]; [reflexivity | exact Hc2].
    - intros x [<-|[]]. exact Hc2. }
  destruct Hids as (rest & Hids & Hne & Hall).
  unfold createPrivateChat. rewrite Hids.
  (* no chat [b] already had passes the test for [a] *)
  assert (Hnone_b : findPrivateChat s2 (AuthUser.id a)
                      (chatIdsOf s (AuthUser.id b)) = None).
  { rewrite (findPrivateChat_old s s2 nc m1 m2 Hchats Hmem eq_refl Hc2 _ _ Hold).
    apply findPrivateChat_None. intros c0 Hc0.
    apply not_true_is_false. intros Ht.
    apply isPrivateChatWith_spec in Ht.
    destruct Ht as (Hch & Hlen & (m & Hm & Hma)).
    apply (Hnone c0). split; [|split; [exact Hch | split; [exact Hlen|]]].
    - unfold chatIdsOf. apply in_map_iff. exists m.
      unfold membersOf in Hm. apply filter_In in Hm. destruct Hm as [Hm Hmc].
      split; [apply Z.eqb_eq, Hmc|].
      apply filter_In. split; [exact Hm | apply Z.eqb_eq, Hma].
    - unfold chatIdsOf in Hc0. apply in_map_iff in Hc0.
      destruct Hc0 as (mb & Hmbc & Hmb). apply filter_In in Hmb.
      destruct Hmb as [Hmb Hmbu]. exists mb. split; [|apply Z.eqb_eq, Hmbu].
      unfold membersOf. apply filter_In. split; [exact Hmb|].
      apply Z.eqb_eq, Hmbc. }
  rewrite (findPrivateChat_app _ _ _ _ Hnone_b).
  destruct rest as [|x rest']; [congruence|].
  rewrite (Hall x) by (left; reflexivity).
  cbn [findPrivateChat].
  assert (Hnew : isPrivateChatWith s2 (AuthUser.id a) c = true).
  { apply (isPrivateChatWith_new_first s s2 nc m1 m2 Hchats Hmem eq_refl Hc2
             eq_refl Hfresh). }
  rewrite Hnew. reflexivity.
Qed.

Lemma createPrivateChat_is_symmetric_witness :
  createPrivateChat (Some Demo.dave) 2 901
    (snd (createPrivateChat (Some Demo.bob) 4 900 Demo.store))
  = (Payload 4, snd (createPrivateChat (Some Demo.bob) 4 900 Demo.store)).
Proof.
  apply (createPrivateChat_is_symmetric Demo.bob Demo.dave 900 901 Demo.store
           eq_refl).
  intros c (Hin & Hrest). apply isPrivateChatWith_spec in Hrest.
  simpl in Hin. destruct Hin as [<-|[<-|[]]]; vm_compute in Hrest;
    discriminate Hrest.
Defined.

(** ** More on the chat list *)

Lemma find_app_None {A : Type} (p : A -> bool) (l1 l2 : list A) :
  find p l1 = None -> find p (l1 ++ l2) = find p l2.
Proof.
  induction l1 as [|x r IH]; cbn [app find]; [reflexivity|].
  destruct (p x); [discriminate | exact IH].
Qed.

Lemma getUserChats_In (cu : AuthUser.t) (s : Store) (a : ChatSummary.t) :
  In a (getUserChats (Some cu) s) <->
  exists c, In c (chatIdsOf s (AuthUser.id cu)) /\ In a (chatSummary cu s c).
Proof.
  rewrite <- in_flat_map. fold (chatList cu s). split; intros H.
  - eapply Permutation_in; [apply getUserChats_perm | exact H].
  - eapply Permutation_in; [apply Permutation_sym, getUserChats_perm | exact H].
Qed.

Lemma chatSummary_inv (cu : AuthUser.t) (s : Store) (c : Z) (a : ChatSummary.t) :
  In a (chatSummary cu s c) ->
  ChatSummary.id a = c
  /\ ChatSummary.lastMessage a = hd_error (lastMsg s c)
  /\ ChatSummary.members a = memberInfos s c
  /\ exists ch,
       hd_error (filter (fun ch => Chat.id ch =? c) (chats s)) = Some ch
       /\ In ch (chats s)
       /\ ChatSummary.type a = Chat.type ch
       /\ ChatSummary.createdAt a = Chat.createdAt ch.
Proof.
  unfold chatSummary.
  destruct (filter (fun ch => Chat.id ch =? c) (chats s)) as [|chat0 rest] eqn:Hf;
    [intros []|].
  assert (Hin : In chat0 (filter (fun ch => Chat.id ch =? c) (chats s)))
    by (rewrite Hf; left; reflexivity).
  apply filter_In in Hin. destruct Hin as [Hin Hid]. apply Z.eqb_eq in Hid.
  intros [<-|[]]. cbn. repeat split; try assumption.
  exists chat0. auto.
Qed.

Lemma lastMsg_live (s : Store) (c : Z) :
  match hd_error (lastMsg s c) with
  | Some m => In m (messages s) /\ isLive c m = true
  | None => filter (isLive c) (messages s) = []
  end.
Proof.
  unfold lastMsg, Sql.limit.
  pose proof (orderByDesc_perm Message.createdAt (filter (isLive c) (messages s)))
    as Hperm.
  destruct (Sql.orderByDesc Message.createdAt (filter (isLive c) (messages s)))
    as [|h r].
  - cbn. apply Permutation_nil in Hperm. exact Hperm.
  - cbn. apply filter_In. eapply Permutation_in; [exact Hperm|].
    left. reflexivity.
Qed.

(** X16. The last message of a chat summary is never a deleted one: for
    every summary [getUserChats] returns, the last message, when there is one,
    is a row of [messages] of that chat whose deleted flag is false, so the
    line the chat list shows under the chat is the text of a live message;
    when there is none, the chat has no live message and the line reads
    [No messages yet]. *)
Theorem getUserChats_last_message_is_live :
  forall (cu : AuthUser.t) (s : Store) (a : ChatSummary.t),
    In a (getUserChats (Some cu) s) ->
    match ChatSummary.lastMessage a with
    | Some m =>
        In m (messages s)
        /\ Message.chatId m = ChatSummary.id a
        /\ Message.isDeleted m = Some false
        /\ Ui.listPreview a = Js.orElse (Message.text m) "No messages yet"
    | None =>
        (forall m, In m (messages s) -> Message.chatId m = ChatSummary.id a ->
                   Message.isDeleted m <> Some false)
        /\ Ui.listPreview a = "No messages yet"%string
    end.
Proof.
  intros cu s a Ha. apply getUserChats_In in Ha. destruct Ha as (c & _ & Ha).
  apply chatSummary_inv in Ha. destruct Ha as (Hid & Hlast & _).
  unfold Ui.listPreview. rewrite Hlast, Hid.
  pose proof (lastMsg_live s c) as Hl.
  destruct (hd_error (lastMsg s c)) as [m|].
  - destruct Hl as [Hm Hlive]. unfold isLive in Hlive.
    apply andb_true_iff in Hlive. destruct Hlive as [Hc Hd].
    apply Z.eqb_eq in Hc.
    repeat split; try assumption.
    destruct (Message.isDeleted m) as [[|]|]; congruence.
  - split; [|reflexivity]. intros m Hm Hc Hd.
    assert (Hin : In m (filter (isLive c) (messages s))).
    { apply filter_In. split; [exact Hm|]. unfold isLive.
      rewrite Hc, Z.eqb_refl, Hd. reflexivity. }
    rewrite Hl in Hin. exact Hin.
Qed.

Lemma getUserChats_last_message_is_live_witness :
  exists a,
    In a (getUserChats (Some Demo.bob) Demo.store)
    /\ ChatSummary.id a = 2
    /\ Ui.listPreview a = "hello team"%string.
Proof.
  eexists. split; [left; reflexivity|]. split; [reflexivity|].
  pose proof (getUserChats_last_message_is_live Demo.bob Demo.store _
                (or_introl eq_refl)) as H.
  cbn in H. destruct H as (_ & _ & _ & H). exact H.
Defined.

(** X17. A private chat shows under the name of the other person: when the
    membership of a private chat is the requester and one other user (in
    either order) and that user has one row in [users], the summary
    [getUserChats] builds for the chat carries that user's display name,
    avatar and online state, not the columns of the chat row. *)
Theorem private_chat_is_named_after_the_other_user :
  forall (cu : AuthUser.t) (s : Store) (a : ChatSummary.t) (other : User.row),
    In a (getUserChats (Some cu) s) ->
    ChatSummary.type a = private ->
    User.id other <> AuthUser.id cu ->
    (map ChatMember.userId (membersOf s (ChatSummary.id a))
     = [AuthUser.id cu; User.id other]
     \/ map ChatMember.userId (membersOf s (ChatSummary.id a))
        = [User.id other; AuthUser.id cu]) ->
    filter (fun u => User.id other =? User.id u) (users s) = [other] ->
    ChatSummary.name a = Some (User.displayName other)
    /\ ChatSummary.avatarUrl a = User.avatarUrl other
    /\ ChatSummary.otherUserOnline a = orFalse (User.isOnline other).
Proof.
  intros cu s a other Ha Hty Hne Hmem Hrow.
  apply getUserChats_In in Ha. destruct Ha as (c & _ & Ha).
  pose proof (chatSummary_inv cu s c a Ha) as (Hid & _ & _ & ch & Hhd & _ & Hty' & _).
  rewrite Hid in Hmem. unfold chatSummary in Ha.
  destruct (filter (fun ch => Chat.id ch =? c) (chats s)) as [|chat0 rest];
    [destruct Ha|].
  injection Hhd as ->. rewrite Hty in Hty'. rewrite <- Hty' in Ha.
  assert (Hfind :
            exists o,
              find (fun m => negb (MemberInfo.userId m =? AuthUser.id cu))
                (memberInfos s c) = Some o
              /\ MemberInfo.displayName o = User.displayName other
              /\ MemberInfo.avatarUrl o = User.avatarUrl other
              /\ MemberInfo.isOnline o = User.isOnline other).
  { unfold memberInfos.
    assert (Hskip : forall m l,
               ChatMember.userId m = AuthUser.id cu ->
               find (fun i => negb (MemberInfo.userId i =? AuthUser.id cu))
                 (map (fun u => MemberInfo.mk (ChatMember.userId m)
                                  (ChatMember.role m) (User.username u)
                                  (User.displayName u) (User.avatarUrl u)
                                  (User.isOnline u) (User.lastSeen u)) l)
               = None).
    { intros m l Hm.
      induction l as [|u r IH]; cbn [map find MemberInfo.userId];
        [reflexivity|].
      destruct (ChatMember.userId m =? AuthUser.id cu) eqn:E;
        [exact IH | apply Z.eqb_neq in E; contradiction]. }
    assert (Hother : forall m,
               ChatMember.userId m = User.id other ->
               map (fun u => MemberInfo.mk (ChatMember.userId m)
                               (ChatMember.role m) (User.username u)
                               (User.displayName u) (User.avatarUrl u)
                               (User.isOnline u) (User.lastSeen u))
                 (filter (fun u => ChatMember.userId m =? User.id u) (users s))
               = [MemberInfo.mk (User.id other) (ChatMember.role m)
                    (User.username other) (User.displayName other)
                    (User.avatarUrl other) (User.isOnline other)
                    (User.lastSeen other)]).
    { intros m Hm. rewrite Hm, Hrow. reflexivity. }
    apply Z.eqb_neq in Hne.
    destruct (membersOf s c) as [|ma [|mb [|mc r]]]; cbn [map] in Hmem;
      try (destruct Hmem; discriminate).
    destruct Hmem as [[= Ha1 Hb1]|[= Ha1 Hb1]]; cbn [flat_map].
    - rewrite (Hother mb Hb1). cbn [app].
      rewrite (find_app_None _ _ _ (Hskip ma _ Ha1)).
      cbn [find MemberInfo.userId]. rewrite Hne. cbn [negb].
      eexists. split; [reflexivity|]. auto.
    - rewrite (Hother ma Ha1). cbn [app find MemberInfo.userId].
      rewrite Hne. cbn [negb]. eexists. split; [reflexivity|]. auto. }
  destruct Hfind as (o & Hfind & Hn & Hav & Hon).
  rewrite Hfind in Ha. destruct Ha as [<-|[]]. cbn.
  rewrite Hn, Hav, Hon. auto.
Qed.

Lemma private_chat_is_named_after_the_other_user_witness :
  exists a,
    In a (getUserChats (Some Demo.bob) Demo.store)
    /\ ChatSummary.id a = 1
    /\ ChatSummary.name a = Some "Alice"%string.
Proof.
  eexists. split; [right; left; reflexivity|]. split; [reflexivity|].
  apply (private_chat_is_named_after_the_other_user Demo.bob Demo.store _
           (User.mk 1 "alice" "+100" "$2a$10$a" "Alice" (Some "I like tea"%string)
              None (Some 10) (Some true) (Some 10))).
  - right. left. reflexivity.
  - reflexivity.
  - discriminate.
  - right. reflexivity.
  - reflexivity.
Defined.

Lemma sortTime_lt (a : ChatSummary.t) (bound : Z) :
  0 < bound ->
  (forall m t, ChatSummary.lastMessage a = Some m ->
               Message.createdAt m = Some t -> t < bound) ->
  (forall t, ChatSummary.createdAt a = Some t -> t < bound) ->
  sortTime a < 1000 * bound.
Proof.
  intros Hb Hm Hc. unfold sortTime, Js.orNum, Js.getTime.
  destruct (ChatSummary.lastMessage a) as [m|].
  - destruct (Message.createdAt m) as [t|] eqn:Ht; cbn [option_map].
    + specialize (Hm m t eq_refl Ht).
      destruct (1000 * t =? 0) eqn:Hz.
      * destruct (ChatSummary.createdAt a) as [t'|]; cbn [option_map].
        -- specialize (Hc t' eq_refl).
           destruct (1000 * t' =? 0); [lia|].
           destruct (1000 * t' =? 0); lia.
        -- lia.
      * rewrite Hz. lia.
    + destruct (ChatSummary.createdAt a) as [t'|]; cbn [option_map]; [|lia].
      specialize (Hc t' eq_refl).
      destruct (1000 * t' =? 0); [lia|]. destruct (1000 * t' =? 0); lia.
  - destruct (ChatSummary.createdAt a) as [t'|]; cbn [option_map]; [|lia].
    specialize (Hc t' eq_refl).
    destruct (1000 * t' =? 0); [lia|]. destruct (1000 * t' =? 0); lia.
Qed.

Lemma allBefore_spec (now : Z) (s : Store) :
  allBefore now s = true ->
  0 < now
  /\ (forall m t, In m (messages s) -> Message.createdAt m = Some t -> t < now)
  /\ (forall c t, In c (chats s) -> Chat.createdAt c = Some t -> t < now).
Proof.
  unfold allBefore. rewrite !andb_true_iff, !forallb_forall.
  intros [[H0 Hm] Hc]. split; [apply Z.ltb_lt, H0|]. split.
  - intros m t Hin Ht. specialize (Hm m Hin). rewrite Ht in Hm.
    apply Z.ltb_lt, Hm.
  - intros c t Hin Ht. specialize (Hc c Hin). rewrite Ht in Hc.
    apply Z.ltb_lt, Hc.
Qed.

(** X18. Sending a message moves the chat to the top of the sender's list:
    when the clock reads later than every creation time in the store and the
    sender is a member of the chat (which has a row), [getUserChats] for the
    sender after a successful [sendMessage] starts with that chat, and its
    last message is the message just sent. *)
Theorem sendMessage_moves_chat_to_top :
  forall (cu : AuthUser.t) (c : Z) (text : string) (replyToId : option Z)
         (now : Z) (s s1 : Store) (m : Message.row),
    sendMessage (Some cu) c text replyToId now s = (Payload m, s1) ->
    allBefore now s = true ->
    In c (chatsOf s (AuthUser.id cu)) ->
    exists a rest,
      getUserChats (Some cu) s1 = a :: rest
      /\ ChatSummary.id a = c
      /\ ChatSummary.lastMessage a = Some m.
Proof.
  intros cu c text replyToId now s s1 m Hsend Hbefore Hmember.
  apply allBefore_spec in Hbefore. destruct Hbefore as (Hnow & Hmsgs & Hchats).
  unfold sendMessage, insertMessage in Hsend.
  destruct (isEmpty (Js.trim text)); [discriminate|].
  injection Hsend as Hm Hs1.
  assert (Hmc : Message.chatId m = c) by (rewrite <- Hm; reflexivity).
  assert (Hmt : Message.createdAt m = Some now) by (rewrite <- Hm; reflexivity).
  assert (Hmd : Message.isDeleted m = Some false) by (rewrite <- Hm; reflexivity).
  assert (Hmessages : messages s1 = messages s ++ [m])
    by (rewrite <- Hs1, <- Hm; reflexivity).
  assert (Hc1 : chats s1 = chats s) by (rewrite <- Hs1; reflexivity).
  assert (Hcm1 : chatMembers s1 = chatMembers s) by (rewrite <- Hs1; reflexivity).
  clear Hm Hs1.
  (* the last message of the chat is the new one *)
  assert (Hlast : lastMsg s1 c = [m]).
  { unfold lastMsg, Sql.orderByDesc. rewrite Hmessages, filter_app.
    cbn [filter]. unfold isLive at 2. rewrite Hmc, Z.eqb_refl, Hmd.
    cbn [andb]. rewrite stableSort_snoc_first; [reflexivity|].
    intros x Hx. apply filter_In in Hx. destruct Hx as [Hx _].
    rewrite Hmt. destruct (Message.createdAt x) as [t|] eqn:Ht; [|reflexivity].
    cbn [Sql.nullLeb]. apply Z.leb_gt. eapply Hmsgs; eassumption. }
  (* the last message of another chat is an older one *)
  assert (Hother : forall c', c' <> c -> lastMsg s1 c' = lastMsg s c').
  { intros c' Hne. unfold lastMsg. rewrite Hmessages, filter_app.
    cbn [filter]. unfold isLive at 2. rewrite Hmc.
    assert (He : (c =? c') = false) by (apply Z.eqb_neq; congruence).
    rewrite He. cbn [andb]. rewrite app_nil_r. reflexivity. }
  (* the summary of the chat is in the list and its key is the clock *)
  assert (Hac : exists a, In a (getUserChats (Some cu) s1)
                          /\ In a (chatSummary cu s1 c)).
  { unfold chatsOf in Hmember. apply filter_In in Hmember.
    destruct Hmember as [Hin Hex].
    assert (Hne : chatSummary cu s1 c <> []).
    { unfold chatSummary. rewrite Hc1.
      apply existsb_exists in Hex. destruct Hex as (ch & Hch & Hid).
      destruct (filter (fun ch => Chat.id ch =? c) (chats s)) as [|ch0 r] eqn:Hf;
        [|discriminate].
      assert (Hin' : In ch (filter (fun ch => Chat.id ch =? c) (chats s)))
        by (apply filter_In; auto).
      rewrite Hf in Hin'. destruct Hin'. }
    destruct (chatSummary cu s1 c) as [|a r] eqn:Hsum; [congruence|].
    exists a. split; [|left; reflexivity].
    apply getUserChats_In. exists c. split.
    - unfold chatIdsOf in *. rewrite Hcm1. exact Hin.
    - rewrite Hsum. left. reflexivity. }
  destruct Hac as (ac & Hac & Hacs).
  assert (Hkey : sortTime ac = 1000 * now).
  { apply chatSummary_inv in Hacs. destruct Hacs as (_ & Hl & _).
    unfold sortTime. rewrite Hl, Hlast. cbn [hd_error]. rewrite Hmt.
    cbn [option_map Js.orNum]. unfold Js.getTime.
    destruct (1000 * now =? 0) eqn:Hz; [apply Z.eqb_eq in Hz; lia|].
    cbn [Js.orNum]. rewrite Hz. reflexivity. }
  pose proof (getUserChats_sorted_by_sortTime cu s1) as Hsorted.
  destruct (getUserChats (Some cu) s1) as [|h rest] eqn:Hlist; [destruct Hac|].
  exists h, rest. split; [reflexivity|].
  assert (Hge : sortTime ac <= sortTime h).
  { apply StronglySorted_inv in Hsorted. destruct Hsorted as [_ Hall].
    rewrite Forall_forall in Hall.
    destruct Hac as [->|Hin]; [lia | apply Hall, Hin]. }
  assert (Hh : In h (getUserChats (Some cu) s1))
    by (rewrite Hlist; left; reflexivity).
  apply getUserChats_In in Hh. destruct Hh as (c' & _ & Hh).
  pose proof (chatSummary_inv cu s1 c' h Hh)
    as (Hid & Hl & _ & ch & _ & Hch & _ & Hcreated).
  destruct (Z.eq_dec c' c) as [->|Hne].
  - split; [exact Hid|]. rewrite Hl, Hlast. reflexivity.
  - exfalso.
    assert (Hlt : sortTime h < 1000 * now).
    { apply sortTime_lt; [exact Hnow| |].
      - intros m0 t Hm0 Ht. rewrite Hl, (Hother c' Hne) in Hm0.
        pose proof (lastMsg_live s c') as Hlive. rewrite Hm0 in Hlive.
        destruct Hlive as [Hin _]. eapply Hmsgs; eassumption.
      - intros t Ht. rewrite Hcreated in Ht. rewrite Hc1 in Hch.
        eapply Hchats; eassumption. }
    lia.
Qed.

Lemma sendMessage_moves_chat_to_top_witness :
  exists m s1,
    sendMessage (Some Demo.alice) 3 "hello carol" None 1000 Demo.store
    = (Payload m, s1)
    /\ map ChatSummary.id (getUserChats (Some Demo.alice) Demo.store) = [2; 3; 1]
    /\ exists a rest,
         getUserChats (Some Demo.alice) s1 = a :: rest
         /\ ChatSummary.id a = 3
         /\ ChatSummary.lastMessage a = Some m.
Proof.
  eexists. eexists. split; [reflexivity|]. split; [reflexivity|].
  apply (sendMessage_moves_chat_to_top Demo.alice 3 "hello carol" None 1000
           Demo.store _ _ eq_refl eq_refl).
  right. right. left. reflexivity.
Defined.

(** ** Search, again *)

Lemma filter_twice {A : Type} (p q : A -> bool) (l : list A) :
  filter p (filter q l) = filter (fun x => q x && p x) l.
Proof.
  induction l as [|x r IH]; simpl; [reflexivity|].
  destruct (q x); simpl; [|exact IH]. destruct (p x); rewrite IH; reflexivity.
Qed.

Lemma firstn_incl {A : Type} (n : nat) (l : list A) (x : A) :
  In x (firstn n l) -> In x l.
Proof.
  intros H. rewrite <- (firstn_skipn n l). apply in_or_app. left. exact H.
Qed.

(** X19. What [searchUsers] finds.  A query that is blank after trimming
    finds nobody.  Every row found is a stored user other than the requester
    whose username is LIKE the lower-cased query or whose display name is LIKE
    the query, each between two [%].  When at most 20 stored users match, the
    result is all of them but the requester, in the order of the table. *)
Theorem searchUsers_finds_the_matches :
  forall (cu : AuthUser.t) (query : string) (s : Store),
    let matches (u : User.row) :=
      Sql.like (User.username u) ("%" ++ Js.toLowerCase query ++ "%")%string
      || Sql.like (User.displayName u) ("%" ++ query ++ "%")%string in
    (Js.trim query = EmptyString -> searchUsers (Some cu) query s = [])
    /\ (forall r,
           In r (searchUsers (Some cu) query s) ->
           exists u,
             In u (users s) /\ r = searchUser u /\ matches u = true
             /\ User.id u <> AuthUser.id cu)
    /\ (Js.trim query <> EmptyString ->
        (List.length (filter matches (users s)) <= 20)%nat ->
        searchUsers (Some cu) query s
        = map searchUser
            (filter (fun u => matches u && negb (User.id u =? AuthUser.id cu))
               (users s))).
Proof.
  intros cu query s matches.
  assert (Hcode : searchUsers (Some cu) query s
                  = if isEmpty (Js.trim query) then []
                    else filter (fun r => negb (SearchUser.id r =? AuthUser.id cu))
                           (firstn 20 (map searchUser (filter matches (users s))))).
  { unfold searchUsers, Sql.limit. destruct (isEmpty (Js.trim query));
      [reflexivity|].
    do 3 f_equal. apply filter_ext. intros u. unfold matches.
    rewrite Z.eqb_refl. apply andb_true_r. }
  rewrite Hcode. clear Hcode.
  split; [|split].
  - intros Hq. rewrite Hq. reflexivity.
  - intros r Hr.
    destruct (isEmpty (Js.trim query)); [destruct Hr|].
    apply filter_In in Hr. destruct Hr as [Hr Hne].
    apply firstn_incl in Hr.
    apply in_map_iff in Hr. destruct Hr as (u & <- & Hu).
    apply filter_In in Hu. destruct Hu as [Hu Hm].
    exists u. repeat split; try assumption.
    cbn [searchUser SearchUser.id] in Hne.
    apply Z.eqb_neq. destruct (User.id u =? AuthUser.id cu);
      [discriminate | reflexivity].
  - intros Hq Hlen.
    destruct (Js.trim query) as [|c0 q0]; [congruence|]. cbn [isEmpty].
    rewrite firstn_all2 by (rewrite length_map; exact Hlen).
    rewrite filter_map_comm, filter_twice. reflexivity.
Qed.

Lemma searchUsers_finds_the_matches_witness :
  map SearchUser.id (searchUsers (Some Demo.alice) "A" Demo.store) = [3; 4].
Proof.
  rewrite (proj2 (proj2 (searchUsers_finds_the_matches Demo.alice "A" Demo.store))).
  - reflexivity.
  - discriminate.
  - vm_compute. lia.
Defined.

(** ** Profile, again *)

(** X20. What [updateProfile] wrote is what [getUserProfile] reads: after a
    successful update by a user who has a row, the profile read back carries
    the submitted display name, the submitted bio (the empty string when it
    was omitted or empty), the submitted username in lower case (the
    session's username when it was omitted or empty), and the identifier,
    phone, avatar and creation time the profile had before. *)
Theorem updateProfile_then_getUserProfile :
  forall (cu : AuthUser.t) (formData : Js.FormData) (s s1 : Store)
         (before : Profile.t),
    updateProfile (Some cu) formData s = (Payload true, s1) ->
    getUserProfile (Some cu) s = Some before ->
    exists after,
      getUserProfile (Some cu) s1 = Some after
      /\ Some (Profile.displayName after) = Js.get formData "displayName"
      /\ Profile.bio after = Some (Js.orElse (Js.get formData "bio") EmptyString)
      /\ Profile.username after
         = Js.orElse (option_map Js.toLowerCase (Js.get formData "username"))
             (AuthUser.username cu)
      /\ Profile.id after = Profile.id before
      /\ Profile.phone after = Profile.phone before
      /\ Profile.avatarUrl after = Profile.avatarUrl before
      /\ Profile.createdAt after = Profile.createdAt before.
Proof.
  intros cu formData s s1 before Hup Hget.
  unfold updateProfile in Hup.
  destruct (Js.get formData "displayName") as [[|c0 d0]|] eqn:Hd;
    cbn [Js.truthy negb] in Hup; try discriminate.
  cbn [Js.orElse] in Hup.
  destruct (setProfile _ _ _ _ s) as [s1'|] eqn:Hset; [|discriminate].
  injection Hup as ->. unfold setProfile in Hset.
  destruct (_ && _); [discriminate|]. injection Hset as <-.
  unfold getUserProfile in *. cbn [users].
  rewrite filter_map_comm.
  rewrite (filter_ext _ (fun u => User.id u =? AuthUser.id cu)).
  - destruct (filter (fun u => User.id u =? AuthUser.id cu) (users s))
      as [|u r] eqn:Hf; [discriminate|].
    injection Hget as <-. cbn [map].
    assert (Hin : In u (filter (fun u => User.id u =? AuthUser.id cu) (users s)))
      by (rewrite Hf; left; reflexivity).
    apply filter_In in Hin. destruct Hin as [_ Hid]. rewrite Hid.
    eexists. split; [reflexivity|]. cbn. repeat split.
  - intros u. destruct (User.id u =? AuthUser.id cu) eqn:He; [|exact He].
    cbn [User.id]. exact He.
Qed.

Lemma updateProfile_then_getUserProfile_witness :
  exists s1 after,
    updateProfile (Some Demo.bob)
      [ ("displayName", "Bobby"); ("bio", "hi"); ("username", "Bob_B") ]%string
      Demo.store = (Payload true, s1)
    /\ getUserProfile (Some Demo.bob) s1 = Some after
    /\ Profile.username after = "bob_b"%string.
Proof.
  destruct (updateProfile_then_getUserProfile Demo.bob
              [ ("displayName", "Bobby"); ("bio", "hi"); ("username", "Bob_B") ]%string
              Demo.store _ _ eq_refl eq_refl)
    as (after & Hget & _ & _ & Hname & _).
  eexists. exists after. split; [reflexivity|]. split; [exact Hget|exact Hname].
Defined.

(** X21. [updateProfile] does not look for the new username before it
    writes: when another user already holds the submitted username (in lower
    case) and the requester has a row, the unique index refuses the update,
    the action ends in the store's exception instead of an error reply, and
    nothing is written. *)
Theorem updateProfile_taken_username_raises :
  forall (cu : AuthUser.t) (formData : Js.FormData) (s : Store)
         (displayName username : string) (u v : User.row),
    Js.get formData "displayName" = Some displayName ->
    displayName <> EmptyString ->
    Js.get formData "username" = Some username ->
    username <> EmptyString ->
    In u (users s) -> User.id u = AuthUser.id cu ->
    In v (users s) -> User.id v <> AuthUser.id cu ->
    User.username v = Js.toLowerCase username ->
    updateProfile (Some cu) formData s = (StoreException, s).
Proof.
  intros cu formData s displayName username u v Hd Hdne Hn Hnne Hu Hid Hv Hvid
         Hname.
  unfold updateProfile. rewrite Hd, Hn.
  destruct displayName as [|c0 d0]; [congruence|].
  destruct username as [|c1 n1]; [congruence|].
  cbn [Js.truthy negb option_map Js.toLowerCase Js.orElse].
  unfold setProfile.
  assert (H1 : existsb (fun u => User.id u =? AuthUser.id cu) (users s) = true).
  { apply existsb_exists. exists u. split; [exact Hu | apply Z.eqb_eq, Hid]. }
  rewrite H1. cbn [andb].
  match goal with
  | |- context [existsb ?f (users s)] =>
      assert (H2 : existsb f (users s) = true)
  end.
  { apply existsb_exists. exists v. split; [exact Hv|].
    apply Z.eqb_neq in Hvid. rewrite Hvid, Hname. cbn [negb andb].
    apply String.eqb_refl. }
  rewrite H2. reflexivity.
Qed.

Lemma updateProfile_taken_username_raises_witness :
  updateProfile (Some Demo.bob)
    [ ("displayName", "Bob"); ("username", "Carol") ]%string Demo.store
  = (StoreException, Demo.store).
Proof.
  apply (updateProfile_taken_username_raises Demo.bob
           [ ("displayName", "Bob"); ("username", "Carol") ]%string Demo.store
           "Bob" "Carol"
           (User.mk 2 "bob" "+200" "$2a$10$b" "Bob" (Some EmptyString) None
              (Some 11) (Some false) (Some 11))
           (User.mk 3 "carol" "+300" "$2a$10$c" "Carol" (Some EmptyString) None
              (Some 12) (Some false) (Some 12))).
  - reflexivity.
  - discriminate.
  - reflexivity.
  - discriminate.
  - right. left. reflexivity.
  - reflexivity.
  - right. right. left. reflexivity.
  - discriminate.
  - reflexivity.
Defined.

(** ** LIKE as a substring test *)

Lemma likeMatch_percent (p t : string) :
  Sql.likeMatch (String "%"%char p) t
  = Sql.likeMatch p t
    || match t with
       | EmptyString => false
       | String _ t' => Sql.likeMatch (String "%"%char p) t'
       end.
Proof. destruct t; reflexivity. Qed.

Lemma likeMatch_any (t : string) : Sql.likeMatch "%" t = true.
Proof.
  induction t as [|d t' IH]; [reflexivity|].
  rewrite likeMatch_percent, IH. apply orb_true_r.
Qed.

Lemma likeMatch_plain_prefix (q t : string) :
  Text.plain q = true ->
  Sql.likeMatch (q ++ "%") t = Text.prefixCI q t.
Proof.
  revert t. induction q as [|c q' IH]; intros t Hplain.
  - cbn [String.append]. rewrite likeMatch_any. reflexivity.
  - unfold Text.plain in Hplain. cbn [Js.allChars] in Hplain.
    apply andb_true_iff in Hplain. destruct Hplain as [Hc Hq].
    apply andb_true_iff in Hc. destruct Hc as [Hpc Hus].
    apply negb_true_iff in Hpc, Hus.
    cbn [String.append Sql.likeMatch Text.prefixCI]. rewrite Hpc.
    destruct t as [|d t']; [reflexivity|].
    rewrite Hus. cbn [orb]. rewrite (IH t' Hq). reflexivity.
Qed.

Lemma like_plain_contains (q t : string) :
  Text.plain q = true ->
  Sql.like t ("%" ++ q ++ "%") = Text.containsCI q t.
Proof.
  intros Hplain. unfold Sql.like. cbn [String.append].
  induction t as [|d t' IH].
  - rewrite likeMatch_percent, likeMatch_plain_prefix by exact Hplain.
    cbn [Text.containsCI]. reflexivity.
  - rewrite likeMatch_percent, likeMatch_plain_prefix by exact Hplain.
    cbn [Text.containsCI]. rewrite IH. reflexivity.
Qed.

Lemma lowerChar_plain (c : ascii) :
  negb (Ascii.eqb c "%"%char) && negb (Ascii.eqb c "_"%char) = true ->
  negb (Ascii.eqb (Js.lowerChar c) "%"%char)
  && negb (Ascii.eqb (Js.lowerChar c) "_"%char) = true.
Proof.
  destruct c as [[] [] [] [] [] [] [] []]; intros H;
    solve [discriminate H | reflexivity].
Qed.

Lemma toLowerCase_plain (q : string) :
  Text.plain q = true -> Text.plain (Js.toLowerCase q) = true.
Proof.
  unfold Text.plain. induction q as [|c q' IH]; cbn [Js.toLowerCase Js.allChars];
    [reflexivity|].
  rewrite !andb_true_iff. intros [Hc Hq]. split; [|apply IH, Hq].
  apply andb_true_iff. apply lowerChar_plain. apply andb_true_iff. exact Hc.
Qed.

(** X22. For a query without [%] and [_], the search is a substring test
    that ignores ASCII letter case on both columns: a stored user matches
    exactly when the username contains the lower-cased query or the display
    name contains the query, letter case aside; when at most 20 users match,
    every such user but the requester is returned. *)
Theorem searchUsers_is_substring_search :
  forall (cu : AuthUser.t) (query : string) (s : Store),
    Text.plain query = true ->
    Js.trim query <> EmptyString ->
    let matches (u : User.row) :=
      Text.containsCI (Js.toLowerCase query) (User.username u)
      || Text.containsCI query (User.displayName u) in
    (forall r,
        In r (searchUsers (Some cu) query s) ->
        exists u, In u (users s) /\ r = searchUser u /\ matches u = true)
    /\ ((List.length (filter matches (users s)) <= 20)%nat ->
        forall u,
          In u (users s) -> matches u = true ->
          User.id u <> AuthUser.id cu ->
          In (searchUser u) (searchUsers (Some cu) query s)).
Proof.
  intros cu query s Hplain Hq matches.
  assert (Hsame : forall u,
             Sql.like (User.username u) ("%" ++ Js.toLowerCase query ++ "%")
             || Sql.like (User.displayName u) ("%" ++ query ++ "%")
             = matches u).
  { intros u. unfold matches.
    rewrite (like_plain_contains _ _ (toLowerCase_plain query Hplain)).
    rewrite (like_plain_contains _ _ Hplain). reflexivity. }
  assert (Hcode : searchUsers (Some cu) query s
                  = filter (fun r => negb (SearchUser.id r =? AuthUser.id cu))
                      (firstn 20 (map searchUser (filter matches (users s))))).
  { unfold searchUsers, Sql.limit.
    destruct (Js.trim query) as [|c0 q0]; [congruence|]. cbn [isEmpty].
    do 3 f_equal. apply filter_ext. intros u.
    rewrite Hsame, Z.eqb_refl. apply andb_true_r. }
  rewrite Hcode. split.
  - intros r Hr. apply filter_In in Hr. destruct Hr as [Hr _].
    apply firstn_incl in Hr. apply in_map_iff in Hr.
    destruct Hr as (u & <- & Hu). apply filter_In in Hu.
    exists u. tauto.
  - intros Hlen u Hu Hm Hne.
    rewrite firstn_all2 by (rewrite length_map; exact Hlen).
    apply filter_In. split.
    + apply in_map, filter_In. auto.
    + cbn [searchUser SearchUser.id]. apply Z.eqb_neq in Hne. rewrite Hne.
      reflexivity.
Qed.

Lemma searchUsers_is_substring_search_witness :
  In (searchUser
        (User.mk 3 "carol" "+300" "$2a$10$c" "Carol" (Some EmptyString) None
           (Some 12) (Some false) (Some 12)))
    (searchUsers (Some Demo.alice) "aRO" Demo.store).
Proof.
  apply (proj2 (searchUsers_is_substring_search Demo.alice "aRO" Demo.store
                  eq_refl ltac:(discriminate))).
  - vm_compute. lia.
  - right. right. left. reflexivity.
  - reflexivity.
  - discriminate.
Defined.

(** ** The client *)

Lemma charCodeSum_nonneg (name : string) (acc : Z) :
  0 <= acc -> 0 <= Ui.charCodeSum acc name.
Proof.
  revert acc. induction name as [|c r IH]; intros acc H; cbn [Ui.charCodeSum];
    [exact H|].
  apply IH. pose proof (N2Z.is_nonneg (N_of_ascii c)). lia.
Qed.

(** X23. The avatar always has a colour: for every name, the empty one
    included, the sum of the character codes is not negative, the index it
    selects lies within the palette of eight, and [colors[colorIndex]] is one
    of its entries. *)
Theorem avatarColor_is_always_defined :
  forall (name : string),
    0 <= Ui.charCodeSum 0 name
    /\ 0 <= Ui.colorIndex name < 8
    /\ exists colour,
         Ui.avatarColor name = Some colour /\ In colour Ui.colors.
Proof.
  intros name.
  assert (Hidx : 0 <= Ui.colorIndex name < 8).
  { unfold Ui.colorIndex. cbn [Ui.colors List.length Z.of_nat].
    apply Z.mod_pos_bound. lia. }
  split; [apply charCodeSum_nonneg; lia|]. split; [exact Hidx|].
  unfold Ui.avatarColor.
  destruct (nth_error Ui.colors (Z.to_nat (Ui.colorIndex name))) as [col|] eqn:Hn.
  - exists col. split; [reflexivity|]. eapply nth_error_In, Hn.
  - apply nth_error_None in Hn. cbn [Ui.colors List.length] in Hn. lia.
Qed.

Lemma find_id_None (prev : list SearchUser.t) (x : Z) :
  find (fun u => SearchUser.id u =? x) prev = None <->
  ~ In x (map SearchUser.id prev).
Proof.
  induction prev as [|u r IH]; cbn [find map In]; [tauto|].
  destruct (SearchUser.id u =? x) eqn:He.
  - apply Z.eqb_eq in He. split; [discriminate | intros H; exfalso; auto].
  - apply Z.eqb_neq in He. rewrite IH. tauto.
Qed.

Lemma toggleUser_ids (prev : list SearchUser.t) (user : SearchUser.t) :
  map SearchUser.id (Ui.toggleUser prev user)
  = if existsb (fun i => i =? SearchUser.id user) (map SearchUser.id prev)
    then filter (fun i => negb (i =? SearchUser.id user)) (map SearchUser.id prev)
    else map SearchUser.id prev ++ [SearchUser.id user].
Proof.
  unfold Ui.toggleUser.
  destruct (find (fun u => SearchUser.id u =? SearchUser.id user) prev) as [f|]
    eqn:Hf.
  - assert (Hex : existsb (fun i => i =? SearchUser.id user)
                    (map SearchUser.id prev) = true).
    { apply find_some in Hf. destruct Hf as [Hin He].
      apply existsb_exists. exists (SearchUser.id f).
      split; [apply in_map, Hin | exact He]. }
    rewrite Hex. rewrite filter_map_comm. reflexivity.
  - assert (Hex : existsb (fun i => i =? SearchUser.id user)
                    (map SearchUser.id prev) = false).
    { apply not_true_is_false. intros Hex. apply existsb_exists in Hex.
      destruct Hex as (i & Hi & He). apply Z.eqb_eq in He. subst i.
      apply find_id_None in Hf. contradiction. }
    rewrite Hex, map_app. reflexivity.
Qed.

(** X24. [toggleUser] switches exactly the chosen user: the user's id is in
    the selection afterwards if and only if it was not before, every other id
    stays in or out as it was, and a selection without repeated ids stays
    without repeated ids. *)
Theorem toggleUser_switches_one_user :
  forall (prev : list SearchUser.t) (user : SearchUser.t),
    (In (SearchUser.id user) (map SearchUser.id (Ui.toggleUser prev user))
     <-> ~ In (SearchUser.id user) (map SearchUser.id prev))
    /\ (forall i, i <> SearchUser.id user ->
                  (In i (map SearchUser.id (Ui.toggleUser prev user))
                   <-> In i (map SearchUser.id prev)))
    /\ (NoDup (map SearchUser.id prev) ->
        NoDup (map SearchUser.id (Ui.toggleUser prev user))).
Proof.
  intros prev user. rewrite toggleUser_ids.
  destruct (existsb (fun i => i =? SearchUser.id user) (map SearchUser.id prev))
    eqn:Hex.
  - assert (Hin : In (SearchUser.id user) (map SearchUser.id prev)).
    { apply existsb_exists in Hex. destruct Hex as (i & Hi & He).
      apply Z.eqb_eq in He. subst i. exact Hi. }
    split; [|split].
    + rewrite filter_In, Z.eqb_refl. cbn [negb]. split; [intros [_ H]|]; [discriminate | tauto].
    + intros i Hi. rewrite filter_In. apply Z.eqb_neq in Hi. rewrite Hi. tauto.
    + apply NoDup_filter.
  - assert (Hin : ~ In (SearchUser.id user) (map SearchUser.id prev)).
    { intros Hin. rewrite <- not_true_iff_false in Hex. apply Hex.
      apply existsb_exists. exists (SearchUser.id user).
      split; [exact Hin | apply Z.eqb_refl]. }
    split; [|split].
    + rewrite in_app_iff. cbn [In]. tauto.
    + intros i Hi. rewrite in_app_iff. cbn [In]. split; [|tauto].
      intros [H|[H|[]]]; [exact H | congruence].
    + intros Hnd. apply NoDup_app; [exact Hnd | repeat constructor; intros [] |].
      intros a Ha [<-|[]]. contradiction.
Qed.

Lemma toggles_ids (toggled : list SearchUser.t) (acc : list SearchUser.t) :
  NoDup (map SearchUser.id acc) ->
  NoDup (map SearchUser.id (fold_left Ui.toggleUser toggled acc))
  /\ forall i,
       In i (map SearchUser.id (fold_left Ui.toggleUser toggled acc)) ->
       In i (map SearchUser.id acc) \/ In i (map SearchUser.id toggled).
Proof.
  revert acc. induction toggled as [|u r IH]; intros acc Hnd; cbn [fold_left].
  - split; [exact Hnd | auto].
  - assert (Hnd' : NoDup (map SearchUser.id (Ui.toggleUser acc u))).
    { rewrite toggleUser_ids. destruct (existsb _ _) eqn:Hex.
      - apply NoDup_filter, Hnd.
      - apply NoDup_app; [exact Hnd | repeat constructor; intros [] |].
        intros a Ha [<-|[]]. rewrite <- not_true_iff_false in Hex. apply Hex.
        apply existsb_exists. exists (SearchUser.id u).
        split; [exact Ha | apply Z.eqb_refl]. }
    destruct (IH _ Hnd') as [H1 H2]. split; [exact H1|].
    intros i Hi. specialize (H2 i Hi). cbn [map In].
    destruct H2 as [H2|H2]; [|auto].
    rewrite toggleUser_ids in H2. destruct (existsb _ _).
    + apply filter_In in H2. tauto.
    + apply in_app_or in H2. destruct H2 as [H2|[<-|[]]]; auto.
Qed.

(** X25. The group the modal creates never repeats a member: whatever users
    other than the requester were toggled, in whatever order and however
    often, the request [handleCreate] sends (it sends none for a blank name or
    an empty selection) is a [createGroupChat] whose ids are distinct and do
    not include the requester, so in a store that keeps the foreign key and
    has no repeated (chat, user) pair, performing it leaves none. *)
Theorem group_modal_request_keeps_pairs_unique :
  forall (bcryptHash : string -> string)
         (bcryptCompare : string -> string -> bool)
         (cu : AuthUser.t) (toggled : list SearchUser.t) (groupName : string)
         (r : Request) (now : Z) (s : Store),
    (forall u, In u toggled -> SearchUser.id u <> AuthUser.id cu) ->
    Ui.handleCreate groupName (fold_left Ui.toggleUser toggled []) = Some r ->
    foreignKeysHold s = true ->
    NoDup (memberPairs s) ->
    (exists memberIds,
        r = CreateGroupChat groupName memberIds
        /\ memberIds <> [] /\ NoDup memberIds
        /\ ~ In (AuthUser.id cu) memberIds
        /\ Js.trim groupName <> EmptyString)
    /\ NoDup (memberPairs (perform bcryptHash bcryptCompare (Some cu) now r s)).
Proof.
  intros bcryptHash bcryptCompare cu toggled groupName r now s Hothers Hreq Hfk
         Hnd.
  destruct (toggles_ids toggled [] (NoDup_nil _)) as [Hsel Hfrom].
  unfold Ui.handleCreate in Hreq.
  destruct (isEmpty (Js.trim groupName)) eqn:Hname; [discriminate|].
  destruct (List.length (fold_left Ui.toggleUser toggled []) =? 0)%nat eqn:Hlen;
    [discriminate|].
  injection Hreq as <-.
  assert (Hnot : ~ In (AuthUser.id cu)
                     (map SearchUser.id (fold_left Ui.toggleUser toggled []))).
  { intros Hin. destruct (Hfrom _ Hin) as [[]|Hin'].
    apply in_map_iff in Hin'. destruct Hin' as (u & Hid & Hu).
    exact (Hothers u Hu Hid). }
  split.
  - eexists. split; [reflexivity|]. repeat split; try assumption.
    + intros Hnil. apply map_eq_nil in Hnil. rewrite Hnil in Hlen. discriminate.
    + intros Ht. rewrite Ht in Hname. discriminate.
  - apply (perform_invariants bcryptHash bcryptCompare (Some cu) now _ s Hfk Hnd).
    cbn [admissible]. split; assumption.
Qed.

Lemma group_modal_request_keeps_pairs_unique_witness :
  exists r,
    Ui.handleCreate "team two"
      (fold_left Ui.toggleUser
         [ SearchUser.mk 2 "bob" "Bob" None (Some false);
           SearchUser.mk 3 "carol" "Carol" None (Some false);
           SearchUser.mk 2 "bob" "Bob" None (Some false);
           SearchUser.mk 4 "dave" "Dave" None (Some false) ]%string [])
    = Some r
    /\ r = CreateGroupChat "team two" [3; 4]
    /\ NoDup (memberPairs
                (perform Demo.hash Demo.compare (Some Demo.alice) 950 r Demo.store)).
Proof.
  eexists. split; [reflexivity|]. split; [reflexivity|].
  apply (group_modal_request_keeps_pairs_unique Demo.hash Demo.compare Demo.alice
           [ SearchUser.mk 2 "bob" "Bob" None (Some false);
             SearchUser.mk 3 "carol" "Carol" None (Some false);
             SearchUser.mk 2 "bob" "Bob" None (Some false);
             SearchUser.mk 4 "dave" "Dave" None (Some false) ]%string
           "team two" _ 950 Demo.store).
  - simpl. intros u [<-|[<-|[<-|[<-|[]]]]]; discriminate.
  - reflexivity.
  - reflexivity.
  - unfold memberPairs. simpl. nodup_concrete.
Defined.

Lemma toggleUser_switches_one_user_witness :
  NoDup (map SearchUser.id
           (Ui.toggleUser
              [ SearchUser.mk 2 "bob" "Bob" None (Some false);
                SearchUser.mk 3 "carol" "Carol" None (Some false) ]%string
              (SearchUser.mk 2 "bob" "Robert" None (Some true)))).
Proof.
  apply (proj2 (proj2 (toggleUser_switches_one_user
                         [ SearchUser.mk 2 "bob" "Bob" None (Some false);
                           SearchUser.mk 3 "carol" "Carol" None (Some false) ]%string
                         (SearchUser.mk 2 "bob" "Robert" None (Some true))))).
  simpl. nodup_concrete.
Defined.

Lemma getChatMessages_ascending_witness :
  MessageView.chatId
    (messageView Demo.hi
       (User.mk 1 "alice" "+100" "$2a$10$a" "Alice" (Some "I like tea"%string)
          None (Some 10) (Some true) (Some 10)))
  = 1.
Proof.
  apply (proj1 (proj2 (getChatMessages_ascending (Some Demo.carol) 1 Demo.store))).
  left. reflexivity.
Defined.

Lemma slice0_length (n : nat) (s : string) :
  (String.length (Ui.slice0 n s) <= n)%nat.
Proof.
  unfold Ui.slice0. revert s. induction n as [|n IH]; intros s.
  - destruct s; simpl; lia.
  - destruct s as [|c r]; simpl; [lia|]. specialize (IH r). lia.
Qed.

Lemma slice0_nonempty (n : nat) (s : string) :
  s <> EmptyString -> Ui.slice0 (S n) s <> EmptyString.
Proof. destruct s; [congruence|]. simpl. discriminate. Qed.

(** X26. What the conversation shows of a message.  The body of a deleted
    message is the placeholder [Message deleted], never its text.  The
    quotation above a reply is never longer than 50 characters; it is the
    first 50 characters of the text of the quoted message whenever that
    message is among the loaded ones and has a text, whether or not it was
    deleted, and [...] when the quoted message is not loaded (a message of
    another chat, say). *)
Theorem deleted_message_is_masked_but_still_quoted :
  forall (messages : list MessageView.t) (replyToId : Z),
    (forall msg, MessageView.isDeleted msg = Some true ->
                 Ui.messageBody msg = "Message deleted"%string)
    /\ (String.length (Ui.replyPreview messages replyToId) <= 50)%nat
    /\ (forall m t,
           find (fun m => MessageView.id m =? replyToId) messages = Some m ->
           MessageView.text m = Some t -> t <> EmptyString ->
           Ui.replyPreview messages replyToId = Ui.slice0 50 t)
    /\ (~ In replyToId (map MessageView.id messages) ->
        Ui.replyPreview messages replyToId = "..."%string).
Proof.
  intros messages replyToId. split; [|split; [|split]].
  - intros msg Hd. unfold Ui.messageBody. rewrite Hd. reflexivity.
  - unfold Ui.replyPreview.
    destruct (find _ messages) as [m|]; [|simpl; lia].
    destruct (MessageView.text m) as [t|]; [|simpl; lia].
    cbn [option_map]. pose proof (slice0_length 50 t) as Hl.
    destruct (Ui.slice0 50 t) as [|c r]; [simpl; lia | exact Hl].
  - intros m t Hf Ht Hne. unfold Ui.replyPreview. rewrite Hf, Ht.
    cbn [option_map]. pose proof (slice0_nonempty 49 t Hne) as Hs.
    destruct (Ui.slice0 50 t) as [|c r]; [congruence | reflexivity].
  - intros Hnot. unfold Ui.replyPreview.
    destruct (find (fun m => MessageView.id m =? replyToId) messages) as [m|]
      eqn:Hf; [|reflexivity].
    exfalso. apply find_some in Hf. destruct Hf as [Hin He].
    apply Z.eqb_eq in He. apply Hnot. rewrite <- He. apply in_map, Hin.
Qed.

Lemma deleted_message_is_masked_but_still_quoted_witness :
  map Ui.messageBody
    (getChatMessages (Some Demo.carol) 2 Demo.store)
  = [ "hello team"; "Message deleted" ]%string
  /\ Ui.replyPreview (getChatMessages (Some Demo.carol) 2 Demo.store) 4
     = "oops"%string.
Proof.
  split; [reflexivity|].
  refine (proj1 (proj2 (proj2 (deleted_message_is_masked_but_still_quoted
                                 (getChatMessages (Some Demo.carol) 2 Demo.store)
                                 4)))
            _ "oops"%string eq_refl eq_refl _).
  discriminate.
Defined.

(** X27. The day label of a message counts whole periods of 24 hours from
    the message to now, not calendar days: it is [Today] for an age under 24
    hours, [Yesterday] from 24 hours to under 48, the weekday up to under
    seven days, the month and day from then on; a message stamped after now
    gets its weekday, and a missing date the empty label. *)
Theorem formatDate_counts_periods_of_24_hours :
  forall (weekday monthDay : Z -> string) (now d : Z),
    let day := 86400000 in
    Ui.formatDate weekday monthDay now None = EmptyString
    /\ (0 <= now - d < day ->
        Ui.formatDate weekday monthDay now (Some d) = "Today"%string)
    /\ (day <= now - d < 2 * day ->
        Ui.formatDate weekday monthDay now (Some d) = "Yesterday"%string)
    /\ (2 * day <= now - d < 7 * day ->
        Ui.formatDate weekday monthDay now (Some d) = weekday d)
    /\ (7 * day <= now - d ->
        Ui.formatDate weekday monthDay now (Some d) = monthDay d)
    /\ (now - d < 0 ->
        Ui.formatDate weekday monthDay now (Some d) = weekday d).
Proof.
  intros weekday monthDay now d day. unfold Ui.formatDate.
  change (1000 * 60 * 60 * 24) with 86400000. subst day.
  split; [reflexivity|].
  assert (Hdiv : forall q, 86400000 * q <= now - d < 86400000 * (q + 1) ->
                           (now - d) / 86400000 = q).
  { intros q Hq. symmetry. apply (Z.div_unique_pos _ _ q (now - d - 86400000 * q));
      lia. }
  repeat split; intros H.
  - rewrite (Hdiv 0) by lia. reflexivity.
  - rewrite (Hdiv 1) by lia. reflexivity.
  - assert (Hq : 2 <= (now - d) / 86400000 < 7).
    { split; [apply Z.div_le_lower_bound; lia
             | apply Z.div_lt_upper_bound; lia]. }
    destruct ((now - d) / 86400000 =? 0) eqn:E0; [apply Z.eqb_eq in E0; lia|].
    destruct ((now - d) / 86400000 =? 1) eqn:E1; [apply Z.eqb_eq in E1; lia|].
    destruct ((now - d) / 86400000 <? 7) eqn:E7; [reflexivity|].
    apply Z.ltb_ge in E7. lia.
  - assert (Hq : 7 <= (now - d) / 86400000)
      by (apply Z.div_le_lower_bound; lia).
    destruct ((now - d) / 86400000 =? 0) eqn:E0; [apply Z.eqb_eq in E0; lia|].
    destruct ((now - d) / 86400000 =? 1) eqn:E1; [apply Z.eqb_eq in E1; lia|].
    destruct ((now - d) / 86400000 <? 7) eqn:E7; [|reflexivity].
    apply Z.ltb_lt in E7. lia.
  - assert (Hq : (now - d) / 86400000 < 0)
      by (apply Z.div_lt_upper_bound; lia).
    destruct ((now - d) / 86400000 =? 0) eqn:E0; [apply Z.eqb_eq in E0; lia|].
    destruct ((now - d) / 86400000 =? 1) eqn:E1; [apply Z.eqb_eq in E1; lia|].
    destruct ((now - d) / 86400000 <? 7) eqn:E7; [reflexivity|].
    apply Z.ltb_ge in E7. lia.
Qed.

Lemma formatDate_counts_periods_of_24_hours_witness :
  Ui.formatDate (fun _ => "Monday"%string) (fun _ => "Jan 5"%string)
    1700000000000 (Some 1699920000000)
  = "Today"%string.
Proof.
  apply (proj1 (proj2 (formatDate_counts_periods_of_24_hours
                         (fun _ => "Monday"%string) (fun _ => "Jan 5"%string)
                         1700000000000 1699920000000))).
  lia.
Defined.

(** ** The session cookie *)

Lemma get_without_auth_token (cookies : Auth.CookieStore) :
  Js.get (filter (fun c => negb (Auth.isAuthToken c)) cookies) "auth-token" = None.
Proof.
  induction cookies as [|[k v] r IH]; [reflexivity|].
  cbn [filter]. unfold Auth.isAuthToken at 1. cbn [fst].
  destruct (String.eqb k "auth-token") eqn:He; cbn [negb]; [exact IH|].
  cbn [Js.get]. rewrite He. exact IH.
Qed.

Lemma get_other_cookie (cookies : Auth.CookieStore) (name : string) :
  name <> "auth-token"%string ->
  Js.get (filter (fun c => negb (Auth.isAuthToken c)) cookies) name
  = Js.get cookies name.
Proof.
  intros Hne. induction cookies as [|[k v] r IH]; [reflexivity|].
  cbn [filter Js.get]. unfold Auth.isAuthToken at 1. cbn [fst].
  destruct (String.eqb k "auth-token") eqn:He; cbn [negb].
  - apply String.eqb_eq in He. subst k.
    assert (Hn : String.eqb "auth-token" name = false)
      by (apply String.eqb_neq; congruence).
    rewrite Hn. exact IH.
  - cbn [Js.get]. destruct (String.eqb k name); [reflexivity | exact IH].
Qed.

(** X28. How the session cookie is read and written, whatever [jose] does.
    Without an [auth-token] cookie, or with an empty one, there is no current
    user and the token is not even verified; after [removeAuthCookie] there is
    no current user; after [setAuthCookie] of a non-empty token the current
    user is what [verifyToken] makes of that token alone, whatever token was
    set before; neither touches a cookie of another name. *)
Theorem auth_cookie_is_read_back :
  forall (jwtVerify : string -> option AuthUser.t) (cookies : Auth.CookieStore)
         (token : string),
    (Js.get cookies "auth-token" = None ->
     Auth.getCurrentUser jwtVerify cookies = None)
    /\ Auth.getCurrentUser jwtVerify (Auth.setAuthCookie EmptyString cookies) = None
    /\ Auth.getCurrentUser jwtVerify (Auth.removeAuthCookie cookies) = None
    /\ (token <> EmptyString ->
        Auth.getCurrentUser jwtVerify (Auth.setAuthCookie token cookies)
        = Auth.verifyToken jwtVerify token)
    /\ (forall name,
           name <> "auth-token"%string ->
           Js.get (Auth.setAuthCookie token cookies) name = Js.get cookies name
           /\ Js.get (Auth.removeAuthCookie cookies) name = Js.get cookies name).
Proof.
  intros jwtVerify cookies token. split; [|split; [|split; [|split]]].
  - intros H. unfold Auth.getCurrentUser. rewrite H. reflexivity.
  - reflexivity.
  - unfold Auth.getCurrentUser, Auth.removeAuthCookie.
    rewrite get_without_auth_token. reflexivity.
  - intros Hne. unfold Auth.getCurrentUser, Auth.setAuthCookie.
    cbn [Js.get String.eqb Ascii.eqb Bool.eqb].
    destruct token; [congruence | reflexivity].
  - intros name Hne. split.
    + unfold Auth.setAuthCookie. cbn [Js.get].
      assert (Hn : String.eqb "auth-token" name = false)
        by (apply String.eqb_neq; congruence).
      rewrite Hn. apply get_other_cookie, Hne.
    + apply get_other_cookie, Hne.
Qed.

Lemma auth_cookie_is_read_back_witness :
  Auth.getCurrentUser Auth.toyVerify
    (Auth.setAuthCookie "jwt.bob"
       [ ("theme", "dark"); ("auth-token", "jwt.alice") ]%string)
  = Some Demo.bob.
Proof.
  rewrite (proj1 (proj2 (proj2 (proj2
             (auth_cookie_is_read_back Auth.toyVerify
                [ ("theme", "dark"); ("auth-token", "jwt.alice") ]%string
                "jwt.bob"))))).
  - reflexivity.
  - discriminate.
Defined.

(** X29. Signing in and out, seen from the two pages.  Provided [jose]
    verifies the non-empty token it signed for the claims issued, after a login or a
    registration that redirected to [/chat] the current user is the user of
    the claims, the chat page renders and the home page sends there; after a
    logout, which redirected to [/], there is no current user, the home page
    renders the sign-in form and the chat page sends back to [/]: neither
    redirect bounces. *)
Theorem session_follows_login_and_logout :
  forall (sign : AuthUser.t -> string)
         (jwtVerify : string -> option AuthUser.t)
         (bcryptHash : string -> string)
         (bcryptCompare : string -> string -> bool)
         (formData : Js.FormData) (now : Z) (s s1 : Store)
         (cookies : Auth.CookieStore) (path : string)
         (cookie : option AuthUser.t) (currentUser : option AuthUser.t),
    (forall claims, cookie = Some claims ->
                    jwtVerify (sign claims) = Some claims
                    /\ sign claims <> EmptyString) ->
    (loginAction bcryptCompare formData now s = (Redirected path cookie, s1)
     \/ registerAction bcryptHash formData now s = (Redirected path cookie, s1)) ->
    (exists claims,
        cookie = Some claims /\ path = "/chat"%string
        /\ Auth.getCurrentUser jwtVerify (Auth.afterAction sign cookie cookies)
           = Some claims
        /\ Auth.ChatPage
             (Auth.getCurrentUser jwtVerify (Auth.afterAction sign cookie cookies))
           = Auth.Render "ChatApp"
        /\ Auth.Home
             (Auth.getCurrentUser jwtVerify (Auth.afterAction sign cookie cookies))
           = Auth.RedirectTo "/chat")
    /\ (let out := fst (logoutAction currentUser now s) in
        out = Redirected "/" None
        /\ Auth.getCurrentUser jwtVerify (Auth.afterAction sign None cookies) = None
        /\ Auth.Home
             (Auth.getCurrentUser jwtVerify (Auth.afterAction sign None cookies))
           = Auth.Render "AuthPage"
        /\ Auth.ChatPage
             (Auth.getCurrentUser jwtVerify (Auth.afterAction sign None cookies))
           = Auth.RedirectTo "/").
Proof.
  intros sign jwtVerify bcryptHash bcryptCompare formData now s s1 cookies path
         cookie currentUser Hjose Hin.
  split.
  - assert (Hc : exists claims, cookie = Some claims /\ path = "/chat"%string).
    { destruct Hin as [Hlogin|Hreg].
      - unfold loginAction in Hlogin. repeat break_match_in Hlogin;
          try discriminate.
        injection Hlogin as <- <- _. eauto.
      - apply registerAction_redirected in Hreg.
        destruct Hreg as (p & n & d & pw & u & _ & _ & _ & _ & _ & _ & _ & _ & _
                          & Hp & Hc).
        eauto. }
    destruct Hc as (claims & -> & ->). exists claims.
    destruct (Hjose claims eq_refl) as [Hv Hne].
    assert (Hcur : Auth.getCurrentUser jwtVerify
                     (Auth.afterAction sign (Some claims) cookies) = Some claims).
    { unfold Auth.afterAction, Auth.createToken, Auth.getCurrentUser,
        Auth.setAuthCookie.
      cbn [Js.get String.eqb Ascii.eqb Bool.eqb].
      unfold Auth.verifyToken. rewrite Hv.
      destruct (sign claims); [congruence | reflexivity]. }
    rewrite Hcur. repeat split.
  - assert (Hnone : Auth.getCurrentUser jwtVerify
                      (Auth.afterAction sign None cookies) = None).
    { unfold Auth.afterAction, Auth.getCurrentUser, Auth.removeAuthCookie.
      rewrite get_without_auth_token. reflexivity. }
    cbn zeta. rewrite Hnone. repeat split.
Qed.

Lemma session_follows_login_and_logout_witness :
  loginAction Demo.compare [ ("login", "+100"); ("password", "a") ]%string 700
    Demo.store
  = (Redirected "/chat" (Some Demo.alice),
     snd (loginAction Demo.compare [ ("login", "+100"); ("password", "a") ]%string
            700 Demo.store))
  /\ Auth.ChatPage
       (Auth.getCurrentUser Auth.toyVerify
          (Auth.afterAction Auth.toySign (Some Demo.alice) []))
     = Auth.Render "ChatApp".
Proof.
  split; [reflexivity|].
  destruct (session_follows_login_and_logout Auth.toySign Auth.toyVerify
              Demo.hash Demo.compare
              [ ("login", "+100"); ("password", "a") ]%string 700 Demo.store
              (snd (loginAction Demo.compare
                      [ ("login", "+100"); ("password", "a") ]%string 700
                      Demo.store))
              [] "/chat" (Some Demo.alice) None)
    as [(claims & _ & _ & _ & H & _) _].
  - intros claims [= <-]. split; [reflexivity | discriminate].
  - left. reflexivity.
  - exact H.
Defined.
